(** * Bindu AG-UI bridge: the run handler and its event stream

    A shallow embedding of [src/agui-bridge/src]:
    - [events/types.ts]   : task states, [TERMINAL_STATES], the event records;
    - [events/builder.ts] : [AGUIEventBuilder];
    - [events/sse.ts]     : [createSSEStream] ([emit], [close]),
                            [formatSSEEvent];
    - [config.ts]         : [BridgeConfig], [getEnvOrDefault],
                            [getEnvNumberOrDefault], [config];
    - [clients/bindu.ts]  : the records [BinduTask], [SendMessageParams],
                            [BinduClient.call];
    - [routes/agui.ts]    : the listing of runs, [GET /agui/runs];
    - [handlers/run.ts]   : [emitArtifactsAsMessages], [handleAGUIRun].

    The handler is asynchronous JavaScript talking to three outside
    parties: the remote agent ([sendMessage], [getTask]), the consumer of
    the stream (behind a [WritableStreamDefaultWriter]) and the runtime
    ([crypto.randomUUID], [Date.now], [sleep]).  The outside parties are
    gathered in a record [Env] of oracles; everything the handler does to
    them is recorded in a [World] that is threaded through a small
    state-and-exception monad.  A run is strictly sequential (one
    background task, one writer), so the interleaving with other runs is
    not modelled.

    Layout: the embedding; the definitions the properties are stated
    with; the lemmas; the claims of the specification, C1 to C10; further
    properties of the code, X1 to X18. *)

From Stdlib Require Import Bool List String Ascii ZArith NArith PArith Lia Sorted
  DecimalString DecimalNat.
Import ListNotations.
Open Scope string_scope.
Open Scope list_scope.

(* ================================================================= *)
(** ** JavaScript numbers *)

(** The request's [polling_interval_ms] and [timeout_ms] and the
    configuration's numbers are JavaScript numbers.  What the handler does
    with them is: a truthiness test, one division, [Math.ceil], and the two
    comparisons of the loop.  The model keeps the special values that
    decide those ([NaN], the two infinities, the two zeros) and represents
    a finite number exactly, as sign and magnitude [num/den].  A number of
    JavaScript is a binary64 value, a rational of that form; the division
    rounds its quotient to binary64 as IEEE 754 has it (to nearest, ties
    to even, with gradual underflow and with overflow to an infinity). *)
Module JS.

Inductive number : Type :=
| NaN
| Infinity (negative : bool)
| Finite (negative : bool) (num : N) (den : positive).

Definition of_nat (n : nat) : number := Finite false (N.of_nat n) 1.

(** [ToBoolean]: a number is falsy when it is [+0], [-0] or [NaN]. *)
Definition truthy (x : number) : bool :=
  match x with
  | NaN => false
  | Infinity _ => true
  | Finite _ n _ => negb (N.eqb n 0)
  end.

(** [floor (log2 (a / b))] *)
Definition log2_quotient (a b : positive) : Z :=
  let l := (Z.log2 (Zpos a) - Z.log2 (Zpos b))%Z in
  if (Zpos b * 2 ^ Z.max 0 l <=? Zpos a * 2 ^ Z.max 0 (- l))%Z
  then l else (l - 1)%Z.

(** The binary64 value nearest to [a / b], with sign [s].  The quotient
    is cut at [2 ^ e], the weight of the last of its 53 bits (that of the
    smallest subnormal, [2 ^ -1074], for a quotient below the normal
    range); the rest decides the rounding, a tie going to the even
    neighbour; a value of [2 ^ 1024] or more is an infinity. *)
Definition round_double (s : bool) (a b : positive) : number :=
  let e := Z.max (log2_quotient a b - 52) (-1074) in
  let A := (Zpos a * 2 ^ Z.max 0 (- e))%Z in
  let B := (Zpos b * 2 ^ Z.max 0 e)%Z in
  let q := (A / B)%Z in
  let r := (A mod B)%Z in
  let q' := if (B <? 2 * r)%Z || ((B =? 2 * r)%Z && Z.odd q)
            then (q + 1)%Z else q in
  if (2 ^ 1024 <=? q' * 2 ^ Z.max 0 e)%Z then Infinity s
  else Finite s (Z.to_N (q' * 2 ^ Z.max 0 e)) (Z.to_pos (2 ^ Z.max 0 (- e))).

(** [x / y] on numbers: the special cases of IEEE 754 spelled out, and
    the quotient of two finite numbers rounded to binary64. *)
Definition div (x y : number) : number :=
  match x, y with
  | NaN, _ | _, NaN => NaN
  | Infinity _, Infinity _ => NaN
  | Infinity s, Finite s' _ _ => Infinity (xorb s s')
  | Finite s _ _, Infinity s' => Finite (xorb s s') 0 1
  | Finite s n d, Finite s' n' d' =>
      match n, n' with
      | N0, N0 => NaN
      | Npos _, N0 => Infinity (xorb s s')
      | N0, Npos _ => Finite (xorb s s') 0 1
      | Npos p, Npos p' => round_double (xorb s s') (p * d') (d * p')
      end
  end.

(** [Math.ceil]. *)
Definition ceil (x : number) : number :=
  match x with
  | NaN => NaN
  | Infinity s => Infinity s
  | Finite false n d => Finite false ((n + Npos d - 1) / Npos d) 1
  | Finite true n d => Finite true (n / Npos d) 1
  end.

(** The signed numerator of a finite number. *)
Definition signed (s : bool) (n : N) : Z :=
  if s then (- Z.of_N n)%Z else Z.of_N n.

(** Ordering of two numbers; [None] when one of them is [NaN]. *)
Definition compare (x y : number) : option comparison :=
  match x, y with
  | NaN, _ | _, NaN => None
  | Infinity s, Infinity s' =>
      Some (if s then (if s' then Eq else Lt) else (if s' then Gt else Eq))
  | Infinity s, Finite _ _ _ => Some (if s then Lt else Gt)
  | Finite _ _ _, Infinity s' => Some (if s' then Gt else Lt)
  | Finite s n d, Finite s' n' d' =>
      Some (Z.compare (signed s n * Zpos d') (signed s' n' * Zpos d))
  end.

(** [x < y]. *)
Definition lt (x y : number) : bool :=
  match compare x y with Some Lt => true | _ => false end.

(** [x >= y]. *)
Definition ge (x y : number) : bool :=
  match compare x y with Some Gt | Some Eq => true | _ => false end.

Definition is_nan (x : number) : bool :=
  match x with NaN => true | _ => false end.

(** [ToBoolean] of a string: the empty string is falsy. *)
Definition truthy_string (s : string) : bool :=
  match s with EmptyString => false | _ => true end.

End JS.

(* ================================================================= *)
(** ** events/types.ts *)

(** [BinduTaskState] is a TypeScript string union; the value that arrives
    from the remote agent is a plain [string] ([BinduTask.status.state]),
    only cast to the union. *)
Definition BinduTaskState := string.

Definition TERMINAL_STATES : list BinduTaskState :=
  ["completed"; "canceled"; "failed"].

(** [Array.prototype.includes] on strings. *)
Definition includes (l : list string) (s : string) : bool :=
  existsb (String.eqb s) l.

Inductive EventType : Type :=
| RUN_STARTED
| RUN_FINISHED
| RUN_ERROR
| STATE_DELTA
| TEXT_MESSAGE_START
| TEXT_MESSAGE_CONTENT
| TEXT_MESSAGE_END.

(** [BaseEvent]. *)
Record BaseEvent : Type := mkBase {
  type : EventType;
  timestamp : Z;
  thread_id : string;
  run_id : string
}.

(** The fields an event variant adds to [BaseEvent]. *)
Inductive Payload : Type :=
| NoPayload
| ErrorPayload (message : string) (code : option Z)
| DeltaPayload (bindu_state : BinduTaskState)
| MessageStartPayload (message_id : string) (role : string)
| MessageContentPayload (message_id : string) (content : string)
| MessageEndPayload (message_id : string).

(** [AGUIEvent]: the base fields spread into an object with the variant's
    own fields. *)
Record AGUIEvent : Type := mkEvent {
  base_of : BaseEvent;
  payload : Payload
}.

Definition event_type (e : AGUIEvent) : EventType := type (base_of e).

(* ================================================================= *)
(** ** config.ts and clients/bindu.ts: the records the handler reads *)

Record BridgeConfig : Type := mkConfig {
  binduUrl : string;
  port : JS.number;
  pollIntervalMs : JS.number;
  requestTimeoutMs : JS.number;
  maxPollAttempts : JS.number
}.

Inductive PartKind : Type := KindText | KindFile | KindData.

Record BinduArtifactPart : Type := mkPart {
  kind : PartKind;
  text : option string
}.

Record BinduArtifact : Type := mkArtifact {
  artifact_id : string;
  parts : list BinduArtifactPart
}.

Record BinduTask : Type := mkTask {
  id : string;
  contextId : string;
  status_state : string;
  status_timestamp : string;
  artifacts : option (list BinduArtifact)
}.

Record TextPart : Type := mkTextPart { part_text : string }.

(** [SendMessageParams.message]; [role], [kind] and the configuration are
    constants of the call site. *)
Record SendMessageParams : Type := mkSend {
  send_parts : list TextPart;
  send_messageId : string;
  send_contextId : string;
  send_taskId : string
}.

(** What a JavaScript [throw] carries, as far as the handler looks at it:
    [error instanceof Error ? error.message : <fallback>]. *)
Inductive Thrown : Type :=
| ErrorObject (message : string)
| NotAnError.

(* ================================================================= *)
(** ** handlers/run.ts: the request *)

Inductive Role : Type := user | assistant | system.

Definition Role_eqb (a b : Role) : bool :=
  match a, b with
  | user, user | assistant, assistant | system, system => true
  | _, _ => false
  end.

Record AGUIMessage : Type := mkMessage {
  role : Role;
  content : string
}.

Record RunConfig : Type := mkRunConfig {
  polling_interval_ms : option JS.number;
  timeout_ms : option JS.number
}.

(** [AGUIRunRequest] as it comes out of [c.req.json()]: the handler itself
    checks that [thread_id] and [messages] are there, so both are optional
    here ([None]: the property is missing). *)
Record AGUIRunRequest : Type := mkRequest {
  body_thread_id : option string;
  body_run_id : option string;
  body_messages : option (list AGUIMessage);
  body_config : option RunConfig
}.

(* ================================================================= *)
(** ** The outside world *)

(** State of the [WritableStreamDefaultWriter] the sink wraps (WHATWG
    Streams): a stream is writable until it is closed or errored, and
    stays closed or errored afterwards. *)
Inductive WriterState : Type := Writable | Closed | Errored.

(** The parties the handler talks to.  Each oracle that is called more
    than once is indexed by the number of earlier calls. *)
Record Env : Type := mkEnv {
  randomUUID : nat -> string;
  now : nat -> Z;
  sendMessage : SendMessageParams -> Thrown + BinduTask;
  getTask : nat -> string -> Thrown + BinduTask;
  (** how many chunks the consumer takes before it goes away and the
      stream errors; [None]: it never goes away *)
  writeLimit : option nat;
  writeError : Thrown;
  closeError : Thrown
}.

(** A call of the handler upon the remote agent or the timer. *)
Inductive Call : Type :=
| SendCall (params : SendMessageParams)      (* binduClient.sendMessage *)
| SleepCall (ms : JS.number)                 (* sleep *)
| GetTaskCall (taskId : string).             (* binduClient.getTask *)

(** Everything the handler has done so far. *)
Record World : Type := mkWorld {
  delivered : list AGUIEvent;          (* chunks written to the stream *)
  writer : WriterState;
  uuids : nat;                         (* calls of crypto.randomUUID *)
  ticks : nat;                         (* calls of Date.now *)
  sent : list SendMessageParams;       (* calls of binduClient.sendMessage *)
  queried : list string;               (* calls of binduClient.getTask *)
  slept : list JS.number;              (* calls of sleep *)
  journal : list Call                  (* those three, in the order made *)
}.

Definition fresh : World := mkWorld [] Writable 0 0 [] [] [] [].

(** What running a piece of the handler ends in.  [OutOfFuel] is the
    model's own: the poll loop was cut off while the program was still
    running.  It is not an exception: no [catch] or [finally] sees it. *)
Inductive Completion (A : Type) : Type :=
| Normal (a : A)
| Throw (e : Thrown)
| OutOfFuel.
Arguments Normal {A} a.
Arguments Throw {A} e.
Arguments OutOfFuel {A}.

Definition M (A : Type) : Type := World -> Completion A * World.

Definition ret {A} (a : A) : M A := fun w => (Normal a, w).

Definition bind {A B} (c : M A) (k : A -> M B) : M B :=
  fun w =>
    match c w with
    | (Normal a, w') => k a w'
    | (Throw e, w') => (Throw e, w')
    | (OutOfFuel, w') => (OutOfFuel, w')
    end.

(** [try { c } catch (error) { h error }] *)
Definition try_catch {A} (c : M A) (h : Thrown -> M A) : M A :=
  fun w =>
    match c w with
    | (Throw e, w') => h e w'
    | r => r
    end.

(** [try { c } finally { f }] *)
Definition try_finally {A} (c : M A) (f : M unit) : M A :=
  fun w =>
    match c w with
    | (OutOfFuel, w') => (OutOfFuel, w')
    | (r, w') =>
        match f w' with
        | (Normal _, w'') => (r, w'')
        | (Throw e, w'') => (Throw e, w'')
        | (OutOfFuel, w'') => (OutOfFuel, w'')
        end
    end.

Declare Scope js_scope.
Delimit Scope js_scope with js.
Notation "x <- c ;; k" := (bind c (fun x => k))
  (at level 100, c at next level, right associativity) : js_scope.
Notation "c ;; k" := (bind c (fun _ => k))
  (at level 100, right associativity) : js_scope.
Open Scope js_scope.

(** [for (const x of l) { body x }] *)
Fixpoint for_of {A} (l : list A) (body : A -> M unit) : M unit :=
  match l with
  | [] => ret tt
  | x :: l' => body x ;; for_of l' body
  end.

(** [error instanceof Error ? error.message : fallback] *)
Definition message_or (error : Thrown) (fallback : string) : string :=
  match error with
  | ErrorObject m => m
  | NotAnError => fallback
  end.

Section Bridge.

Variable env : Env.

(* --------------------------------------------------------------- *)
(** *** Runtime and remote calls *)

(** [crypto.randomUUID()] as a state change: it cannot fail. *)
Definition uuid_next (w : World) : string * World :=
  (randomUUID env (uuids w),
   mkWorld (delivered w) (writer w) (S (uuids w)) (ticks w)
           (sent w) (queried w) (slept w) (journal w)).

Definition crypto_randomUUID : M string :=
  fun w => let '(u, w') := uuid_next w in (Normal u, w').

Definition Date_now : M Z :=
  fun w =>
    (Normal (now env (ticks w)),
     mkWorld (delivered w) (writer w) (uuids w) (S (ticks w))
             (sent w) (queried w) (slept w) (journal w)).

Definition sleep (ms : JS.number) : M unit :=
  fun w =>
    (Normal tt,
     mkWorld (delivered w) (writer w) (uuids w) (ticks w)
             (sent w) (queried w) (slept w ++ [ms])
             (journal w ++ [SleepCall ms])).

Definition binduClient_sendMessage (p : SendMessageParams) : M BinduTask :=
  fun w =>
    let w' := mkWorld (delivered w) (writer w) (uuids w) (ticks w)
                      (sent w ++ [p]) (queried w) (slept w)
                      (journal w ++ [SendCall p]) in
    match sendMessage env p with
    | inl e => (Throw e, w')
    | inr t => (Normal t, w')
    end.

Definition binduClient_getTask (taskId : string) : M BinduTask :=
  fun w =>
    let w' := mkWorld (delivered w) (writer w) (uuids w) (ticks w)
                      (sent w) (queried w ++ [taskId]) (slept w)
                      (journal w ++ [GetTaskCall taskId]) in
    match getTask env (List.length (queried w)) taskId with
    | inl e => (Throw e, w')
    | inr t => (Normal t, w')
    end.

(* --------------------------------------------------------------- *)
(** *** The writer under the sink *)

Definition accepts (written : nat) : bool :=
  match writeLimit env with
  | None => true
  | Some n => Nat.ltb written n
  end.

(** [writer.write(chunk)]: appends the chunk while the stream is
    writable and the consumer is there; the write that finds the
    consumer gone errors the stream; on a closed or errored stream it
    rejects. *)
Definition writer_write (chunk : AGUIEvent) : M unit :=
  fun w =>
    match writer w with
    | Writable =>
        if accepts (List.length (delivered w))
        then (Normal tt,
              mkWorld (delivered w ++ [chunk]) Writable (uuids w) (ticks w)
                      (sent w) (queried w) (slept w) (journal w))
        else (Throw (writeError env),
              mkWorld (delivered w) Errored (uuids w) (ticks w)
                      (sent w) (queried w) (slept w) (journal w))
    | _ => (Throw (writeError env), w)
    end.

(** [writer.close()]: closes a writable stream; rejects on a stream
    that is already closed or errored. *)
Definition writer_close : M unit :=
  fun w =>
    match writer w with
    | Writable =>
        (Normal tt,
         mkWorld (delivered w) Closed (uuids w) (ticks w)
                 (sent w) (queried w) (slept w) (journal w))
    | _ => (Throw (closeError env), w)
    end.

(* --------------------------------------------------------------- *)
(** *** events/sse.ts: [createSSEStream] *)

(** [emit]: [await writer.write(encoder.encode(formatSSEEvent(event)))].
    The chunk is the event's SSE framing; the model keeps the event. *)
Definition emit (event : AGUIEvent) : M unit := writer_write event.

(** [close]: [await writer.close()]. *)
Definition close : M unit := writer_close.

(* --------------------------------------------------------------- *)
(** *** events/builder.ts: [AGUIEventBuilder] *)

Record AGUIEventBuilder : Type := mkBuilder {
  threadId : string;
  runId : string
}.

Section Builder.

Variable events : AGUIEventBuilder.

Definition base (t : EventType) : M BaseEvent :=
  ts <- Date_now ;;
  ret (mkBase t ts (threadId events) (runId events)).

Definition runStarted : M AGUIEvent :=
  b <- base RUN_STARTED ;; ret (mkEvent b NoPayload).

Definition runFinished : M AGUIEvent :=
  b <- base RUN_FINISHED ;; ret (mkEvent b NoPayload).

Definition runError (error : string) (code : option Z) : M AGUIEvent :=
  b <- base RUN_ERROR ;; ret (mkEvent b (ErrorPayload error code)).

Definition stateDelta (binduState : BinduTaskState) : M AGUIEvent :=
  b <- base STATE_DELTA ;; ret (mkEvent b (DeltaPayload binduState)).

Definition textMessageStart (messageId role : string) : M AGUIEvent :=
  b <- base TEXT_MESSAGE_START ;;
  ret (mkEvent b (MessageStartPayload messageId role)).

Definition textMessageContent (messageId content : string) : M AGUIEvent :=
  b <- base TEXT_MESSAGE_CONTENT ;;
  ret (mkEvent b (MessageContentPayload messageId content)).

Definition textMessageEnd (messageId : string) : M AGUIEvent :=
  b <- base TEXT_MESSAGE_END ;;
  ret (mkEvent b (MessageEndPayload messageId)).

(* ------------------------------------------------------------- *)
(** *** handlers/run.ts: [emitArtifactsAsMessages] *)

(** [part.kind === 'text' && part.text] *)
Definition text_bearing (part : BinduArtifactPart) : option string :=
  match kind part, text part with
  | KindText, Some t => if JS.truthy_string t then Some t else None
  | _, _ => None
  end.

Definition emitPart (part : BinduArtifactPart) : M unit :=
  match text_bearing part with
  | Some t =>
      msgId <- crypto_randomUUID ;;
      (ev <- textMessageStart msgId "assistant" ;; emit ev) ;;
      (ev <- textMessageContent msgId t ;; emit ev) ;;
      (ev <- textMessageEnd msgId ;; emit ev)
  | None => ret tt
  end.

Definition emitArtifactsAsMessages (task : BinduTask) : M unit :=
  match artifacts task with
  | None | Some [] => ret tt                 (* !task.artifacts?.length *)
  | Some arts =>
      for_of arts (fun artifact => for_of (parts artifact) emitPart)
  end.

End Builder.

(* --------------------------------------------------------------- *)
(** *** handlers/run.ts: [createRunHandler] and [handleAGUIRun] *)

Variable config : BridgeConfig.

(** The [const]s [handleAGUIRun] computes before it starts the
    background task. *)
Record Run : Type := mkRun {
  run_threadId : string;
  run_taskId : string;
  run_messageId : string;
  run_pollIntervalMs : JS.number;
  run_maxPollAttempts : JS.number
}.

(** [body.config?.field] *)
Definition config_field {A} (c : option RunConfig)
    (field : RunConfig -> option A) : option A :=
  match c with
  | Some c => field c
  | None => None
  end.

(** [a ?? b] *)
Definition nullish {A} (a : option A) (b : A) : A :=
  match a with
  | Some x => x
  | None => b
  end.

Definition resolve_pollIntervalMs (body : AGUIRunRequest) : JS.number :=
  nullish (config_field (body_config body) polling_interval_ms)
          (pollIntervalMs config).

Definition resolve_maxPollAttempts (body : AGUIRunRequest)
    (pollInterval : JS.number) : JS.number :=
  match config_field (body_config body) timeout_ms with
  | Some t =>
      if JS.truthy t
      then JS.ceil (JS.div t pollInterval)
      else maxPollAttempts config
  | None => maxPollAttempts config
  end.

Section Background.

Variable messages : list AGUIMessage.      (* body.messages *)
Variable run : Run.

Definition events : AGUIEventBuilder :=
  mkBuilder (run_threadId run) (run_taskId run).

(** What the branch taken on a terminal state emits. *)
Definition onTerminal (currentState : BinduTaskState)
    (currentTask : BinduTask) : M unit :=
  if String.eqb currentState "completed" then
    emitArtifactsAsMessages events currentTask ;;
    (ev <- runFinished events ;; emit ev)
  else if String.eqb currentState "failed" then
    (ev <- runError events "Task failed" None ;; emit ev)
  else if String.eqb currentState "canceled" then
    (ev <- runError events "Task canceled" (Some (-32000)%Z) ;; emit ev)
  else ret tt.

(** The [while (pollCount < maxPollAttempts)] loop.  It returns the
    two loop variables as they are when the loop is left, by [break]
    or by its condition.  [fuel] bounds the number of iterations the
    model follows. *)
Fixpoint pollLoop (fuel : nat) (lastState : BinduTaskState)
    (pollCount : nat) : M (BinduTaskState * nat) :=
  if JS.lt (JS.of_nat pollCount) (run_maxPollAttempts run) then
    match fuel with
    | O => fun w => (OutOfFuel, w)
    | S fuel' =>
        sleep (run_pollIntervalMs run) ;;
        got <- try_catch
                 (t <- binduClient_getTask (run_taskId run) ;; ret (Some t))
                 (fun error =>
                    let message :=
                      message_or error "Failed to get task status" in
                    (ev <- runError events message None ;; emit ev) ;;
                    ret None) ;;
        match got with
        | None => ret (lastState, pollCount)                  (* break *)
        | Some currentTask =>
            let currentState := status_state currentTask in
            lastState' <-
              (if negb (String.eqb currentState lastState)
               then (ev <- stateDelta events currentState ;; emit ev) ;;
                    ret currentState
               else ret lastState) ;;
            if includes TERMINAL_STATES currentState then
              onTerminal currentState currentTask ;;
              ret (lastState', pollCount)                     (* break *)
            else pollLoop fuel' lastState' (S pollCount)
        end
    end
  else ret (lastState, pollCount).

(** The body of the [try] block. *)
Definition tryBlock (fuel : nat) : M unit :=
  let userMessages := filter (fun m => Role_eqb (role m) user) messages in
  if Nat.eqb (List.length userMessages) 0 then
    (ev <- runError events "No user messages to send" None ;; emit ev)
  else
    binduClient_sendMessage
      (mkSend (map (fun m => mkTextPart (content m)) userMessages)
              (run_messageId run) (run_threadId run) (run_taskId run)) ;;
    (ev <- runStarted events ;; emit ev) ;;
    left <- pollLoop fuel "submitted" 0 ;;
    let '(lastState, pollCount) := left in
    if JS.ge (JS.of_nat pollCount) (run_maxPollAttempts run)
       && negb (includes TERMINAL_STATES lastState)
    then (ev <- runError events "Polling timeout" None ;; emit ev)
    else ret tt.

(** The background task: [try { ... } catch (error) { ... }
    finally { ... }]. *)
Definition background (fuel : nat) : M unit :=
  try_finally
    (try_catch (tryBlock fuel)
       (fun error =>
          let message := message_or error "Unknown error" in
          try_catch (ev <- runError events message None ;; emit ev)
                    (fun _ => ret tt)))
    (try_catch close (fun _ => ret tt)).

End Background.

(** What a call of the handler comes to: a JSON error response and no
    stream, or the SSE response, with the stream the background task
    has written when it completes (or when the fuel runs out). *)
Inductive Outcome : Type :=
| Rejected (error : string) (status : nat)
| Streamed (run : Run) (bg : Completion unit) (final : World).

(** [body.run_id || crypto.randomUUID()] *)
Definition resolve_taskId (body : AGUIRunRequest) (w : World)
    : string * World :=
  match body_run_id body with
  | Some r =>
      if JS.truthy_string r then (r, w) else uuid_next w
  | None => uuid_next w
  end.

(** [handleAGUIRun]; [None] is a body that is not JSON. *)
Definition handleAGUIRun (fuel : nat) (parsed : option AGUIRunRequest)
    : Outcome :=
  match parsed with
  | None => Rejected "Invalid JSON body" 400
  | Some body =>
      if negb (JS.truthy_string (nullish (body_thread_id body) "")) then
        Rejected "thread_id is required" 400
      else
        match body_messages body with
        | None | Some [] =>
            Rejected "messages array is required and cannot be empty" 400
        | Some messages =>
            let threadId := nullish (body_thread_id body) "" in
            let '(taskId, w1) := resolve_taskId body fresh in
            let '(messageId, w2) := uuid_next w1 in
            let pollInterval := resolve_pollIntervalMs body in
            let maxAttempts := resolve_maxPollAttempts body pollInterval in
            let run :=
              mkRun threadId taskId messageId pollInterval maxAttempts in
            let '(bg, final) := background messages run fuel w2 in
            Streamed run bg final
        end
  end.

End Bridge.

(* ================================================================= *)
(** ** events/sse.ts: [formatSSEEvent] *)

(** Strings are sequences of code units below 256.  [LF] and [CR] are the
    line terminators of the SSE wire format. *)
Definition LF : ascii := "010"%char.
Definition CR : ascii := "013"%char.

(** The value of an [EventType] member is its own name. *)
Definition EventType_value (t : EventType) : string :=
  match t with
  | RUN_STARTED => "RUN_STARTED"
  | RUN_FINISHED => "RUN_FINISHED"
  | RUN_ERROR => "RUN_ERROR"
  | STATE_DELTA => "STATE_DELTA"
  | TEXT_MESSAGE_START => "TEXT_MESSAGE_START"
  | TEXT_MESSAGE_CONTENT => "TEXT_MESSAGE_CONTENT"
  | TEXT_MESSAGE_END => "TEXT_MESSAGE_END"
  end.

Module JSON.

Local Open Scope string_scope.

(** A hexadecimal digit, in lower case. *)
Definition hex_digit (n : N) : ascii :=
  if (n <? 10)%N then ascii_of_N (48 + n) else ascii_of_N (87 + n).

(** [QuoteJSONString] on one code unit: the two-character escapes, the
    [\u00XX] escape for the other code units below 0x20, the code unit
    itself otherwise. *)
Definition escape (c : ascii) : string :=
  let n := N_of_ascii c in
  if (n =? 8)%N then "\b"
  else if (n =? 9)%N then "\t"
  else if (n =? 10)%N then "\n"
  else if (n =? 12)%N then "\f"
  else if (n =? 13)%N then "\r"
  else if (n =? 34)%N then String "\" (String "034" "")
  else if (n =? 92)%N then "\\"
  else if (n <? 32)%N then
    "\u00" ++ String (hex_digit (n / 16)) (String (hex_digit (n mod 16)) "")
  else String c "".

Fixpoint escape_all (s : string) : string :=
  match s with
  | EmptyString => ""
  | String c rest => escape c ++ escape_all rest
  end.

(** [JSON.stringify] of a string. *)
Definition quote (s : string) : string :=
  String "034" (escape_all s ++ String "034" "").

(** [JSON.stringify] of an integer (below 10^21 in magnitude, where
    JavaScript prints all the digits). *)
Definition integer (z : Z) : string :=
  NilZero.string_of_int (Z.to_int z).

(** A member [key: value] of an object; the keys of the events are plain
    identifiers. *)
Definition member (key value : string) : string :=
  quote key ++ ":" ++ value.

(** The members the variant adds after the base members.  A property
    whose value is [undefined] (the [code] of an error without code) is
    left out by [JSON.stringify]. *)
Definition payload_members (p : Payload) : string :=
  match p with
  | NoPayload => ""
  | ErrorPayload message code =>
      "," ++ member "error"
               ("{" ++ member "message" (quote message)
                    ++ match code with
                       | Some c => "," ++ member "code" (integer c)
                       | None => ""
                       end
                    ++ "}")
  | DeltaPayload s =>
      "," ++ member "delta" ("{" ++ member "bindu_state" (quote s) ++ "}")
  | MessageStartPayload id role =>
      "," ++ member "message_id" (quote id) ++ "," ++ member "role" (quote role)
  | MessageContentPayload id content =>
      "," ++ member "message_id" (quote id)
          ++ "," ++ member "content" (quote content)
  | MessageEndPayload id =>
      "," ++ member "message_id" (quote id)
  end.

(** [JSON.stringify(event)]: the members in the order the builder sets
    them, without white space. *)
Definition stringify (e : AGUIEvent) : string :=
  "{" ++ member "type" (quote (EventType_value (event_type e)))
      ++ "," ++ member "timestamp" (integer (timestamp (base_of e)))
      ++ "," ++ member "thread_id" (quote (thread_id (base_of e)))
      ++ "," ++ member "run_id" (quote (run_id (base_of e)))
      ++ payload_members (payload e)
      ++ "}".

End JSON.

(** [`event: ${eventType}\ndata: ${data}\n\n`] *)
Definition formatSSEEvent (event : AGUIEvent) : string :=
  ("event: " ++ EventType_value (event_type event) ++ String LF
    ("data: " ++ JSON.stringify event ++ String LF (String LF "")))%string.

(** The text on the wire of a stream: the frames of its events. *)
Definition wire (l : list AGUIEvent) : string :=
  fold_right (fun e rest => (formatSSEEvent e ++ rest)%string) "" l.

(* ================================================================= *)
(** ** [parseInt(string, 10)] *)

(** [parseInt] with radix 10, on strings of code units below 256: leading
    white space is skipped, one sign is read, then the longest run of
    decimal digits; what follows is ignored; without a digit the result
    is [NaN].  "-0" gives [-0].  The digits are read exactly: the
    rounding of a numeral above 2^53 is not modelled. *)
Definition is_white_space (c : ascii) : bool :=
  let n := N_of_ascii c in
  ((9 <=? n) && (n <=? 13) || (n =? 32) || (n =? 160))%N.

Fixpoint trim_start (s : string) : string :=
  match s with
  | String c rest => if is_white_space c then trim_start rest else s
  | EmptyString => EmptyString
  end.

Definition digit_value (c : ascii) : option N :=
  let n := N_of_ascii c in
  if ((48 <=? n) && (n <=? 57))%N then Some (n - 48)%N else None.

(** The value of the longest run of digits at the head of [s], after the
    digits of value [acc] already read; [None] when no digit is read. *)
Fixpoint leading_digits (s : string) (acc : option N) : option N :=
  match s with
  | String c rest =>
      match digit_value c with
      | Some d =>
          leading_digits rest
            (Some (10 * match acc with Some a => a | None => 0 end + d)%N)
      | None => acc
      end
  | EmptyString => acc
  end.

Definition parseInt (s : string) : JS.number :=
  let s1 := trim_start s in
  let '(negative, s2) :=
    match s1 with
    | String "-" rest => (true, rest)
    | String "+" rest => (false, rest)
    | _ => (false, s1)
    end in
  match leading_digits s2 None with
  | Some n => JS.Finite negative n 1
  | None => JS.NaN
  end.

(* ================================================================= *)
(** ** config.ts *)

Section Config.

(** [process.env]: [None] is a variable that is not set. *)
Variable process_env : string -> option string.

Definition getEnvOrDefault (key defaultValue : string) : string :=
  nullish (process_env key) defaultValue.

Definition getEnvNumberOrDefault (key : string) (defaultValue : JS.number)
    : JS.number :=
  match process_env key with
  | None => defaultValue
  | Some value =>
      if negb (JS.truthy_string value) then defaultValue
      else
        let parsed := parseInt value in
        if JS.is_nan parsed then defaultValue else parsed
  end.

Definition config : BridgeConfig :=
  mkConfig (getEnvOrDefault "BINDU_URL" "http://localhost:3773")
           (getEnvNumberOrDefault "PORT" (JS.Finite false 8080 1))
           (getEnvNumberOrDefault "POLL_INTERVAL_MS" (JS.Finite false 500 1))
           (getEnvNumberOrDefault "REQUEST_TIMEOUT_MS"
                                  (JS.Finite false 30000 1))
           (getEnvNumberOrDefault "MAX_POLL_ATTEMPTS" (JS.Finite false 120 1)).

End Config.

(* ================================================================= *)
(** ** clients/bindu.ts: [BinduClient.call] *)

(** What a promise of the client is rejected with: a [BinduRPCError],
    another [Error] (with its [name]), or something that is no [Error]. *)
Inductive Raised : Type :=
| RaisedRPC (code : JS.number) (message : string)
| RaisedError (name : string) (message : string)
| RaisedOther.

(** The request a call sends. *)
Inductive RpcRequest : Type :=
| MessageSend (params : SendMessageParams)     (* "message/send" *)
| TasksGet (taskId : string)                   (* "tasks/get" *)
| TasksList (limit : option JS.number).        (* "tasks/list" *)

Record RpcErrorMember : Type := mkRpcError {
  error_code : JS.number;
  error_message : string
}.

(** [JsonRpcResponse<T>]; [None] is a member that is missing. *)
Record JsonRpcResponse (T : Type) : Type := mkRpcResponse {
  response_error : option RpcErrorMember;
  response_result : option T
}.
Arguments mkRpcResponse {T} _ _.
Arguments response_error {T} _.
Arguments response_result {T} _.

(** What [response.json()] comes to. *)
Inductive Body (T : Type) : Type :=
| BodyRejects (e : Raised)
| BodyParsed (data : JsonRpcResponse T).
Arguments BodyRejects {T} e.
Arguments BodyParsed {T} data.

Record HttpResponse (T : Type) : Type := mkHttpResponse {
  http_ok : bool;
  http_status : nat;
  http_statusText : string;
  http_json : Body T
}.
Arguments mkHttpResponse {T} _ _ _ _.
Arguments http_ok {T} _.
Arguments http_status {T} _.
Arguments http_statusText {T} _.
Arguments http_json {T} _.

(** What [fetch] comes to within the request timeout; the abort of the
    timeout rejects it with an [Error] named "AbortError". *)
Inductive Fetched (T : Type) : Type :=
| FetchRejects (e : Raised)
| FetchResolves (r : HttpResponse T).
Arguments FetchRejects {T} e.
Arguments FetchResolves {T} r.

Definition minus_32000 : JS.number := JS.Finite true 32000 1.

Section Client.

Variable T : Type.
Variable fetch : RpcRequest -> Fetched T.

(** The [try] block of [call]. *)
Definition call_try (request : RpcRequest) : Raised + option T :=
  match fetch request with
  | FetchRejects e => inl e
  | FetchResolves response =>
      if negb (http_ok response) then
        inl (RaisedRPC minus_32000
               ("HTTP error: "
                  ++ NilZero.string_of_uint (Nat.to_uint (http_status response))
                  ++ " " ++ http_statusText response)%string)
      else
        match http_json response with
        | BodyRejects e => inl e
        | BodyParsed data =>
            match response_error data with
            | Some err =>
                inl (RaisedRPC (error_code err) (error_message err))
            | None => inr (response_result data)
            end
        end
  end.

(** [call]: the [catch] block turns every failure into a
    [BinduRPCError]. *)
Definition call (request : RpcRequest) : Raised + option T :=
  match call_try request with
  | inr result => inr result
  | inl (RaisedRPC code message) => inl (RaisedRPC code message)
  | inl (RaisedError name message) =>
      if String.eqb name "AbortError"
      then inl (RaisedRPC minus_32000 "Request timeout")
      else inl (RaisedRPC minus_32000 message)
  | inl RaisedOther => inl (RaisedRPC minus_32000 "Unknown error")
  end.

End Client.
Arguments call_try {T} fetch request.
Arguments call {T} fetch request.

(* ================================================================= *)
(** ** routes/agui.ts: [GET /agui/runs] *)

Record RunInfo : Type := mkRunInfo {
  info_run_id : string;
  info_thread_id : string;
  info_state : string;
  info_created_at : string;
  info_completed_at : option string
}.

Inductive RunsResponse : Type :=
| RunsListed (runs : list RunInfo)              (* c.json({ runs }) *)
| RunsFailed (error : string) (status : nat).   (* c.json({ error }, 500) *)

Section Runs.

(** [c.req.query(name)]: [None] is a parameter that is not given. *)
Variable query : string -> option string.
(** [binduClient.listTasks(limit)] *)
Variable listTasks : JS.number -> Thrown + list BinduTask.

Definition run_of_task (task : BinduTask) : RunInfo :=
  mkRunInfo (id task) (contextId task) (status_state task)
            (status_timestamp task)
            (if includes ["completed"; "failed"; "canceled"]
                         (status_state task)
             then Some (status_timestamp task)
             else None).

Definition listRuns : RunsResponse :=
  let threadId := query "thread_id" in
  let limit :=
    parseInt (match query "limit" with
              | Some l => if JS.truthy_string l then l else "10"
              | None => "10"
              end) in
  match listTasks limit with
  | inl error => RunsFailed (message_or error "Failed to list runs") 500
  | inr tasks =>
      let filteredTasks :=
        match threadId with
        | Some t =>
            if JS.truthy_string t
            then filter (fun task => String.eqb (contextId task) t) tasks
            else tasks
        | None => tasks
        end in
      RunsListed (map run_of_task filteredTasks)
  end.

End Runs.

(* ================================================================= *)
(** * Definitions for the properties *)

(** ** Views of the stream *)

(** The terminal events of a run: [RUN_FINISHED] and [RUN_ERROR]. *)
Definition is_terminal_event (e : AGUIEvent) : bool :=
  match event_type e with
  | RUN_FINISHED | RUN_ERROR => true
  | _ => false
  end.

(** The state a [STATE_DELTA] event announces. *)
Definition delta_state (e : AGUIEvent) : option BinduTaskState :=
  match event_type e, payload e with
  | STATE_DELTA, DeltaPayload s => Some s
  | _, _ => None
  end.

(** The states announced on a stream, in order. *)
Definition deltas (l : list AGUIEvent) : list BinduTaskState :=
  flat_map (fun e => match delta_state e with Some s => [s] | None => [] end) l.

(** An event carries the identifiers of a run. *)
Definition stamped (threadId taskId : string) (e : AGUIEvent) : Prop :=
  thread_id (base_of e) = threadId /\ run_id (base_of e) = taskId.

(** What a reader of the stream is told by an event: its type and the
    fields of its variant. *)
Definition told (e : AGUIEvent) : EventType * Payload :=
  (event_type e, payload e).

(** ** Reasoning about the monad *)

(** A computation [c] run from a world satisfying [P] ends in a world
    satisfying [N a] when it returns [a], [T e] when it throws [e], and
    [F] when the model stops following it. *)
Definition hoare {A} (P : World -> Prop) (c : M A)
    (N : A -> World -> Prop) (T : Thrown -> World -> Prop)
    (F : World -> Prop) : Prop :=
  forall w, P w ->
    match c w with
    | (Normal a, w') => N a w'
    | (Throw e, w') => T e w'
    | (OutOfFuel, w') => F w'
    end.

(** [inv I c]: [c] keeps [I], however it ends. *)
Definition inv {A} (I : World -> Prop) (c : M A) : Prop :=
  hoare I c (fun _ => I) (fun _ => I) I.

(** ** Building an event and emitting it *)

(** All the handler's emissions are [sse.emit(events.<method>(...))].
    [built] is what every method of the builder comes to. *)
Definition built (env : Env) (events : AGUIEventBuilder) (t : EventType)
    (pl : Payload) : M AGUIEvent :=
  b <- base env events t ;; ret (mkEvent b pl).

(** The world after a call of [Date.now]. *)
Definition ticked (w : World) : World :=
  mkWorld (delivered w) (writer w) (uuids w) (S (ticks w))
          (sent w) (queried w) (slept w) (journal w).

(** The event a builder makes for type [t] and fields [pl] in world [w]. *)
Definition event_at (env : Env) (events : AGUIEventBuilder) (w : World)
    (t : EventType) (pl : Payload) : AGUIEvent :=
  mkEvent (mkBase t (now env (ticks w)) (threadId events) (runId events)) pl.

(** Every event written so far carries the identifiers of [run]. *)
Definition all_stamped (run : Run) (w : World) : Prop :=
  Forall (stamped (run_threadId run) (run_taskId run)) (delivered w).

(** ** Concrete scenarios *)

(** The defaults of [config.ts]. *)
Definition default_config : BridgeConfig :=
  mkConfig "http://localhost:3773"
           (JS.Finite false 8080 1) (JS.Finite false 500 1)
           (JS.Finite false 30000 1) (JS.Finite false 120 1).

Definition working_task : BinduTask :=
  mkTask "run-1" "t1" "working" "2024-12-23T15:30:00Z" None.

Definition hello_task : BinduTask :=
  mkTask "run-1" "t1" "completed" "2024-12-23T15:30:01Z"
         (Some [mkArtifact "artifact-1" [mkPart KindText (Some "hello")]]).

(** A remote agent that accepts the message, is working at the first
    poll and has completed with the text "hello" at the second; a
    consumer that stays; a clock that counts. *)
Definition hello_env : Env :=
  mkEnv (fun k => match k with
                  | 0 => "uuid-0" | 1 => "uuid-1" | 2 => "uuid-2"
                  | _ => "uuid-n"
                  end)
        (fun k => (1703353200000 + Z.of_nat k)%Z)
        (fun _ => inr (mkTask "run-1" "t1" "submitted" "2024-12-23T15:29:59Z" None))
        (fun k _ => match k with 0 => inr working_task | _ => inr hello_task end)
        None
        (ErrorObject "The stream is not in a state that permits write")
        (ErrorObject "The stream is not in a state that permits close").

(** The same, with a consumer that is gone before the first chunk. *)
Definition gone_env : Env :=
  mkEnv (randomUUID hello_env) (now hello_env) (sendMessage hello_env)
        (getTask hello_env) (Some 0) (writeError hello_env)
        (closeError hello_env).

(** [{thread_id: "t1", messages: [{role: "user", content: "hi"}]}] *)
Definition hi_request : AGUIRunRequest :=
  mkRequest (Some "t1") None (Some [mkMessage user "hi"]) None.

(** [{thread_id: "t1", messages: [{role: "assistant", content: "hi"}]}] *)
Definition assistant_only_request : AGUIRunRequest :=
  mkRequest (Some "t1") None (Some [mkMessage assistant "hi"]) None.

(** [{..., config: {timeout_ms: 0}}] *)
Definition zero_timeout_request : AGUIRunRequest :=
  mkRequest (Some "t1") None (Some [mkMessage user "hi"])
            (Some (mkRunConfig None (Some (JS.Finite false 0 1)))).

(** [{..., config: {polling_interval_ms: 1e999, timeout_ms: 1e999}}]:
    [JSON.parse] reads a literal beyond the double range as [Infinity]. *)
Definition infinite_config_request : AGUIRunRequest :=
  mkRequest (Some "t1") None (Some [mkMessage user "hi"])
            (Some (mkRunConfig (Some (JS.Infinity false))
                               (Some (JS.Infinity false)))).

(** The outcome of the "hello" scenario, evaluated. *)
Definition hello_run : Run :=
  Eval vm_compute in
    match handleAGUIRun hello_env default_config 2 (Some hi_request) with
    | Streamed run _ _ => run
    | Rejected _ _ => mkRun "" "" "" JS.NaN JS.NaN
    end.

Definition hello_final : World :=
  Eval vm_compute in
    match handleAGUIRun hello_env default_config 2 (Some hi_request) with
    | Streamed _ _ final => final
    | Rejected _ _ => fresh
    end.

(** ** Artifact expansion, as the specification words it *)

(** All the parts of a task's artifacts, in artifact order. *)
Definition all_parts (task : BinduTask) : list BinduArtifactPart :=
  match artifacts task with
  | Some arts => flat_map parts arts
  | None => []
  end.

(** What the parts contribute to the stream, in the specification's
    words: a part
    of kind [text] with a non-empty text gives a start/content/end triple
    under one fresh message id and role [assistant]; any other part
    gives nothing.  [k] is the number of UUIDs drawn before. *)
Fixpoint expected_messages (env : Env) (k : nat)
    (ps : list BinduArtifactPart) : list (EventType * Payload) :=
  match ps with
  | [] => []
  | p :: ps' =>
      match kind p, text p with
      | KindText, Some (String c s) =>
          let id := randomUUID env k in
          [(TEXT_MESSAGE_START, MessageStartPayload id "assistant");
           (TEXT_MESSAGE_CONTENT, MessageContentPayload id (String c s));
           (TEXT_MESSAGE_END, MessageEndPayload id)]
          ++ expected_messages env (S k) ps'
      | _, _ => expected_messages env k ps'
      end
  end.

(** A part that is not of kind [text], or has no text, or the empty
    text. *)
Definition textless (p : BinduArtifactPart) : Prop :=
  kind p <> KindText \/ text p = None \/ text p = Some "".

(** A completed task whose artifacts mix the kinds of parts. *)
Definition mixed_task : BinduTask :=
  mkTask "run-1" "t1" "completed" "2024-12-23T15:30:01Z"
         (Some [mkArtifact "artifact-1"
                  [mkPart KindText (Some "a"); mkPart KindText (Some "");
                   mkPart KindFile (Some "f")];
                mkArtifact "artifact-2" [];
                mkArtifact "artifact-3"
                  [mkPart KindText None; mkPart KindData None;
                   mkPart KindText (Some "b")]]).

(** ** State deltas, as the specification words them *)

(** The states reported by polls [n], ..., [n + k - 1] of [taskId]; a
    poll that fails reports none. *)
Definition polled_from (env : Env) (taskId : string) (n k : nat)
    : list BinduTaskState :=
  flat_map (fun i => match getTask env i taskId with
                     | inr t => [status_state t]
                     | inl _ => []
                     end)
           (seq n k).

(** In the specification's words: of a sequence of polled states, those that
    differ from the last-observed state, which starts as [last]. *)
Fixpoint changes (last : BinduTaskState) (states : list BinduTaskState)
    : list BinduTaskState :=
  match states with
  | [] => []
  | s :: rest =>
      if String.eqb s last then changes last rest else s :: changes s rest
  end.

Definition prefix {A} (l1 l2 : list A) : Prop := exists l3, l2 = l1 ++ l3.

(** No element equals the one before it; [last] stands before the
    first. *)
Fixpoint no_repeat (last : BinduTaskState) (l : list BinduTaskState) : Prop :=
  match l with
  | [] => True
  | s :: rest => s <> last /\ no_repeat s rest
  end.

(** A terminal state is announced, if at all, by the last delta. *)
Definition terminal_only_last (ds : list BinduTaskState) : Prop :=
  forall l1 s l2, ds = l1 ++ s :: l2 -> l2 <> [] ->
                  includes TERMINAL_STATES s = false.

(** A poll that reports a terminal state is the last of the [k] polls
    made from poll [n] on. *)
Definition stops_at_terminal (env : Env) (taskId : string) (n k : nat) : Prop :=
  forall i t, i < k -> getTask env (n + i) taskId = inr t ->
              includes TERMINAL_STATES (status_state t) = true -> k = S i.

(** What polling shows of a world: the number of polls made and the
    states announced. *)
Definition obs (w : World) : nat * list BinduTaskState :=
  (List.length (queried w), deltas (delivered w)).

(** From [before] to [after], polling has gone on as specified,
    [last] being the last-observed state at [before]. *)
Definition polling_advanced (env : Env) (taskId : string)
    (last : BinduTaskState) (before after : nat * list BinduTaskState) : Prop :=
  exists k ds,
    fst after = fst before + k /\
    snd after = snd before ++ ds /\
    prefix ds (changes last (polled_from env taskId (fst before) k)) /\
    stops_at_terminal env taskId (fst before) k /\
    terminal_only_last ds.

(** [c] neither polls nor announces a state. *)
Definition quiet {A} (c : M A) : Prop :=
  forall P : nat * list BinduTaskState -> Prop, inv (fun w => P (obs w)) c.

(** ** The end of a stream *)

(** No terminal event on the stream. *)
Definition no_terminal (l : list AGUIEvent) : Prop :=
  Forall (fun e => is_terminal_event e = false) l.

(** Exactly one terminal event on the stream, and it is the last event. *)
Definition one_terminal_last (l : list AGUIEvent) : Prop :=
  exists pre t,
    l = pre ++ [t] /\ is_terminal_event t = true /\ no_terminal pre.

(** [c] is followed to its end by the model, whatever the fuel. *)
Definition total {A} (c : M A) : Prop :=
  forall w, fst (c w) <> OutOfFuel.


(** The stream is writable and holds no terminal event. *)
Definition open_without_terminal (w : World) : Prop :=
  writer w = Writable /\ no_terminal (delivered w).

(** The stream is writable and ends with its one terminal event. *)
Definition open_with_terminal (w : World) : Prop :=
  writer w = Writable /\ one_terminal_last (delivered w).

(** How the loop is left when the consumer stays: by its condition, with
    nothing terminal sent and the last state not terminal; or by
    [break], with the terminal event sent last and the condition still
    true. *)
Definition left_loop (run : Run) (left : BinduTaskState * nat) (w : World)
    : Prop :=
  (JS.lt (JS.of_nat (snd left)) (run_maxPollAttempts run) = false /\
   includes TERMINAL_STATES (fst left) = false /\
   open_without_terminal w) \/
  (JS.lt (JS.of_nat (snd left)) (run_maxPollAttempts run) = true /\
   open_with_terminal w).

(** ** Calls, timestamps and the first event *)

(** The texts submitted for a request: the contents of its messages of
    role [user], in order. *)
Definition user_texts (messages : list AGUIMessage) : list TextPart :=
  map (fun m => mkTextPart (content m))
      (filter (fun m => Role_eqb (role m) user) messages).

(** The one [message/send] a run makes. *)
Definition submission (messages : list AGUIMessage) (run : Run)
    : SendMessageParams :=
  mkSend (user_texts messages) (run_messageId run) (run_threadId run)
         (run_taskId run).

(** The calls of [n] turns of the poll loop: a sleep of the run's poll
    interval and then a poll for the run's task, [n] times over. *)
Definition turns (run : Run) (n : nat) : list Call :=
  List.concat (repeat [SleepCall (run_pollIntervalMs run);
                  GetTaskCall (run_taskId run)] n).

(** The calls of a world: the three logs and the journal. *)
Definition polls (w : World)
    : list SendMessageParams * list string * list JS.number * list Call :=
  (sent w, queried w, slept w, journal w).

(** [n] polls have been made, all for the run's task, each right after
    one sleep of the run's interval, all after the submits, and each
    within the attempt budget. *)
Definition polled_times (run : Run) (n : nat)
    (c : list SendMessageParams * list string * list JS.number * list Call)
    : Prop :=
  snd (fst (fst c)) = repeat (run_taskId run) n /\
  snd (fst c) = repeat (run_pollIntervalMs run) n /\
  snd c = map SendCall (fst (fst (fst c))) ++ turns run n /\
  forall i, i < n -> JS.lt (JS.of_nat i) (run_maxPollAttempts run) = true.

(** The timestamps on a stream, in order. *)
Definition timestamps (l : list AGUIEvent) : list Z :=
  map (fun e => timestamp (base_of e)) l.

(** The stream's timestamps are in order and none is later than the
    clock's next reading. *)
Definition clocked (env : Env) (w : World) : Prop :=
  StronglySorted Z.le (timestamps (delivered w)) /\
  Forall (fun x => (x <= now env (ticks w))%Z) (timestamps (delivered w)).

(** [RUN_STARTED] stands nowhere but at the head of the stream. *)
Definition started_first (l : list AGUIEvent) : Prop :=
  Forall (fun e => event_type e <> RUN_STARTED) (tl l).

(** ** How a run reports its end *)

(** [RUN_STARTED] is at the head of the stream, or nowhere; and it is
    there only when the submit has succeeded. *)
Definition started_after_submit (env : Env) (run : Run)
    (messages : list AGUIMessage) (w : World) : Prop :=
  started_first (delivered w) /\
  (forall e rest, delivered w = e :: rest -> event_type e = RUN_STARTED ->
     exists t, sendMessage env (submission messages run) = inr t).

(** The stream begins with [RUN_STARTED]. *)
Definition first_is_started (l : list AGUIEvent) : Prop :=
  exists e rest, l = e :: rest /\ told e = (RUN_STARTED, NoPayload).

(** The stream ends with an event that tells [x], and no terminal event
    comes before it. *)
Definition ends_with (x : EventType * Payload) (l : list AGUIEvent) : Prop :=
  exists pre t, l = pre ++ [t] /\ told t = x /\ no_terminal pre.

(** What is reported for a terminal state. *)
Definition terminal_report (s : BinduTaskState) : EventType * Payload :=
  if String.eqb s "completed" then (RUN_FINISHED, NoPayload)
  else if String.eqb s "failed" then (RUN_ERROR, ErrorPayload "Task failed" None)
  else (RUN_ERROR, ErrorPayload "Task canceled" (Some (-32000)%Z)).

(** Polling is under way: the stream is writable, begins with
    [RUN_STARTED] and holds no terminal event; [q] polls have been made. *)
Definition polling (q : nat) (w : World) : Prop :=
  open_without_terminal w /\ List.length (queried w) = q /\
  first_is_started (delivered w).

(** The run has reported its end by [x], after [q] polls. *)
Definition reported (x : EventType * Payload) (q : nat) (w : World) : Prop :=
  writer w = Writable /\ ends_with x (delivered w) /\
  List.length (queried w) = q /\ first_is_started (delivered w).

(** The statement after the loop. *)
Definition after_loop (env : Env) (run : Run) (left : BinduTaskState * nat)
    : M unit :=
  let '(lastState, pollCount) := left in
  if JS.ge (JS.of_nat pollCount) (run_maxPollAttempts run)
     && negb (includes TERMINAL_STATES lastState)
  then (ev <- runError env (events run) "Polling timeout" None ;; emit env ev)
  else ret tt.

(** The first [n] polls of [taskId] all answer with a state that is not
    terminal. *)
Definition still_running (env : Env) (taskId : string) (n : nat) : Prop :=
  forall i, i < n ->
    exists t, getTask env i taskId = inr t /\
              includes TERMINAL_STATES (status_state t) = false.

(** The attempt budget allows poll number [n] (counted from 0) and all
    before it. *)
Definition within_budget (run : Run) (n : nat) : Prop :=
  forall i, i <= n -> JS.lt (JS.of_nat i) (run_maxPollAttempts run) = true.

(** ** More scenarios *)

(** The run and the final world of an outcome. *)
Definition outcome_run (o : Outcome) : Run :=
  match o with
  | Streamed run _ _ => run
  | Rejected _ _ => mkRun "" "" "" JS.NaN JS.NaN
  end.

Definition outcome_world (o : Outcome) : World :=
  match o with
  | Streamed _ _ final => final
  | Rejected _ _ => fresh
  end.

(** A remote agent that refuses the message. *)
Definition refusing_env : Env :=
  mkEnv (randomUUID hello_env) (now hello_env)
        (fun _ => inl (ErrorObject "HTTP error: 503 Service Unavailable"))
        (getTask hello_env) None (writeError hello_env)
        (closeError hello_env).

(** A remote agent that is working at every poll. *)
Definition working_env : Env :=
  mkEnv (randomUUID hello_env) (now hello_env) (sendMessage hello_env)
        (fun _ _ => inr working_task) None (writeError hello_env)
        (closeError hello_env).

(** A remote agent that is working at the first poll and unreachable at
    the second. *)
Definition unreachable_env : Env :=
  mkEnv (randomUUID hello_env) (now hello_env) (sendMessage hello_env)
        (fun k _ => match k with
                    | 0 => inr working_task
                    | _ => inl (ErrorObject "Request timeout")
                    end)
        None (writeError hello_env) (closeError hello_env).

(** [MAX_POLL_ATTEMPTS=2] *)
Definition two_attempts_config : BridgeConfig :=
  mkConfig "http://localhost:3773"
           (JS.Finite false 8080 1) (JS.Finite false 500 1)
           (JS.Finite false 30000 1) (JS.Finite false 2 1).

Definition refused_run : Run :=
  Eval vm_compute in
    outcome_run (handleAGUIRun refusing_env default_config 0 (Some hi_request)).
Definition refused_final : World :=
  Eval vm_compute in
    outcome_world
      (handleAGUIRun refusing_env default_config 0 (Some hi_request)).

Definition timeout_run : Run :=
  Eval vm_compute in
    outcome_run
      (handleAGUIRun working_env two_attempts_config 2 (Some hi_request)).
Definition timeout_final : World :=
  Eval vm_compute in
    outcome_world
      (handleAGUIRun working_env two_attempts_config 2 (Some hi_request)).

Definition unreachable_run : Run :=
  Eval vm_compute in
    outcome_run
      (handleAGUIRun unreachable_env default_config 2 (Some hi_request)).
Definition unreachable_final : World :=
  Eval vm_compute in
    outcome_world
      (handleAGUIRun unreachable_env default_config 2 (Some hi_request)).

(** ** The text of a frame *)

(** How often the code unit [c] occurs in [s]. *)
Fixpoint occurrences (c : ascii) (s : string) : nat :=
  match s with
  | EmptyString => 0
  | String x rest => (if Ascii.eqb x c then 1 else 0) + occurrences c rest
  end.

(** No code unit of [s] is below 0x20. *)
Fixpoint printable (s : string) : bool :=
  match s with
  | EmptyString => true
  | String x rest => (32 <=? N_of_ascii x)%N && printable rest
  end.

(** An error event whose message holds a line break. *)
Definition two_line_error : AGUIEvent :=
  mkEvent (mkBase RUN_ERROR 1703353200000 "t1" "run-1")
          (ErrorPayload (String "a" (String LF (String "b" EmptyString)))
                        None).

(** ** The configuration and the other routes *)

(** The decimal numeral of [n], as [String(n)] writes it. *)
Definition decimal (n : nat) : string :=
  NilZero.string_of_uint (Nat.to_uint n).

(** [s] does not begin with a decimal digit. *)
Definition no_digit_ahead (s : string) : bool :=
  match s with
  | String c _ =>
      match digit_value c with Some _ => false | None => true end
  | EmptyString => true
  end.

(** 2^53: up to it every integer is a number of JavaScript. *)
Definition max_safe_integer : N := 9007199254740992.

Definition is_infinite (x : JS.number) : bool :=
  match x with JS.Infinity _ => true | _ => false end.

(** What a [catch] of the handler sees of a rejection of the client:
    a [BinduRPCError] is an [Error] with its message. *)
Definition thrown_of (e : Raised) : Thrown :=
  match e with
  | RaisedRPC _ message => ErrorObject message
  | RaisedError _ message => ErrorObject message
  | RaisedOther => NotAnError
  end.

(** [PORT=9090 POLL_INTERVAL_MS=250ms MAX_POLL_ATTEMPTS=many] *)
Definition sample_process_env (key : string) : option string :=
  if String.eqb key "PORT" then Some "9090"
  else if String.eqb key "POLL_INTERVAL_MS" then Some "250ms"
  else if String.eqb key "MAX_POLL_ATTEMPTS" then Some "many"
  else None.

(** A remote agent behind a gateway that answers 503. *)
Definition unavailable_fetch (request : RpcRequest) : Fetched BinduTask :=
  FetchResolves
    (mkHttpResponse false 503 "Service Unavailable"
                    (BodyRejects (RaisedError "SyntaxError" "Unexpected token"))).

(** Two tasks of thread "t1" around one of thread "t2". *)
Definition sample_tasks : list BinduTask :=
  [ mkTask "run-1" "t1" "completed" "2024-12-23T15:30:01Z" None;
    mkTask "run-2" "t2" "working" "2024-12-23T15:31:00Z" None;
    mkTask "run-3" "t1" "input-required" "2024-12-23T15:32:00Z" None ].

(** [GET /agui/runs?thread_id=t1] *)
Definition t1_query (name : string) : option string :=
  if String.eqb name "thread_id" then Some "t1" else None.

(** The outcome of the request with an infinite polling configuration. *)
Definition infinite_run : Run :=
  Eval vm_compute in
    outcome_run
      (handleAGUIRun hello_env default_config 2 (Some infinite_config_request)).
Definition infinite_final : World :=
  Eval vm_compute in
    outcome_world
      (handleAGUIRun hello_env default_config 2 (Some infinite_config_request)).

(** The "hello" scenario under the sample environment. *)
Definition sample_run : Run :=
  Eval vm_compute in
    outcome_run
      (handleAGUIRun hello_env (config sample_process_env) 2 (Some hi_request)).
Definition sample_final : World :=
  Eval vm_compute in
    outcome_world
      (handleAGUIRun hello_env (config sample_process_env) 2 (Some hi_request)).

(** A client whose [tasks/list] answers with the sample tasks. *)
Definition sample_listTasks (limit : JS.number) : Thrown + list BinduTask :=
  inr sample_tasks.

(** A remote agent that answers every request with the "hello" task. *)
Definition answering_fetch (request : RpcRequest) : Fetched BinduTask :=
  FetchResolves
    (mkHttpResponse true 200 "OK"
                    (BodyParsed (mkRpcResponse None (Some hello_task)))).

(** The binary64 value nearest to 0.6, a little below it: what
    [JSON.parse] makes of [0.6]. *)
Definition six_tenths : JS.number :=
  JS.Finite false 5404319552844595 9007199254740992.

(** [{thread_id: "t1", messages: [{role: "user", content: "hi"}],
      config: {polling_interval_ms: 0.6, timeout_ms: 3}}] *)
Definition fractional_config_request : AGUIRunRequest :=
  mkRequest (Some "t1") None (Some [mkMessage user "hi"])
            (Some (mkRunConfig (Some six_tenths) (Some (JS.Finite false 3 1)))).

Definition fractional_run : Run :=
  Eval vm_compute in
    outcome_run
      (handleAGUIRun hello_env default_config 2
                     (Some fractional_config_request)).
Definition fractional_final : World :=
  Eval vm_compute in
    outcome_world
      (handleAGUIRun hello_env default_config 2
                     (Some fractional_config_request)).

(** [{..., config: {polling_interval_ms: 300, timeout_ms: 1000}}] *)
Definition whole_config_request : AGUIRunRequest :=
  mkRequest (Some "t1") None (Some [mkMessage user "hi"])
            (Some (mkRunConfig (Some (JS.Finite false 300 1))
                               (Some (JS.Finite false 1000 1)))).

Definition whole_run : Run :=
  Eval vm_compute in
    outcome_run
      (handleAGUIRun hello_env default_config 2 (Some whole_config_request)).
Definition whole_final : World :=
  Eval vm_compute in
    outcome_world
      (handleAGUIRun hello_env default_config 2 (Some whole_config_request)).

(* ================================================================= *)
(** * Lemmas *)

(** ** JavaScript numbers: the two comparisons of the loop *)

Lemma JS_lt_not_ge (x y : JS.number) :
  JS.lt x y = true -> JS.ge x y = false.
Proof.
  unfold JS.lt, JS.ge.
  destruct (JS.compare x y) as [[ | | ]|]; congruence.
Qed.

Lemma JS_not_lt_ge (x y : JS.number) :
  JS.is_nan x = false -> JS.is_nan y = false ->
  JS.lt x y = false -> JS.ge x y = true.
Proof.
  unfold JS.lt, JS.ge.
  destruct x, y; simpl; try congruence;
    repeat match goal with b : bool |- _ => destruct b end; simpl; try congruence;
    match goal with |- context [Z.compare ?a ?b] => destruct (Z.compare a b) end;
    congruence.
Qed.

Lemma JS_lt_of_nat_mono (a b : nat) (y : JS.number) :
  a <= b -> JS.lt (JS.of_nat b) y = true -> JS.lt (JS.of_nat a) y = true.
Proof.
  intros Hab. unfold JS.lt, JS.of_nat.
  destruct y as [ | s | s n d]; simpl; auto.
  destruct (Z.compare_spec (Z.of_N (N.of_nat b) * Z.pos d) (JS.signed s n * 1));
    try discriminate.
  intros _.
  destruct (Z.compare_spec (Z.of_N (N.of_nat a) * Z.pos d) (JS.signed s n * 1));
    auto; exfalso; nia.
Qed.

(** The loop condition fails for some count when the bound is finite. *)
Lemma JS_lt_of_nat_bounded (s : bool) (n : N) (d : positive) :
  JS.lt (JS.of_nat (N.to_nat n)) (JS.Finite s n d) = false.
Proof.
  unfold JS.lt, JS.of_nat. simpl. rewrite N2Nat.id.
  destruct (Z.compare_spec (Z.of_N n * Z.pos d) (JS.signed s n * 1)); auto.
  exfalso. unfold JS.signed in *. destruct s; nia.
Qed.

(** ** Strings *)

Lemma includes_terminal_cases (s : string) :
  includes TERMINAL_STATES s = true ->
  s = "completed" \/ s = "canceled" \/ s = "failed".
Proof.
  unfold includes, TERMINAL_STATES. simpl.
  destruct (String.eqb_spec s "completed"); auto.
  destruct (String.eqb_spec s "canceled"); auto.
  destruct (String.eqb_spec s "failed"); auto.
  discriminate.
Qed.

(** ** The monad *)


Lemma hoare_ret {A} (a : A) (P : World -> Prop) N T F :
  (forall w, P w -> N a w) -> hoare P (ret a) N T F.
Proof. intros H w Hw. simpl. auto. Qed.

Lemma hoare_bind {A B} (c : M A) (k : A -> M B) P N1 N T F :
  hoare P c N1 T F ->
  (forall a, hoare (N1 a) (k a) N T F) ->
  hoare P (bind c k) N T F.
Proof.
  intros Hc Hk w Hw. unfold bind. specialize (Hc w Hw).
  destruct (c w) as [[a| e | ] w']; auto.
  apply Hk; assumption.
Qed.

Lemma hoare_catch {A} (c : M A) (h : Thrown -> M A) P N T1 T F :
  hoare P c N T1 F ->
  (forall e, hoare (T1 e) (h e) N T F) ->
  hoare P (try_catch c h) N T F.
Proof.
  intros Hc Hh w Hw. unfold try_catch. specialize (Hc w Hw).
  destruct (c w) as [[a| e | ] w']; auto.
  apply Hh; assumption.
Qed.

Lemma hoare_finally {A} (c : M A) (f : M unit) P N1 T1 N T F :
  hoare P c N1 T1 F ->
  (forall a, hoare (N1 a) f (fun _ => N a) T F) ->
  (forall e, hoare (T1 e) f (fun _ => T e) T F) ->
  hoare P (try_finally c f) N T F.
Proof.
  intros Hc Hn Ht w Hw. unfold try_finally. specialize (Hc w Hw).
  destruct (c w) as [[a| e | ] w']; auto.
  - specialize (Hn a w' Hc). destruct (f w') as [[[]| e | ] w'']; auto.
  - specialize (Ht e w' Hc). destruct (f w') as [[[]| e' | ] w'']; auto.
Qed.

Lemma hoare_conseq {A} (c : M A) (P P' : World -> Prop)
    (N N' : A -> World -> Prop) (T T' : Thrown -> World -> Prop)
    (F F' : World -> Prop) :
  hoare P' c N' T' F' ->
  (forall w, P w -> P' w) ->
  (forall a w, N' a w -> N a w) ->
  (forall e w, T' e w -> T e w) ->
  (forall w, F' w -> F w) ->
  hoare P c N T F.
Proof.
  intros H HP HN HT HF w Hw. specialize (H w (HP w Hw)).
  destruct (c w) as [[a| e | ] w']; auto.
Qed.


Lemma inv_ret {A} (a : A) I : inv I (ret a).
Proof. apply hoare_ret; auto. Qed.

Lemma inv_bind {A B} (c : M A) (k : A -> M B) I :
  inv I c -> (forall a, inv I (k a)) -> inv I (bind c k).
Proof. intros Hc Hk. eapply hoare_bind; [exact Hc | exact Hk]. Qed.

Lemma inv_catch {A} (c : M A) (h : Thrown -> M A) I :
  inv I c -> (forall e, inv I (h e)) -> inv I (try_catch c h).
Proof. intros Hc Hh. eapply hoare_catch; [exact Hc | exact Hh]. Qed.

Lemma inv_finally {A} (c : M A) (f : M unit) I :
  inv I c -> inv I f -> inv I (try_finally c f).
Proof.
  intros Hc Hf. eapply hoare_finally; [exact Hc | |]; intros; exact Hf.
Qed.

Lemma inv_for_of {A} (l : list A) (body : A -> M unit) I :
  (forall x, inv I (body x)) -> inv I (for_of l body).
Proof.
  intros Hb. induction l as [|x l IH]; simpl.
  - apply inv_ret.
  - apply inv_bind; auto.
Qed.

Lemma inv_final {A} (c : M A) (I : World -> Prop) (w : World) :
  inv I c -> I w -> I (snd (c w)).
Proof.
  intros H Hw. specialize (H w Hw). destruct (c w) as [[a| e | ] w']; auto.
Qed.

(** The three ways [sse.emit(events.<method>(...))] can go. *)
Lemma hoare_emit_built (env : Env) (events : AGUIEventBuilder)
    (t : EventType) (pl : Payload) (P : World -> Prop) N T F :
  (forall w, P w -> writer w = Writable ->
     accepts env (List.length (delivered w)) = true ->
     N tt (mkWorld (delivered w ++ [event_at env events w t pl]) Writable
                   (uuids w) (S (ticks w))
                   (sent w) (queried w) (slept w) (journal w))) ->
  (forall w, P w -> writer w = Writable ->
     accepts env (List.length (delivered w)) = false ->
     T (writeError env)
       (mkWorld (delivered w) Errored (uuids w) (S (ticks w))
                (sent w) (queried w) (slept w) (journal w))) ->
  (forall w, P w -> writer w <> Writable -> T (writeError env) (ticked w)) ->
  hoare P (ev <- built env events t pl ;; emit env ev) N T F.
Proof.
  intros HN HE HC w Hw.
  unfold bind, built, base, bind, Date_now, ret, emit, writer_write. simpl.
  destruct (writer w) eqn:Ew.
  - destruct (accepts env (List.length (delivered w))) eqn:Ea.
    + apply HN; auto.
    + apply HE; auto.
  - pose proof (HC w Hw) as H. unfold ticked in H. rewrite Ew in H.
    apply H. discriminate.
  - pose proof (HC w Hw) as H. unfold ticked in H. rewrite Ew in H.
    apply H. discriminate.
Qed.

(** ** C7: every event carries the identifiers of its run *)

Section Stamping.

Variable env : Env.
Variable run : Run.


Lemma stamped_emit_built (t : EventType) (pl : Payload) :
    inv (all_stamped run) (ev <- built env (events run) t pl ;; emit env ev).
  Proof.
    apply hoare_emit_built; unfold all_stamped; simpl; intros w H _; auto.
    intros _. apply Forall_app. split; auto.
    constructor; [|constructor]. split; reflexivity.
  Qed.

Lemma stamped_sleep (ms : JS.number) : inv (all_stamped run) (sleep ms).
  Proof. intros w H. exact H. Qed.

Lemma stamped_uuid : inv (all_stamped run) (crypto_randomUUID env).
  Proof. intros w H. exact H. Qed.

Lemma stamped_sendMessage (p : SendMessageParams) :
    inv (all_stamped run) (binduClient_sendMessage env p).
  Proof.
    intros w H. unfold binduClient_sendMessage.
    destruct (sendMessage env p); exact H.
  Qed.

Lemma stamped_getTask (taskId : string) :
    inv (all_stamped run) (binduClient_getTask env taskId).
  Proof.
    intros w H. unfold binduClient_getTask.
    destruct (getTask env (List.length (queried w)) taskId); exact H.
  Qed.

Lemma stamped_close : inv (all_stamped run) (close env).
  Proof.
    intros w H. unfold close, writer_close. destruct (writer w); exact H.
  Qed.

Lemma stamped_emitArtifacts (task : BinduTask) :
    inv (all_stamped run) (emitArtifactsAsMessages env (events run) task).
  Proof.
    unfold emitArtifactsAsMessages.
    destruct (artifacts task) as [[|a arts]|]; try apply inv_ret.
    apply inv_for_of. intros artifact. apply inv_for_of. intros part.
    unfold emitPart. destruct (text_bearing part); [|apply inv_ret].
    apply inv_bind; [apply stamped_uuid|]. intros msgId.
    repeat (apply inv_bind; [apply stamped_emit_built|]; intros _).
    apply stamped_emit_built.
  Qed.

Lemma stamped_onTerminal (s : BinduTaskState) (task : BinduTask) :
    inv (all_stamped run) (onTerminal env run s task).
  Proof.
    unfold onTerminal.
    destruct (String.eqb s "completed").
    { apply inv_bind; [apply stamped_emitArtifacts|]. intros _.
      apply stamped_emit_built. }
    destruct (String.eqb s "failed"); [apply stamped_emit_built|].
    destruct (String.eqb s "canceled"); [apply stamped_emit_built|].
    apply inv_ret.
  Qed.

Lemma stamped_pollLoop (fuel : nat) :
    forall lastState pollCount,
      inv (all_stamped run) (pollLoop env run fuel lastState pollCount).
  Proof.
    induction fuel as [|fuel IH]; intros lastState pollCount; cbn [pollLoop];
      destruct (JS.lt (JS.of_nat pollCount) (run_maxPollAttempts run));
      try apply inv_ret.
    - intros w H. exact H.
    - apply inv_bind; [apply stamped_sleep|]. intros _.
      apply inv_bind.
      + apply inv_catch.
        * apply inv_bind; [apply stamped_getTask|]. intros t. apply inv_ret.
        * intros e. apply inv_bind; [apply stamped_emit_built|].
          intros _. apply inv_ret.
      + intros [currentTask|]; [|apply inv_ret].
        apply inv_bind.
        * destruct (negb (status_state currentTask =? lastState)%string);
            [|apply inv_ret].
          apply inv_bind; [apply stamped_emit_built|]. intros _. apply inv_ret.
        * intros lastState'.
          destruct (includes TERMINAL_STATES (status_state currentTask)).
          -- apply inv_bind; [apply stamped_onTerminal|]. intros _.
             apply inv_ret.
          -- apply IH.
  Qed.

Lemma stamped_background (messages : list AGUIMessage) (fuel : nat) :
    inv (all_stamped run) (background env messages run fuel).
  Proof.
    unfold background. apply inv_finally.
    - apply inv_catch.
      + unfold tryBlock.
        destruct (List.length (filter (fun m => Role_eqb (role m) user) messages)
                  =? 0)%nat.
        * apply stamped_emit_built.
        * apply inv_bind; [apply stamped_sendMessage|]. intros _.
          apply inv_bind; [apply stamped_emit_built|]. intros _.
          apply inv_bind; [apply stamped_pollLoop|]. intros [lastState pollCount].
          destruct (JS.ge (JS.of_nat pollCount) (run_maxPollAttempts run)
                    && negb (includes TERMINAL_STATES lastState));
            [apply stamped_emit_built | apply inv_ret].
      + intros e. apply inv_catch; [apply stamped_emit_built|].
        intros _. apply inv_ret.
    - apply inv_catch; [apply stamped_close|]. intros _. apply inv_ret.
  Qed.

End Stamping.

(** The handler from an accepted request to its outcome, unfolded. *)
Lemma handleAGUIRun_streamed (env : Env) (config : BridgeConfig) (fuel : nat)
    (body : AGUIRunRequest) (run : Run) (bg : Completion unit)
    (final : World) :
  handleAGUIRun env config fuel (Some body) = Streamed run bg final ->
  exists threadId messages w2,
    body_thread_id body = Some threadId /\ threadId <> "" /\
    body_messages body = Some messages /\ messages <> [] /\
    run_threadId run = threadId /\
    run_taskId run = fst (resolve_taskId env body fresh) /\
    w2 = snd (uuid_next env (snd (resolve_taskId env body fresh))) /\
    run_messageId run = fst (uuid_next env (snd (resolve_taskId env body fresh))) /\
    run_pollIntervalMs run = resolve_pollIntervalMs config body /\
    run_maxPollAttempts run =
      resolve_maxPollAttempts config body (resolve_pollIntervalMs config body) /\
    background env messages run fuel w2 = (bg, final) /\
    delivered w2 = [] /\ writer w2 = Writable /\ sent w2 = [] /\ queried w2 = [].
Proof.
  unfold handleAGUIRun.
  destruct (body_thread_id body) as [threadId|]; cbn [nullish]; [|discriminate].
  destruct threadId as [|c threadId]; cbn [JS.truthy_string negb]; [discriminate|].
  destruct (body_messages body) as [[|m messages]|]; try discriminate.
  assert (Hw : forall w, w = snd (resolve_taskId env body fresh) ->
                delivered w = [] /\ writer w = Writable /\
                sent w = [] /\ queried w = []).
  { intros w ->. unfold resolve_taskId, uuid_next.
    destruct (body_run_id body) as [r|]; [destruct (JS.truthy_string r)|];
      simpl; auto. }
  destruct (resolve_taskId env body fresh) as [taskId w1].
  specialize (Hw w1 eq_refl). destruct Hw as (Hd & Hwr & Hs & Hq).
  unfold uuid_next. cbn [fst snd].
  match goal with
  | |- context [background env ?ms ?r fuel ?w] =>
      destruct (background env ms r fuel w) as [bg' final'] eqn:E3
  end.
  intros H. injection H as <- <- <-.
  eexists _, _, _. cbn [run_threadId run_taskId run_messageId
                        run_pollIntervalMs run_maxPollAttempts].
  repeat split; try reflexivity; try discriminate; try exact E3; assumption.
Qed.

(** ** A request without a user message *)

Lemma background_no_user (env : Env) (messages : list AGUIMessage) (run : Run)
    (fuel : nat) (w : World) :
  filter (fun m => Role_eqb (role m) user) messages = [] ->
  writer w = Writable ->
  background env messages run fuel w =
    if accepts env (List.length (delivered w))
    then (Normal tt,
          mkWorld (delivered w ++
                     [event_at env (events run) w RUN_ERROR
                        (ErrorPayload "No user messages to send" None)])
                  Closed (uuids w) (S (ticks w))
                  (sent w) (queried w) (slept w) (journal w))
    else (Normal tt,
          mkWorld (delivered w) Errored (uuids w) (S (S (ticks w)))
                  (sent w) (queried w) (slept w) (journal w)).
Proof.
  intros Hf Hw. unfold background, tryBlock. rewrite Hf.
  cbn [List.length Nat.eqb].
  unfold try_finally, try_catch, bind, runError, base, bind, Date_now, ret,
    emit, close, writer_write, writer_close.
  cbn [delivered writer uuids ticks sent queried slept].
  rewrite Hw.
  destruct (accepts env (List.length (delivered w))); reflexivity.
Qed.

Lemma resolve_taskId_world (env : Env) (body : AGUIRunRequest) :
  let w := snd (resolve_taskId env body fresh) in
  delivered w = [] /\ writer w = Writable /\ sent w = [] /\ queried w = [].
Proof.
  unfold resolve_taskId, uuid_next.
  destruct (body_run_id body) as [r|]; [destruct (JS.truthy_string r)|];
    simpl; auto.
Qed.

Lemma handle_no_user (env : Env) (config : BridgeConfig) (fuel : nat)
    (body : AGUIRunRequest) (threadId : string) (messages : list AGUIMessage) :
  body_thread_id body = Some threadId -> threadId <> "" ->
  body_messages body = Some messages -> messages <> [] ->
  filter (fun m => Role_eqb (role m) user) messages = [] ->
  exists run final,
    handleAGUIRun env config fuel (Some body) = Streamed run (Normal tt) final /\
    sent final = [] /\ queried final = [] /\
    if accepts env 0
    then writer final = Closed /\
         exists ev, delivered final = [ev] /\
                    told ev = (RUN_ERROR,
                               ErrorPayload "No user messages to send" None)
    else writer final = Errored /\ delivered final = [].
Proof.
  intros Ht Hne Hm Hmne Hf. unfold handleAGUIRun. rewrite Ht, Hm.
  cbn [nullish].
  destruct threadId as [|c threadId]; [congruence|].
  cbn [JS.truthy_string negb].
  destruct messages as [|m messages]; [congruence|].
  pose proof (resolve_taskId_world env body) as Hw. cbv zeta in Hw.
  destruct (resolve_taskId env body fresh) as [taskId w1].
  cbn [snd] in Hw. destruct Hw as (Hd & Hwr & Hs & Hq).
  unfold uuid_next.
  rewrite background_no_user by assumption.
  cbn [delivered writer uuids ticks sent queried slept].
  rewrite Hd. cbn [List.length app].
  destruct (accepts env 0).
  - eexists _, _. split; [reflexivity|]. cbn. repeat split; auto.
    eexists. split; reflexivity.
  - eexists _, _. split; [reflexivity|]. cbn. repeat split; auto.
Qed.

(** ** The background task never raises *)

Lemma hoare_any {A} (c : M A) (P : World -> Prop) :
  hoare P c (fun _ _ => True) (fun _ _ => True) (fun _ => True).
Proof. intros w _. destruct (c w) as [[a| e | ] w']; exact I. Qed.

Lemma swallow_never_throws (c : M unit) :
  hoare (fun _ => True) (try_catch c (fun _ => ret tt))
        (fun _ _ => True) (fun _ _ => False) (fun _ => True).
Proof.
  eapply hoare_catch; [apply hoare_any|].
  intros e. apply hoare_ret. auto.
Qed.

Lemma background_never_throws (env : Env) (messages : list AGUIMessage)
    (run : Run) (fuel : nat) (w : World) (e : Thrown) :
  fst (background env messages run fuel w) <> Throw e.
Proof.
  assert (H : hoare (fun _ => True) (background env messages run fuel)
                    (fun _ _ => True) (fun _ _ => False) (fun _ => True)).
  { unfold background.
    eapply hoare_finally with (N1 := fun _ _ => True) (T1 := fun _ _ => False).
    - eapply hoare_catch; [apply hoare_any|].
      intros e'. apply swallow_never_throws.
    - intros a. eapply hoare_conseq; [apply swallow_never_throws|..]; auto.
    - intros e' w' []. }
  specialize (H w I).
  destruct (background env messages run fuel w) as [[a| e' | ] w'];
    simpl; [discriminate | contradiction | discriminate].
Qed.

(** ** JavaScript numbers: truthiness *)

Lemma JS_truthy_false (t : JS.number) :
  JS.truthy t = false <->
  t = JS.NaN \/ exists s d, t = JS.Finite s 0 d.
Proof.
  split.
  - destruct t as [ | s | s n d]; simpl; auto; try discriminate.
    destruct n; simpl; try discriminate. intros _. right. eauto.
  - intros [-> | (s & d & ->)]; reflexivity.
Qed.

(** ** Artifact expansion *)

Section Expansion.

Variable env : Env.
Variable events : AGUIEventBuilder.

Lemma textless_not_bearing (p : BinduArtifactPart) :
  textless p -> text_bearing p = None.
Proof.
  unfold textless, text_bearing.
  destruct (kind p); auto.
  intros [H | [-> | ->]]; auto. congruence.
Qed.

Lemma emitPart_textless (p : BinduArtifactPart) (w : World) :
  textless p -> emitPart env events p w = (Normal tt, w).
Proof.
  intros H. unfold emitPart. rewrite (textless_not_bearing p H). reflexivity.
Qed.

Lemma for_of_textless (ps : list BinduArtifactPart) (w : World) :
  Forall textless ps -> for_of ps (emitPart env events) w = (Normal tt, w).
Proof.
  induction 1 as [|p ps Hp _ IH]; simpl; [reflexivity|].
  unfold bind. rewrite (emitPart_textless p w Hp). exact IH.
Qed.

Hypothesis consumer_stays : writeLimit env = None.

Lemma emitPart_expected (p : BinduArtifactPart) (w : World) :
  writer w = Writable ->
  exists w' new,
    emitPart env events p w = (Normal tt, w') /\
    writer w' = Writable /\
    delivered w' = delivered w ++ new /\
    forall rest,
      map told new ++ expected_messages env (uuids w') rest
      = expected_messages env (uuids w) (p :: rest).
Proof.
  intros Hw. unfold emitPart, text_bearing. cbn [expected_messages].
  destruct (kind p);
    try solve [exists w, []; rewrite app_nil_r; repeat split; auto].
  destruct (text p) as [[|c s]|]; cbn [JS.truthy_string];
    try solve [exists w, []; rewrite app_nil_r; repeat split; auto].
  cbv [bind crypto_randomUUID uuid_next textMessageStart
       textMessageContent textMessageEnd base Date_now ret emit
       writer_write accepts].
  rewrite consumer_stays.
  cbn [delivered writer uuids ticks sent queried slept]. rewrite Hw.
  eexists _, _. split; [reflexivity|].
  cbn [delivered writer uuids]. split; [reflexivity|].
  split; [rewrite <- !app_assoc; reflexivity|].
  intros rest. reflexivity.
Qed.

Lemma for_of_parts_expected (ps : list BinduArtifactPart) :
  forall w,
    writer w = Writable ->
    exists w' new,
      for_of ps (emitPart env events) w = (Normal tt, w') /\
      writer w' = Writable /\
      delivered w' = delivered w ++ new /\
      forall rest,
        map told new ++ expected_messages env (uuids w') rest
        = expected_messages env (uuids w) (ps ++ rest).
Proof.
  induction ps as [|p ps IH]; intros w Hw.
  - exists w, []. rewrite app_nil_r. repeat split; auto.
  - destruct (emitPart_expected p w Hw) as (w1 & new1 & E1 & Hw1 & Hd1 & Hx1).
    destruct (IH w1 Hw1) as (w2 & new2 & E2 & Hw2 & Hd2 & Hx2).
    exists w2, (new1 ++ new2). cbn [for_of]. unfold bind. rewrite E1.
    split; [exact E2|]. split; [exact Hw2|].
    split; [rewrite Hd2, Hd1, app_assoc; reflexivity|].
    intros rest. rewrite map_app, <- app_assoc, Hx2.
    change ((p :: ps) ++ rest) with (p :: (ps ++ rest)). apply Hx1.
Qed.

Lemma emitArtifacts_expected (task : BinduTask) (w : World) :
  writer w = Writable ->
  exists w' new,
    emitArtifactsAsMessages env events task w = (Normal tt, w') /\
    writer w' = Writable /\
    delivered w' = delivered w ++ new /\
    map told new = expected_messages env (uuids w) (all_parts task).
Proof.
  intros Hw.
  assert (H : forall arts w,
             writer w = Writable ->
             exists w' new,
               for_of arts (fun a => for_of (parts a) (emitPart env events)) w
               = (Normal tt, w') /\
               writer w' = Writable /\
               delivered w' = delivered w ++ new /\
               forall rest,
                 map told new ++ expected_messages env (uuids w') rest
                 = expected_messages env (uuids w) (flat_map parts arts ++ rest)).
  { clear w Hw. induction arts as [|a arts IH]; intros w Hw.
    - exists w, []. rewrite app_nil_r. repeat split; auto.
    - destruct (for_of_parts_expected (parts a) w Hw)
        as (w1 & new1 & E1 & Hw1 & Hd1 & Hx1).
      destruct (IH w1 Hw1) as (w2 & new2 & E2 & Hw2 & Hd2 & Hx2).
      exists w2, (new1 ++ new2). cbn [for_of]. unfold bind. rewrite E1.
      split; [exact E2|]. split; [exact Hw2|].
      split; [rewrite Hd2, Hd1, app_assoc; reflexivity|].
      intros rest. rewrite map_app, <- app_assoc, Hx2.
      cbn [flat_map]. rewrite <- app_assoc. apply Hx1. }
  unfold emitArtifactsAsMessages, all_parts.
  destruct (artifacts task) as [arts|].
  - destruct (H arts w Hw) as (w' & new & E & Hw' & Hd & Hx).
    exists w', new. split.
    + destruct arts; [|exact E]. cbn in E. exact E.
    + split; [exact Hw'|]. split; [exact Hd|].
      specialize (Hx []). cbn [expected_messages] in Hx.
      rewrite !app_nil_r in Hx. exact Hx.
  - exists w, []. rewrite app_nil_r. repeat split; auto.
Qed.

Lemma emitArtifacts_textless (task : BinduTask) (w : World) :
  Forall textless (all_parts task) ->
  emitArtifactsAsMessages env events task w = (Normal tt, w).
Proof.
  unfold emitArtifactsAsMessages, all_parts.
  destruct (artifacts task) as [arts|]; [|reflexivity].
  intros H. destruct arts as [|a0 arts0]; [reflexivity|].
  revert w H. generalize (a0 :: arts0). clear a0 arts0.
  induction l as [|a arts IH]; intros w H; [reflexivity|].
  cbn [flat_map] in H. apply Forall_app in H. destruct H as [Ha Hr].
  cbn [for_of]. unfold bind. rewrite (for_of_textless (parts a) w Ha).
  apply IH. exact Hr.
Qed.

End Expansion.

(** ** Following the handler on given answers *)

(** Unfolds the handler and its primitives as far as the answers of the
    outside parties are known; [known] rewrites with those answers. *)
Ltac follow_run known :=
  repeat first
    [ known
    | progress cbv beta iota zeta delta
        [bind ret try_catch try_finally sleep binduClient_sendMessage
         binduClient_getTask runStarted runFinished runError stateDelta
         textMessageStart textMessageContent textMessageEnd base Date_now
         emit close writer_write writer_close accepts crypto_randomUUID
         uuid_next onTerminal emitArtifactsAsMessages emitPart for_of
         text_bearing events message_or includes TERMINAL_STATES
         delivered writer uuids ticks sent queried slept
         run_threadId run_taskId run_messageId run_pollIntervalMs
         run_maxPollAttempts threadId runId kind text]
    | progress cbn -[JS.lt JS.ge JS.of_nat pollLoop] ].

(** ** Polling and state deltas *)

Lemma quiet_ret {A} (a : A) : quiet (ret a).
Proof. intros P. apply inv_ret. Qed.

Lemma quiet_bind {A B} (c : M A) (k : A -> M B) :
  quiet c -> (forall a, quiet (k a)) -> quiet (bind c k).
Proof. intros Hc Hk P. apply inv_bind; [apply Hc | intros a; apply Hk]. Qed.

Lemma quiet_catch {A} (c : M A) (h : Thrown -> M A) :
  quiet c -> (forall e, quiet (h e)) -> quiet (try_catch c h).
Proof. intros Hc Hh P. apply inv_catch; [apply Hc | intros e; apply Hh]. Qed.

Lemma quiet_finally {A} (c : M A) (f : M unit) :
  quiet c -> quiet f -> quiet (try_finally c f).
Proof. intros Hc Hf P. apply inv_finally; [apply Hc | apply Hf]. Qed.

Lemma quiet_for_of {A} (l : list A) (body : A -> M unit) :
  (forall x, quiet (body x)) -> quiet (for_of l body).
Proof. intros Hb P. apply inv_for_of. intros x. apply Hb. Qed.

Lemma deltas_app (l1 l2 : list AGUIEvent) :
  deltas (l1 ++ l2) = deltas l1 ++ deltas l2.
Proof. unfold deltas. apply flat_map_app. Qed.

Section Polling.

Variable env : Env.
Variable run : Run.

Lemma quiet_emit_built (t : EventType) (pl : Payload) :
  t <> STATE_DELTA ->
  quiet (ev <- built env (events run) t pl ;; emit env ev).
Proof.
  intros Ht P. apply hoare_emit_built; unfold obs; simpl; intros w H; auto.
  intros _ _. rewrite deltas_app. simpl. unfold delta_state, event_type. simpl.
  destruct t; try congruence; rewrite app_nil_r; exact H.
Qed.

Lemma quiet_sleep (ms : JS.number) : quiet (sleep ms).
Proof. intros P w H. exact H. Qed.

Lemma quiet_uuid : quiet (crypto_randomUUID env).
Proof. intros P w H. exact H. Qed.

Lemma quiet_sendMessage (p : SendMessageParams) :
  quiet (binduClient_sendMessage env p).
Proof.
  intros P w H. unfold binduClient_sendMessage.
  destruct (sendMessage env p); exact H.
Qed.

Lemma quiet_close : quiet (close env).
Proof.
  intros P w H. unfold close, writer_close. destruct (writer w); exact H.
Qed.

Lemma quiet_emitArtifacts (task : BinduTask) :
  quiet (emitArtifactsAsMessages env (events run) task).
Proof.
  unfold emitArtifactsAsMessages.
  destruct (artifacts task) as [[|a arts]|]; try apply quiet_ret.
  apply quiet_for_of. intros artifact. apply quiet_for_of. intros part.
  unfold emitPart. destruct (text_bearing part); [|apply quiet_ret].
  apply quiet_bind; [apply quiet_uuid|]. intros msgId.
  repeat (apply quiet_bind; [apply quiet_emit_built; discriminate|]; intros _).
  apply quiet_emit_built; discriminate.
Qed.

Lemma quiet_onTerminal (s : BinduTaskState) (task : BinduTask) :
  quiet (onTerminal env run s task).
Proof.
  unfold onTerminal.
  destruct (String.eqb s "completed").
  { apply quiet_bind; [apply quiet_emitArtifacts|]. intros _.
    apply quiet_emit_built; discriminate. }
  destruct (String.eqb s "failed"); [apply quiet_emit_built; discriminate|].
  destruct (String.eqb s "canceled"); [apply quiet_emit_built; discriminate|].
  apply quiet_ret.
Qed.

Lemma advanced_none (taskId : string) (ls : BinduTaskState) (o : nat * list BinduTaskState) :
  polling_advanced env taskId ls o o.
Proof.
  exists 0, []. rewrite Nat.add_0_r, app_nil_r. repeat split; auto.
  - exists []. reflexivity.
  - intros i t Hi. inversion Hi.
  - intros l1 s l2 H. destruct l1; discriminate.
Qed.

Lemma advanced_one (taskId : string) (ls : BinduTaskState) (n : nat)
    (d ds : list BinduTaskState) :
  ds = [] \/
  (exists t, ds = [status_state t] /\ getTask env n taskId = inr t /\
             status_state t <> ls) ->
  polling_advanced env taskId ls (n, d) (S n, d ++ ds).
Proof.
  intros H. exists 1, ds. cbn [fst snd]. repeat split.
  - rewrite Nat.add_1_r. reflexivity.
  - destruct H as [-> | (t & -> & Hg & Hne)].
    + eexists. reflexivity.
    + unfold polled_from. cbn [seq flat_map]. rewrite Hg. cbn [app changes].
      apply String.eqb_neq in Hne. rewrite Hne. exists []. reflexivity.
  - intros i t Hi _ _. lia.
  - intros l1 s l2 E Hl2.
    destruct H as [-> | (t & -> & _)].
    + destruct l1; discriminate.
    + destruct l1 as [|x l1]; [|destruct l1; discriminate].
      cbn in E. injection E as _ E. subst l2. exfalso. apply Hl2. reflexivity.
Qed.

Lemma advanced_step (taskId : string) (ls : BinduTaskState) (n : nat)
    (d d1 : list BinduTaskState) (t : BinduTask)
    (o' : nat * list BinduTaskState) :
  getTask env n taskId = inr t ->
  includes TERMINAL_STATES (status_state t) = false ->
  (d1 = d ++ [status_state t] /\ status_state t <> ls \/
   d1 = d /\ status_state t = ls) ->
  polling_advanced env taskId (status_state t) (S n, d1) o' ->
  polling_advanced env taskId ls (n, d) o'.
Proof.
  intros Hg Hnt Hd (k & ds & Hn & Hs & Hp & Hstop & Hlast).
  cbn [fst snd] in *.
  assert (Hpolled : polled_from env taskId n (S k)
                    = status_state t :: polled_from env taskId (S n) k).
  { unfold polled_from. cbn [seq flat_map]. rewrite Hg. reflexivity. }
  assert (Hstop' : stops_at_terminal env taskId n (S k)).
  { intros i t' Hi Hg' Ht'. destruct i as [|i].
    - rewrite Nat.add_0_r in Hg'. congruence.
    - f_equal. apply (Hstop i t'); [lia| |exact Ht'].
      rewrite <- Hg'. f_equal. lia. }
  destruct Hd as [[-> Hne] | [-> He]].
  - exists (S k), (status_state t :: ds). cbn [fst snd]. repeat split.
    + lia.
    + rewrite Hs, <- app_assoc. reflexivity.
    + rewrite Hpolled. cbn [changes].
      apply String.eqb_neq in Hne. rewrite Hne.
      destruct Hp as [l3 ->]. exists l3. reflexivity.
    + exact Hstop'.
    + intros l1 s l2 E Hl2. destruct l1 as [|x l1].
      * injection E as <- _. exact Hnt.
      * injection E as _ E. apply (Hlast l1 s l2); assumption.
  - exists (S k), ds. cbn [fst snd]. repeat split.
    + lia.
    + exact Hs.
    + rewrite Hpolled. cbn [changes]. rewrite He in *.
      rewrite String.eqb_refl. exact Hp.
    + exact Hstop'.
    + exact Hlast.
Qed.

(** The poll loop, started after [fst o] polls with [snd o] announced,
    advances polling as specified, however it ends. *)
Lemma pollLoop_advances (fuel : nat) :
  forall lastState pollCount o,
    hoare (fun w => obs w = o) (pollLoop env run fuel lastState pollCount)
          (fun _ w' => polling_advanced env (run_taskId run) lastState o (obs w'))
          (fun _ w' => polling_advanced env (run_taskId run) lastState o (obs w'))
          (fun w' => polling_advanced env (run_taskId run) lastState o (obs w')).
Proof.
  induction fuel as [|fuel IH]; intros lastState pollCount o; cbn [pollLoop];
    destruct (JS.lt (JS.of_nat pollCount) (run_maxPollAttempts run)).
  - intros w <-. apply advanced_none.
  - apply hoare_ret. intros w <-. apply advanced_none.
  - destruct o as [n d].
    eapply hoare_bind with (N1 := fun _ w => obs w = (n, d)).
    { eapply hoare_conseq;
        [apply (quiet_sleep (run_pollIntervalMs run) (fun x => x = (n, d)))|..];
        cbn beta; auto; intros; subst; try congruence.
      - rewrite H. apply advanced_none.
      - rewrite H. apply advanced_none. }
    intros _.
    eapply hoare_bind
      with (N1 := fun got w =>
                    obs w = (S n, d) /\
                    match got with
                    | Some t => getTask env n (run_taskId run) = inr t
                    | None => True
                    end).
    { eapply hoare_catch with (T1 := fun _ w => obs w = (S n, d)).
      - intros w Hw. unfold bind, binduClient_getTask, ret.
        unfold obs in Hw. injection Hw as Hn Hd.
        rewrite Hn.
        destruct (getTask env n (run_taskId run)) as [e|t] eqn:Hg;
          unfold obs; cbn [queried delivered];
          rewrite length_app, Hn, Hd, Nat.add_1_r; auto.
      - intros e.
        eapply hoare_bind with (N1 := fun _ w => obs w = (S n, d)).
        + eapply hoare_conseq;
            [apply (quiet_emit_built RUN_ERROR
                      (ErrorPayload (message_or e "Failed to get task status")
                                    None)
                      ltac:(discriminate) (fun x => x = (S n, d)))|..];
            cbn beta; auto; intros; rewrite H;
            rewrite <- (app_nil_r d) at 2; apply advanced_one; auto.
        + intros _. apply hoare_ret. auto. }
    intros [currentTask|]; cbn beta iota.
    2:{ apply hoare_ret. intros w [Hw _]. rewrite Hw.
        rewrite <- (app_nil_r d) at 2. apply advanced_one; auto. }
    set (s := status_state currentTask).
    eapply hoare_bind
      with (N1 := fun ls' w =>
                    getTask env n (run_taskId run) = inr currentTask /\
                    ls' = s /\
                    (obs w = (S n, d ++ [s]) /\ s <> lastState \/
                     obs w = (S n, d) /\ s = lastState)).
    { destruct (String.eqb_spec s lastState) as [He|Hne]; cbn [negb].
      - apply hoare_ret. intros w [Hw Hg]. auto.
      - eapply hoare_bind
          with (N1 := fun _ w =>
                        getTask env n (run_taskId run) = inr currentTask /\
                        obs w = (S n, d ++ [s])).
        + apply hoare_emit_built.
          * intros w [Hw Hg] _ _. split; [exact Hg|].
            unfold obs in *. cbn [queried delivered].
            injection Hw as Hn Hd. rewrite Hn, deltas_app, Hd. reflexivity.
          * intros w [Hw Hg] _ _.
            change (polling_advanced env (run_taskId run) lastState (n, d) (obs w)).
            rewrite Hw. rewrite <- (app_nil_r d) at 2. apply advanced_one; auto.
          * intros w [Hw Hg] _.
            change (polling_advanced env (run_taskId run) lastState (n, d) (obs w)).
            rewrite Hw. rewrite <- (app_nil_r d) at 2. apply advanced_one; auto.
        + intros _. apply hoare_ret. intros w [Hg Hw]. auto. }
    intros lastState'.
    destruct (includes TERMINAL_STATES s) eqn:Hterm.
    + intros w (Hg & -> & Hw).
      assert (Hadv : polling_advanced env (run_taskId run) lastState
                                      (n, d) (obs w)).
      { destruct Hw as [[-> Hne] | [-> He]].
        - apply advanced_one. right. exists currentTask. auto.
        - rewrite <- (app_nil_r d) at 2. apply advanced_one. auto. }
      pose proof (quiet_bind (onTerminal env run s currentTask)
                    (fun _ => ret (s, pollCount))
                    (quiet_onTerminal s currentTask)
                    (fun _ => quiet_ret _)
                    (fun x => polling_advanced env (run_taskId run) lastState
                                               (n, d) x) w Hadv) as H.
      exact H.
    + intros w (Hg & -> & Hw).
      assert (Ho : exists d1, obs w = (S n, d1) /\
                     (d1 = d ++ [s] /\ s <> lastState \/
                      d1 = d /\ s = lastState)).
      { destruct Hw as [[-> Hne] | [-> He]]; eexists; split; eauto. }
      destruct Ho as (d1 & Ho & Hd1).
      pose proof (IH s (S pollCount) (S n, d1) w Ho) as H.
      destruct (pollLoop env run fuel s (S pollCount) w) as [[a|e|] w'];
        eapply advanced_step; eauto.
  - apply hoare_ret. intros w <-. apply advanced_none.
Qed.

(** A quiet computation keeps what has been observed. *)
Lemma quiet_keeps {A} (c : M A) (ls : BinduTaskState)
    (o : nat * list BinduTaskState) :
  quiet c ->
  hoare (fun w => obs w = o) c
        (fun _ w' => obs w' = o)
        (fun _ w' => polling_advanced env (run_taskId run) ls o (obs w'))
        (fun w' => polling_advanced env (run_taskId run) ls o (obs w')).
Proof.
  intros Hq. eapply hoare_conseq; [apply (Hq (fun x => x = o))|..];
    cbn beta; auto; intros; subst; apply advanced_none.
Qed.

Lemma tryBlock_advances (messages : list AGUIMessage) (fuel : nat) :
  let tracked w :=
    polling_advanced env (run_taskId run) "submitted" (0, []) (obs w) in
  hoare (fun w => obs w = (0, [])) (tryBlock env messages run fuel)
        (fun _ => tracked) (fun _ => tracked) tracked.
Proof.
  intros tracked. subst tracked. unfold tryBlock.
  destruct (List.length (filter (fun m => Role_eqb (role m) user) messages)
            =? 0)%nat.
  - eapply hoare_conseq;
      [apply (quiet_keeps _ "submitted" (0, [])
                (quiet_emit_built RUN_ERROR _ ltac:(discriminate)))|..];
      cbn beta; auto.
    intros _ w Hw. rewrite Hw. apply advanced_none.
  - eapply hoare_bind; [apply quiet_keeps, quiet_sendMessage|]. intros ?.
    eapply hoare_bind;
      [apply quiet_keeps, quiet_emit_built; discriminate|]. intros ?.
    eapply hoare_bind; [apply pollLoop_advances|].
    intros [lastState pollCount]. cbn beta iota.
    destruct (JS.ge (JS.of_nat pollCount) (run_maxPollAttempts run)
              && negb (includes TERMINAL_STATES lastState)).
    + apply (quiet_emit_built RUN_ERROR (ErrorPayload "Polling timeout" None)
               ltac:(discriminate)
               (fun x => polling_advanced env (run_taskId run) "submitted"
                                          (0, []) x)).
    + apply hoare_ret. auto.
Qed.

Lemma background_advances (messages : list AGUIMessage) (fuel : nat)
    (w : World) :
  obs w = (0, []) ->
  polling_advanced env (run_taskId run) "submitted" (0, [])
                   (obs (snd (background env messages run fuel w))).
Proof.
  intros Hw.
  set (tracked := fun w' =>
         polling_advanced env (run_taskId run) "submitted" (0, []) (obs w')).
  assert (Hq : forall A (c : M A), quiet c -> inv tracked c).
  { intros A c Hc.
    apply (Hc (fun x => polling_advanced env (run_taskId run) "submitted"
                                         (0, []) x)). }
  assert (H : hoare (fun w => obs w = (0, []))
                    (background env messages run fuel)
                    (fun _ => tracked) (fun _ => tracked) tracked).
  { unfold background. eapply hoare_finally.
    - eapply hoare_catch; [apply tryBlock_advances|].
      intros e. apply Hq. apply quiet_catch.
      + apply quiet_emit_built. discriminate.
      + intros _. apply quiet_ret.
    - intros ?. apply Hq. apply quiet_catch; [apply quiet_close|].
      intros _. apply quiet_ret.
    - intros ?. apply Hq. apply quiet_catch; [apply quiet_close|].
      intros _. apply quiet_ret. }
  specialize (H w Hw).
  destruct (background env messages run fuel w) as [[a|e|] w']; exact H.
Qed.

End Polling.

Lemma no_repeat_changes (states : list BinduTaskState) :
  forall last, no_repeat last (changes last states).
Proof.
  induction states as [|s rest IH]; intros last; cbn [changes]; [exact I|].
  destruct (String.eqb_spec s last); [apply IH|].
  cbn [no_repeat]. split; [assumption | apply IH].
Qed.

Lemma no_repeat_prefix (l1 : list BinduTaskState) :
  forall last l2, prefix l1 l2 -> no_repeat last l2 -> no_repeat last l1.
Proof.
  induction l1 as [|s l1 IH]; intros last l2 [l3 ->] H; [exact I|].
  cbn in H. destruct H as [Hs H]. split; [exact Hs|].
  apply (IH s (l1 ++ l3)); [exists l3; reflexivity | exact H].
Qed.

(** ** The terminal event *)

Lemma expected_messages_no_terminal (env : Env) (ps : list BinduArtifactPart) :
  forall k new,
    map told new = expected_messages env k ps -> no_terminal new.
Proof.
  induction ps as [|p ps IH]; intros k new H; cbn [expected_messages] in H.
  - destruct new; [constructor | discriminate].
  - destruct (kind p); try (apply (IH k); exact H).
    destruct (text p) as [[|c s]|]; try (apply (IH k); exact H).
    destruct new as [|e1 [|e2 [|e3 new]]]; try discriminate.
    cbn in H. unfold told in H.
    injection H as T1 _ T2 _ T3 _ H.
    constructor; [unfold is_terminal_event; rewrite T1; reflexivity|].
    constructor; [unfold is_terminal_event; rewrite T2; reflexivity|].
    constructor; [unfold is_terminal_event; rewrite T3; reflexivity|].
    apply (IH (S k)). exact H.
Qed.

Section Terminal.

Variable env : Env.
Variable run : Run.
Hypothesis consumer_stays : writeLimit env = None.

(** With the consumer there, an emission on a writable stream succeeds. *)
Lemma hoare_emit_ok (t : EventType) (pl : Payload)
    (P : World -> Prop) (N : unit -> World -> Prop) :
  (forall w, P w -> writer w = Writable) ->
  (forall w, P w ->
     N tt (mkWorld (delivered w ++ [event_at env (events run) w t pl]) Writable
                   (uuids w) (S (ticks w))
                   (sent w) (queried w) (slept w) (journal w))) ->
  hoare P (ev <- built env (events run) t pl ;; emit env ev)
        N (fun _ _ => False) (fun _ => True).
Proof.
  intros Hw HN. apply hoare_emit_built.
  - intros w H _ _. apply HN; exact H.
  - intros w H _. unfold accepts. rewrite consumer_stays. discriminate.
  - intros w H Hne. apply Hne, Hw, H.
Qed.

Lemma emit_terminal_ok (t : EventType) (pl : Payload) :
  t = RUN_FINISHED \/ t = RUN_ERROR ->
  hoare open_without_terminal
        (ev <- built env (events run) t pl ;; emit env ev)
        (fun _ => open_with_terminal) (fun _ _ => False) (fun _ => True).
Proof.
  intros Ht. apply hoare_emit_ok.
  - intros w [Hw _]. exact Hw.
  - intros w [Hw Hn]. split; [reflexivity|]. cbn [delivered].
    eexists _, _. split; [reflexivity|]. split; [|exact Hn].
    unfold is_terminal_event, event_type, event_at. cbn.
    destruct Ht as [-> | ->]; reflexivity.
Qed.

Lemma emit_other_ok (t : EventType) (pl : Payload) :
  t <> RUN_FINISHED -> t <> RUN_ERROR ->
  hoare open_without_terminal
        (ev <- built env (events run) t pl ;; emit env ev)
        (fun _ => open_without_terminal) (fun _ _ => False) (fun _ => True).
Proof.
  intros Hf He. apply hoare_emit_ok.
  - intros w [Hw _]. exact Hw.
  - intros w [Hw Hn]. split; [reflexivity|]. cbn [delivered].
    apply Forall_app. split; [exact Hn|]. constructor; [|constructor].
    unfold is_terminal_event, event_type, event_at. cbn.
    destruct t; congruence.
Qed.

Lemma emitArtifacts_ok (task : BinduTask) :
  hoare open_without_terminal
        (emitArtifactsAsMessages env (events run) task)
        (fun _ => open_without_terminal) (fun _ _ => False) (fun _ => True).
Proof.
  intros w [Hw Hn].
  destruct (emitArtifacts_expected env (events run) consumer_stays task w Hw)
    as (w' & new & E & Hw' & Hd & Hx).
  rewrite E. split; [exact Hw'|]. rewrite Hd. apply Forall_app.
  split; [exact Hn|]. eapply expected_messages_no_terminal. exact Hx.
Qed.

Lemma onTerminal_ok (s : BinduTaskState) (task : BinduTask) :
  includes TERMINAL_STATES s = true ->
  hoare open_without_terminal (onTerminal env run s task)
        (fun _ => open_with_terminal) (fun _ _ => False) (fun _ => True).
Proof.
  intros Hs. apply includes_terminal_cases in Hs. unfold onTerminal.
  destruct Hs as [-> | [-> | ->]]; cbn [String.eqb Ascii.eqb Bool.eqb].
  - eapply hoare_bind; [apply emitArtifacts_ok|]. intros ?.
    apply emit_terminal_ok. auto.
  - apply emit_terminal_ok. auto.
  - apply emit_terminal_ok. auto.
Qed.

Lemma pollLoop_ok (fuel : nat) :
  forall lastState pollCount,
    includes TERMINAL_STATES lastState = false ->
    hoare open_without_terminal (pollLoop env run fuel lastState pollCount)
          (left_loop run) (fun _ _ => False) (fun _ => True).
Proof.
  induction fuel as [|fuel IH]; intros lastState pollCount Hls;
    cbn [pollLoop];
    destruct (JS.lt (JS.of_nat pollCount) (run_maxPollAttempts run)) eqn:Hlt.
  - intros w _. exact I.
  - apply hoare_ret. intros w Hw. left. auto.
  - eapply hoare_bind with (N1 := fun _ => open_without_terminal).
    { intros w Hw. exact Hw. }
    intros ?.
    eapply hoare_bind
      with (N1 := fun got w =>
                    match got with
                    | Some _ => open_without_terminal w
                    | None => open_with_terminal w
                    end).
    { eapply hoare_catch with (T1 := fun _ => open_without_terminal).
      - intros w Hw. unfold bind, binduClient_getTask, ret.
        destruct (getTask env (List.length (queried w)) (run_taskId run));
          exact Hw.
      - intros e. eapply hoare_bind; [apply emit_terminal_ok; auto|].
        intros ?. apply hoare_ret. auto. }
    intros [currentTask|]; cbn beta iota.
    2:{ apply hoare_ret. intros w Hw. right. auto. }
    set (s := status_state currentTask).
    eapply hoare_bind
      with (N1 := fun ls' w => ls' = s /\ open_without_terminal w).
    { destruct (String.eqb_spec s lastState) as [He|Hne]; cbn [negb].
      - apply hoare_ret. intros w Hw. split; auto.
      - eapply hoare_bind; [apply emit_other_ok; discriminate|].
        intros ?. apply hoare_ret. auto. }
    intros lastState'.
    destruct (includes TERMINAL_STATES s) eqn:Hterm.
    + eapply hoare_bind with (N1 := fun _ => open_with_terminal).
      * eapply hoare_conseq; [apply (onTerminal_ok s currentTask Hterm)|..];
          auto. intros w [_ Hw]. exact Hw.
      * intros ?. apply hoare_ret. intros w Hw. right. auto.
    + intros w [-> Hw]. apply (IH s (S pollCount) Hterm w Hw).
  - apply hoare_ret. intros w Hw. left. auto.
Qed.

Lemma tryBlock_ok (messages : list AGUIMessage) (fuel : nat) :
  JS.is_nan (run_maxPollAttempts run) = false ->
  hoare open_without_terminal (tryBlock env messages run fuel)
        (fun _ => open_with_terminal)
        (fun _ => open_without_terminal)
        (fun _ => True).
Proof.
  intros Hnan. unfold tryBlock.
  destruct (List.length (filter (fun m => Role_eqb (role m) user) messages)
            =? 0)%nat.
  - eapply hoare_conseq; [apply (emit_terminal_ok RUN_ERROR); auto|..];
      auto. intros e w [].
  - eapply hoare_bind with (N1 := fun _ => open_without_terminal).
    { intros w Hw. unfold binduClient_sendMessage.
      destruct (sendMessage env _); exact Hw. }
    intros ?.
    eapply hoare_bind with (N1 := fun _ => open_without_terminal).
    { eapply hoare_conseq;
        [apply (emit_other_ok RUN_STARTED); discriminate|..]; auto.
      intros e w []. }
    intros ?.
    eapply hoare_bind with (N1 := left_loop run).
    { eapply hoare_conseq;
        [apply (pollLoop_ok fuel "submitted" 0); reflexivity|..]; auto.
      intros e w []. }
    intros [lastState pollCount]. cbn beta iota.
    intros w [(Hlt & Hls & Hw) | (Hlt & Hw)]; cbn [fst snd] in *.
    + rewrite (JS_not_lt_ge (JS.of_nat pollCount) _ eq_refl Hnan Hlt), Hls. cbn [andb negb].
      revert w Hw.
      change (hoare open_without_terminal
                (ev <- runError env (events run) "Polling timeout" None ;;
                 emit env ev)
                (fun _ => open_with_terminal)
                (fun _ => open_without_terminal) (fun _ => True)).
      eapply hoare_conseq; [apply (emit_terminal_ok RUN_ERROR); auto|..];
        auto. intros e w [].
    + rewrite (JS_lt_not_ge _ _ Hlt). cbn [andb]. exact Hw.
Qed.

(** With the consumer there and an attempt budget that is a number, a
    run that completes has sent exactly one terminal event, as its last
    event, and has closed the stream. *)
Lemma background_ok (messages : list AGUIMessage) (fuel : nat) (w : World) :
  JS.is_nan (run_maxPollAttempts run) = false ->
  open_without_terminal w ->
  forall final,
    background env messages run fuel w = (Normal tt, final) ->
    writer final = Closed /\ one_terminal_last (delivered final).
Proof.
  intros Hnan Hw final E.
  assert (H : hoare open_without_terminal (background env messages run fuel)
                    (fun _ w' => writer w' = Closed /\
                                 one_terminal_last (delivered w'))
                    (fun _ _ => False) (fun _ => True)).
  { unfold background.
    eapply hoare_finally
      with (N1 := fun _ => open_with_terminal) (T1 := fun _ _ => False).
    - eapply hoare_catch; [apply tryBlock_ok; exact Hnan|].
      intros e. eapply hoare_catch with (T1 := fun _ _ => False).
      + apply emit_terminal_ok. auto.
      + intros e' w' [].
    - intros ? w' [Hw' Ht]. unfold try_catch, close, writer_close, ret.
      rewrite Hw'. cbn [writer delivered]. auto.
    - intros e w' []. }
  specialize (H w Hw). rewrite E in H. exact H.
Qed.

End Terminal.
(** ** The model follows a run with a finite budget to its end *)

Lemma total_ret {A} (a : A) : total (ret a).
Proof. intros w. discriminate. Qed.

Lemma total_bind {A B} (c : M A) (k : A -> M B) :
  total c -> (forall a, total (k a)) -> total (bind c k).
Proof.
  intros Hc Hk w. unfold bind. specialize (Hc w).
  destruct (c w) as [[a|e|] w']; cbn [fst] in Hc |- *.
  - apply Hk.
  - discriminate.
  - exfalso. apply Hc. reflexivity.
Qed.

Lemma total_catch {A} (c : M A) (h : Thrown -> M A) :
  total c -> (forall e, total (h e)) -> total (try_catch c h).
Proof.
  intros Hc Hh w. unfold try_catch. specialize (Hc w).
  destruct (c w) as [[a|e|] w']; cbn [fst] in Hc |- *.
  - discriminate.
  - apply Hh.
  - exfalso. apply Hc. reflexivity.
Qed.

Lemma total_finally {A} (c : M A) (f : M unit) :
  total c -> total f -> total (try_finally c f).
Proof.
  intros Hc Hf w. unfold try_finally. specialize (Hc w).
  destruct (c w) as [[a|e|] w']; cbn [fst] in Hc |- *;
    [| |exfalso; apply Hc; reflexivity];
    specialize (Hf w'); destruct (f w') as [[[]|e'|] w''];
    cbn [fst] in Hf |- *;
    solve [discriminate | exfalso; apply Hf; reflexivity].
Qed.

Lemma total_for_of {A} (l : list A) (body : A -> M unit) :
  (forall x, total (body x)) -> total (for_of l body).
Proof.
  intros Hb. induction l as [|x l IH]; cbn [for_of].
  - apply total_ret.
  - apply total_bind; auto.
Qed.

Section Totality.

Variable env : Env.
Variable run : Run.

Lemma total_emit_built (t : EventType) (pl : Payload) :
  total (ev <- built env (events run) t pl ;; emit env ev).
Proof.
  intros w.
  pose proof (hoare_emit_built env (events run) t pl (fun _ => True)
                (fun _ _ => True) (fun _ _ => True) (fun _ => False)) as H.
  specialize (H ltac:(auto) ltac:(auto) ltac:(auto) w I).
  destruct ((ev <- built env (events run) t pl ;; emit env ev) w)
    as [[[]|e|] w']; cbn; [discriminate | discriminate | contradiction].
Qed.

Lemma total_sleep (ms : JS.number) : total (sleep ms).
Proof. intros w. discriminate. Qed.

Lemma total_uuid : total (crypto_randomUUID env).
Proof. intros w. discriminate. Qed.

Lemma total_sendMessage (p : SendMessageParams) :
  total (binduClient_sendMessage env p).
Proof.
  intros w. unfold binduClient_sendMessage.
  destruct (sendMessage env p); discriminate.
Qed.

Lemma total_getTask (taskId : string) : total (binduClient_getTask env taskId).
Proof.
  intros w. unfold binduClient_getTask.
  destruct (getTask env (List.length (queried w)) taskId); discriminate.
Qed.

Lemma total_close : total (close env).
Proof.
  intros w. unfold close, writer_close. destruct (writer w); discriminate.
Qed.

Lemma total_onTerminal (s : BinduTaskState) (task : BinduTask) :
  total (onTerminal env run s task).
Proof.
  unfold onTerminal.
  destruct (String.eqb s "completed").
  { apply total_bind; [|intros _; apply total_emit_built].
    unfold emitArtifactsAsMessages.
    destruct (artifacts task) as [[|a arts]|]; try apply total_ret.
    apply total_for_of. intros artifact. apply total_for_of. intros part.
    unfold emitPart. destruct (text_bearing part); [|apply total_ret].
    apply total_bind; [apply total_uuid|]. intros msgId.
    repeat (apply total_bind; [apply total_emit_built|]; intros _).
    apply total_emit_built. }
  destruct (String.eqb s "failed"); [apply total_emit_built|].
  destruct (String.eqb s "canceled"); [apply total_emit_built|].
  apply total_ret.
Qed.

Lemma pollLoop_total (fuel : nat) :
  forall lastState pollCount,
    JS.lt (JS.of_nat (pollCount + fuel)) (run_maxPollAttempts run) = false ->
    total (pollLoop env run fuel lastState pollCount).
Proof.
  induction fuel as [|fuel IH]; intros lastState pollCount Hb;
    cbn [pollLoop];
    destruct (JS.lt (JS.of_nat pollCount) (run_maxPollAttempts run)) eqn:Hlt;
    try apply total_ret.
  - rewrite Nat.add_0_r in Hb. congruence.
  - apply total_bind; [apply total_sleep|]. intros _.
    apply total_bind.
    + apply total_catch.
      * apply total_bind; [apply total_getTask|]. intros t. apply total_ret.
      * intros e. apply total_bind; [apply total_emit_built|].
        intros _. apply total_ret.
    + intros [currentTask|]; [|apply total_ret].
      apply total_bind.
      * destruct (negb (status_state currentTask =? lastState)%string);
          [|apply total_ret].
        apply total_bind; [apply total_emit_built|]. intros _.
        apply total_ret.
      * intros lastState'.
        destruct (includes TERMINAL_STATES (status_state currentTask)).
        -- apply total_bind; [apply total_onTerminal|]. intros _.
           apply total_ret.
        -- apply IH. rewrite <- Hb. f_equal. f_equal. lia.
Qed.

Lemma background_total (messages : list AGUIMessage) (fuel : nat) :
  JS.lt (JS.of_nat fuel) (run_maxPollAttempts run) = false ->
  total (background env messages run fuel).
Proof.
  intros Hb. unfold background. apply total_finally.
  - apply total_catch.
    + unfold tryBlock.
      destruct (List.length (filter (fun m => Role_eqb (role m) user) messages)
                =? 0)%nat.
      * apply total_emit_built.
      * apply total_bind; [apply total_sendMessage|]. intros _.
        apply total_bind; [apply total_emit_built|]. intros _.
        apply total_bind; [apply pollLoop_total; exact Hb|].
        intros [lastState pollCount].
        destruct (JS.ge (JS.of_nat pollCount) (run_maxPollAttempts run)
                  && negb (includes TERMINAL_STATES lastState));
          [apply total_emit_built | apply total_ret].
    + intros e. apply total_catch; [apply total_emit_built|].
      intros _. apply total_ret.
  - apply total_catch; [apply total_close|]. intros _. apply total_ret.
Qed.

End Totality.

(** With a finite attempt budget [±num/den], [num] units of fuel are
    enough: the background task then ends normally. *)
Theorem run_completes_within_finite_budget
    (env : Env) (config : BridgeConfig) (fuel : nat) (body : AGUIRunRequest)
    (run : Run) (bg : Completion unit) (final : World)
    (s : bool) (num : N) (den : positive) :
  handleAGUIRun env config fuel (Some body) = Streamed run bg final ->
  run_maxPollAttempts run = JS.Finite s num den ->
  N.to_nat num <= fuel ->
  bg = Normal tt.
Proof.
  intros H Hmax Hfuel.
  destruct (handleAGUIRun_streamed _ _ _ _ _ _ _ H)
    as (threadId & messages & w2 & _ & _ & _ & _ & _ & _ & _ & _ & _ & _
        & Hbg & _).
  assert (Hb : JS.lt (JS.of_nat fuel) (run_maxPollAttempts run) = false).
  { destruct (JS.lt (JS.of_nat fuel) (run_maxPollAttempts run)) eqn:E; auto.
    apply (JS_lt_of_nat_mono _ _ _ Hfuel) in E.
    rewrite Hmax, JS_lt_of_nat_bounded in E. discriminate. }
  pose proof (background_total env run messages fuel Hb w2) as Ht.
  pose proof (background_never_throws env messages run fuel w2) as Hn.
  rewrite Hbg in Ht, Hn. cbn [fst] in Ht, Hn.
  destruct bg as [[]|e|]; [reflexivity | | congruence].
  exfalso. apply (Hn e). reflexivity.
Qed.

(** With the consumer there and an attempt budget that is not [NaN], a
    run that completes has sent exactly one terminal event, as its last
    event, and has closed the stream. *)
Theorem terminal_event_when_budget_is_a_number
    (env : Env) (config : BridgeConfig) (fuel : nat) (body : AGUIRunRequest)
    (run : Run) (final : World) :
  writeLimit env = None ->
  JS.is_nan (run_maxPollAttempts run) = false ->
  handleAGUIRun env config fuel (Some body) = Streamed run (Normal tt) final ->
  writer final = Closed /\ one_terminal_last (delivered final).
Proof.
  intros Hsink Hnan H.
  destruct (handleAGUIRun_streamed _ _ _ _ _ _ _ H)
    as (threadId & messages & w2 & _ & _ & _ & _ & _ & _ & _ & _ & _ & _
        & Hbg & Hd & Hw & _).
  apply (background_ok env run Hsink messages fuel w2 Hnan); [|exact Hbg].
  split; [exact Hw|]. rewrite Hd. constructor.
Qed.

(** ** The budget of whole-number milliseconds *)

Lemma pow2_add (x y z : Z) :
  (0 <= x)%Z -> (0 <= y)%Z -> (z = x + y)%Z -> (2 ^ z = 2 ^ x * 2 ^ y)%Z.
Proof. intros Hx Hy ->. apply Z.pow_add_r; assumption. Qed.

Lemma log2_quotient_spec (a b : positive) :
  let fl := JS.log2_quotient a b in
  (Zpos b * 2 ^ Z.max 0 fl <= Zpos a * 2 ^ Z.max 0 (- fl))%Z /\
  (Zpos a * 2 ^ Z.max 0 (- (fl + 1)) < Zpos b * 2 ^ Z.max 0 (fl + 1))%Z.
Proof.
  cbv zeta. unfold JS.log2_quotient.
  pose proof (Z.log2_spec (Zpos a) eq_refl) as [Ha1 Ha2].
  pose proof (Z.log2_spec (Zpos b) eq_refl) as [Hb1 Hb2].
  pose proof (Z.log2_nonneg (Zpos a)) as Hla.
  pose proof (Z.log2_nonneg (Zpos b)) as Hlb.
  set (la := Z.log2 (Zpos a)) in *. set (lb := Z.log2 (Zpos b)) in *.
  rewrite Z.pow_succ_r in Ha2, Hb2 by assumption.
  assert (Hpa : (0 < 2 ^ la)%Z) by (apply Z.pow_pos_nonneg; lia).
  assert (Hpb : (0 < 2 ^ lb)%Z) by (apply Z.pow_pos_nonneg; lia).
  destruct (Z.leb_spec (Zpos b * 2 ^ Z.max 0 (la - lb))
                       (Zpos a * 2 ^ Z.max 0 (- (la - lb)))) as [H|H].
  - split; [exact H|].
    destruct (Z.le_gt_cases lb la) as [Hl|Hl].
    + replace (Z.max 0 (- (la - lb + 1))) with 0%Z by lia.
      replace (Z.max 0 (la - lb + 1)) with (la - lb + 1)%Z by lia.
      rewrite Z.pow_0_r.
      pose proof (pow2_add (la - lb) lb la ltac:(lia) ltac:(lia) ltac:(lia)) as E.
      pose proof (pow2_add (la - lb) 1 (la - lb + 1) ltac:(lia) ltac:(lia)
                    ltac:(lia)) as E'.
      change (2 ^ 1)%Z with 2%Z in E'.
      assert (Hp : (0 < 2 ^ (la - lb))%Z) by (apply Z.pow_pos_nonneg; lia).
      nia.
    + replace (Z.max 0 (- (la - lb + 1))) with (lb - la - 1)%Z by lia.
      replace (Z.max 0 (la - lb + 1)) with 0%Z by lia.
      rewrite Z.pow_0_r.
      pose proof (pow2_add (lb - la - 1) la (lb - 1) ltac:(lia) ltac:(lia)
                    ltac:(lia)) as E.
      pose proof (pow2_add (lb - 1) 1 lb ltac:(lia) ltac:(lia) ltac:(lia)) as E'.
      change (2 ^ 1)%Z with 2%Z in E'.
      assert (Hp : (0 < 2 ^ (lb - la - 1))%Z) by (apply Z.pow_pos_nonneg; lia).
      nia.
  - replace (la - lb - 1 + 1)%Z with (la - lb)%Z by lia.
    split; [|exact H].
    destruct (Z.lt_ge_cases lb la) as [Hl|Hl].
    + replace (Z.max 0 (- (la - lb - 1))) with 0%Z by lia.
      replace (Z.max 0 (la - lb - 1)) with (la - lb - 1)%Z by lia.
      rewrite Z.pow_0_r.
      pose proof (pow2_add (la - lb - 1) lb (la - 1) ltac:(lia) ltac:(lia)
                    ltac:(lia)) as E.
      pose proof (pow2_add (la - 1) 1 la ltac:(lia) ltac:(lia) ltac:(lia)) as E'.
      change (2 ^ 1)%Z with 2%Z in E'.
      assert (Hp : (0 < 2 ^ (la - lb - 1))%Z) by (apply Z.pow_pos_nonneg; lia).
      nia.
    + replace (Z.max 0 (- (la - lb - 1))) with (lb - la + 1)%Z by lia.
      replace (Z.max 0 (la - lb - 1)) with 0%Z by lia.
      rewrite Z.pow_0_r.
      pose proof (pow2_add (lb - la) la lb ltac:(lia) ltac:(lia) ltac:(lia)) as E.
      pose proof (pow2_add (lb - la) 1 (lb - la + 1) ltac:(lia) ltac:(lia)
                    ltac:(lia)) as E'.
      change (2 ^ 1)%Z with 2%Z in E'.
      assert (Hp : (0 < 2 ^ (lb - la))%Z) by (apply Z.pow_pos_nonneg; lia).
      nia.
Qed.

(** Rounding to nearest at weight [1/P] does not move a quotient [a/b]
    across a whole number, when [b < 2P]. *)
Lemma rounded_quotient_ceiling (a b P q' : Z) :
  (0 < a)%Z -> (0 < b)%Z -> (0 < P)%Z -> (b < 2 * P)%Z ->
  q' = (if (b <? 2 * ((a * P) mod b))%Z
           || ((b =? 2 * ((a * P) mod b))%Z && Z.odd ((a * P) / b))
        then (a * P) / b + 1 else (a * P) / b)%Z ->
  ((q' + P - 1) / P = (a + b - 1) / b)%Z.
Proof.
  intros Ha Hb HP HbP ->.
  pose proof (Z.div_mod (a * P) b ltac:(lia)) as Hdm.
  pose proof (Z.mod_pos_bound (a * P) b Hb) as Hr.
  set (q := (a * P / b)%Z) in *. set (r := ((a * P) mod b)%Z) in *.
  pose proof (Z.div_mod (a + b - 1) b ltac:(lia)) as Hk.
  pose proof (Z.mod_pos_bound (a + b - 1) b Hb) as Hkr.
  set (k := ((a + b - 1) / b)%Z) in *.
  set (m := ((a + b - 1) mod b)%Z) in *.
  assert (Hk1 : ((k - 1) * b < a)%Z) by nia.
  assert (Hk2 : (a <= k * b)%Z) by nia.
  assert (Hq : (0 <= q)%Z) by (apply Z.div_pos; nia).
  symmetry.
  apply Z.div_unique
    with (r := ((if (b <? 2 * r)%Z || (b =? 2 * r)%Z && Z.odd q
                 then q + 1 else q) + P - 1 - P * k)%Z); [|lia].
  left.
  assert (Hup : (q * b <= k * P * b)%Z) by nia.
  assert (Hqk : (q <= k * P)%Z) by nia.
  destruct ((b <? 2 * r)%Z || (b =? 2 * r)%Z && Z.odd q) eqn:Eround.
  - assert (Hr0 : (0 < r)%Z).
    { apply orb_prop in Eround. destruct Eround as [E|E].
      - apply Z.ltb_lt in E. lia.
      - apply andb_prop in E. destruct E as [E _]. apply Z.eqb_eq in E. lia. }
    assert (Hlt : (q < k * P)%Z) by nia.
    assert (Hlow : ((k - 1) * P <= q)%Z) by nia.
    lia.
  - assert (Hnr : (2 * r <= b)%Z).
    { apply orb_false_elim in Eround. destruct Eround as [E _].
      apply Z.ltb_ge in E. exact E. }
    assert (Hlow : ((k - 1) * P < q)%Z).
    { destruct (Z.lt_ge_cases ((k - 1) * P) q) as [|Hc]; [assumption|].
      exfalso. assert (P <= r)%Z by nia. lia. }
    lia.
Qed.

(** For whole numbers of milliseconds below 2^53, the budget
    [Math.ceil(t / p)] is the ceiling of the exact quotient. *)
Lemma ceil_div_integers (t p : positive) :
  (Npos t < 2 ^ 53)%N -> (Npos p < 2 ^ 53)%N ->
  JS.ceil (JS.div (JS.Finite false (Npos t) 1) (JS.Finite false (Npos p) 1))
  = JS.Finite false ((Npos t + Npos p - 1) / Npos p) 1.
Proof.
  intros Ht Hp.
  cbv beta iota delta [JS.div xorb]. rewrite Pos.mul_1_r, Pos.mul_1_l.
  assert (Ht' : (Zpos t < 2 ^ 53)%Z) by lia.
  assert (Hp' : (Zpos p < 2 ^ 53)%Z) by lia.
  pose proof (log2_quotient_spec t p) as [H1 H2]. cbv zeta in H1, H2.
  unfold JS.round_double.
  set (fl := JS.log2_quotient t p) in *.
  assert (Hfl1 : (fl <= 52)%Z).
  { destruct (Z.le_gt_cases fl 52) as [|Hc]; [assumption|]. exfalso.
    replace (Z.max 0 fl) with fl in H1 by lia.
    replace (Z.max 0 (- fl)) with 0%Z in H1 by lia.
    rewrite Z.pow_0_r in H1.
    pose proof (pow2_add 53 (fl - 53) fl ltac:(lia) ltac:(lia) ltac:(lia)) as E.
    assert (0 < 2 ^ (fl - 53))%Z by (apply Z.pow_pos_nonneg; lia).
    nia. }
  assert (Hfl2 : (-54 <= fl)%Z).
  { destruct (Z.le_gt_cases (-54) fl) as [|Hc]; [assumption|]. exfalso.
    replace (Z.max 0 (fl + 1)) with 0%Z in H2 by lia.
    replace (Z.max 0 (- (fl + 1))) with (- fl - 1)%Z in H2 by lia.
    rewrite Z.pow_0_r in H2.
    pose proof (pow2_add 53 (- fl - 54) (- fl - 1) ltac:(lia) ltac:(lia)
                  ltac:(lia)) as E.
    assert (0 < 2 ^ (- fl - 54))%Z by (apply Z.pow_pos_nonneg; lia).
    nia. }
  replace (Z.max (fl - 52) (-1074)) with (fl - 52)%Z by lia.
  replace (Z.max 0 (fl - 52)) with 0%Z by lia.
  replace (Z.max 0 (- (fl - 52))) with (52 - fl)%Z by lia.
  rewrite Z.pow_0_r, !Z.mul_1_r.
  set (P := (2 ^ (52 - fl))%Z).
  assert (HP : (0 < P)%Z) by (apply Z.pow_pos_nonneg; lia).
  assert (HP2 : (P <= 2 ^ 106)%Z) by (apply Z.pow_le_mono_r; lia).
  assert (Hnorm : (Zpos p * 2 ^ 52 <= Zpos t * P)%Z).
  { destruct (Z.le_gt_cases 0 fl).
    - replace (Z.max 0 fl) with fl in H1 by lia.
      replace (Z.max 0 (- fl)) with 0%Z in H1 by lia.
      rewrite Z.pow_0_r in H1.
      pose proof (pow2_add fl (52 - fl) 52 ltac:(lia) ltac:(lia) ltac:(lia)) as E.
      fold P in E. nia.
    - replace (Z.max 0 fl) with 0%Z in H1 by lia.
      replace (Z.max 0 (- fl)) with (- fl)%Z in H1 by lia.
      rewrite Z.pow_0_r in H1.
      pose proof (pow2_add (- fl) 52 (52 - fl) ltac:(lia) ltac:(lia)
                    ltac:(lia)) as E.
      fold P in E.
      assert (0 < 2 ^ (- fl))%Z by (apply Z.pow_pos_nonneg; lia).
      nia. }
  assert (HbP : (Zpos p < 2 * P)%Z).
  { change (2 ^ 53)%Z with (2 * 2 ^ 52)%Z in Ht'. nia. }
  set (q' := if (Zpos p <? 2 * ((Zpos t * P) mod Zpos p))%Z
                || ((Zpos p =? 2 * ((Zpos t * P) mod Zpos p))%Z
                    && Z.odd (Zpos t * P / Zpos p))
             then (Zpos t * P / Zpos p + 1)%Z else (Zpos t * P / Zpos p)%Z).
  pose proof (rounded_quotient_ceiling (Zpos t) (Zpos p) P q'
                eq_refl eq_refl HP HbP eq_refl) as Hceil.
  assert (Hq0 : (0 <= Zpos t * P / Zpos p)%Z) by (apply Z.div_pos; nia).
  assert (Hq1 : (Zpos t * P / Zpos p <= Zpos t * P)%Z).
  { apply Z.div_le_upper_bound; nia. }
  assert (Hq' : (0 <= q' <= Zpos t * P + 1)%Z).
  { subst q'. destruct (_ || _); lia. }
  assert (Hbig : (2 ^ 1024 <=? q')%Z = false).
  { apply Z.leb_gt.
    assert (Zpos t * P + 1 < 2 ^ 1024)%Z; [|lia].
    assert (Zpos t * P < 2 ^ 53 * 2 ^ 106)%Z by nia.
    assert (2 ^ 53 * 2 ^ 106 + 1 < 2 ^ 1024)%Z by (vm_compute; reflexivity).
    lia. }
  rewrite Hbig.
  cbv beta iota delta [JS.ceil]. f_equal.
  apply N2Z.inj. rewrite N2Z.inj_div, !N2Z.inj_sub, !N2Z.inj_add by lia.
  rewrite Z2N.id by lia.
  change (Z.of_N (N.pos (Z.to_pos P))) with (Zpos (Z.to_pos P)).
  rewrite Z2Pos.id by lia.
  rewrite N2Z.inj_div, N2Z.inj_sub, N2Z.inj_add by lia.
  exact Hceil.
Qed.

(* ================================================================= *)
(** * The claims of the specification *)

(** C1 at a request whose [polling_interval_ms] and [timeout_ms] are both
    [Infinity] (the JSON literals [1e999]): the attempt budget is
    [Infinity / Infinity = NaN], both [pollCount < maxPollAttempts] and
    [pollCount >= maxPollAttempts] are false, and the run, with the
    submit accepted and the consumer there, completes with a stream that
    holds [RUN_STARTED] alone: no terminal event before the close. *)
Theorem C1_nan_budget_no_terminal_event
    (env : Env) (config : BridgeConfig) (fuel : nat) (submitted : BinduTask) :
  writeLimit env = None ->
  (forall p, sendMessage env p = inr submitted) ->
  exists run final,
    handleAGUIRun env config fuel (Some infinite_config_request)
    = Streamed run (Normal tt) final /\
    run_maxPollAttempts run = JS.NaN /\
    map told (delivered final) = [(RUN_STARTED, NoPayload)] /\
    existsb is_terminal_event (delivered final) = false /\
    writer final = Closed.
Proof.
  intros Hsink Hsend.
  unfold handleAGUIRun, infinite_config_request.
  cbn -[background].
  unfold background, tryBlock.
  cbn -[pollLoop].
  assert (Hloop : forall r ls pc,
             run_maxPollAttempts r = JS.NaN ->
             pollLoop env r fuel ls pc = ret (ls, pc)).
  { intros r ls pc Hr. destruct fuel; cbn [pollLoop]; rewrite Hr;
      reflexivity. }
  rewrite Hloop by reflexivity.
  follow_run ltac:(first [ rewrite Hsend | rewrite Hsink ]).
  eexists _, _. split; [reflexivity|]. repeat split; reflexivity.
Qed.

Lemma C1_nan_budget_witness :
  exists run final,
    handleAGUIRun hello_env default_config 0 (Some infinite_config_request)
    = Streamed run (Normal tt) final /\
    run_maxPollAttempts run = JS.NaN /\
    map told (delivered final) = [(RUN_STARTED, NoPayload)] /\
    existsb is_terminal_event (delivered final) = false /\
    writer final = Closed.
Proof.
  apply (C1_nan_budget_no_terminal_event
           hello_env default_config 0
           (mkTask "run-1" "t1" "submitted" "2024-12-23T15:29:59Z" None));
    reflexivity.
Defined.

(** C2, as the code has it.  A request that lacks a non-empty
    [thread_id], or whose [messages] are missing or empty, is answered
    with a JSON error and status 400, and no stream is opened (hence no
    stream event reports the violation).  A request that has both but no
    message of role [user] is not rejected: the stream is opened and the
    violation is reported on it, as a [RUN_ERROR] event. *)
Theorem C2_validation_rejects_before_stream
    (env : Env) (config : BridgeConfig) (fuel : nat) (body : AGUIRunRequest) :
  (body_thread_id body = None \/ body_thread_id body = Some "" \/
   body_messages body = None \/ body_messages body = Some [] ->
   exists error,
     handleAGUIRun env config fuel (Some body) = Rejected error 400) /\
  (forall threadId messages,
     body_thread_id body = Some threadId -> threadId <> "" ->
     body_messages body = Some messages -> messages <> [] ->
     filter (fun m => Role_eqb (role m) user) messages = [] ->
     exists run final,
       handleAGUIRun env config fuel (Some body)
       = Streamed run (Normal tt) final /\
       (accepts env 0 = true ->
        map told (delivered final)
        = [(RUN_ERROR, ErrorPayload "No user messages to send" None)])).
Proof.
  split.
  - unfold handleAGUIRun.
    intros [H | [H | [H | H]]].
    + rewrite H. eexists. reflexivity.
    + rewrite H. eexists. reflexivity.
    + rewrite H. destruct (negb _); eexists; reflexivity.
    + rewrite H. destruct (negb _); eexists; reflexivity.
  - intros threadId messages Ht Hne Hm Hmne Hf.
    destruct (handle_no_user env config fuel body _ _ Ht Hne Hm Hmne Hf)
      as (run & final & Hh & _ & _ & Hacc).
    exists run, final. split; [exact Hh|].
    intros Ha. rewrite Ha in Hacc.
    destruct Hacc as (_ & ev & -> & Hev). simpl. rewrite Hev. reflexivity.
Qed.

Lemma C2_witness :
  (exists error,
     handleAGUIRun hello_env default_config 0
       (Some (mkRequest (Some "") None (Some [mkMessage user "hi"]) None))
     = Rejected error 400) /\
  (exists run final,
     handleAGUIRun hello_env default_config 0 (Some assistant_only_request)
     = Streamed run (Normal tt) final /\
     (accepts hello_env 0 = true ->
      map told (delivered final)
      = [(RUN_ERROR, ErrorPayload "No user messages to send" None)])).
Proof.
  split.
  - apply (proj1 (C2_validation_rejects_before_stream
                    hello_env default_config 0 _)).
    right. left. reflexivity.
  - apply (proj2 (C2_validation_rejects_before_stream
                    hello_env default_config 0 assistant_only_request)
             "t1" [mkMessage assistant "hi"]);
      try reflexivity; discriminate.
Defined.

(** C2 as stated fails: a request with a thread id and one [assistant]
    message is not rejected; the stream is opened and carries the
    violation as a [RUN_ERROR] event. *)
Lemma C2_counterexample :
  (forall error status,
     handleAGUIRun hello_env default_config 0 (Some assistant_only_request)
     <> Rejected error status) /\
  exists run final,
    handleAGUIRun hello_env default_config 0 (Some assistant_only_request)
    = Streamed run (Normal tt) final /\
    map told (delivered final)
    = [(RUN_ERROR, ErrorPayload "No user messages to send" None)].
Proof.
  split.
  - intros error status. vm_compute. discriminate.
  - eexists _, _. split; vm_compute; reflexivity.
Qed.

(** C3. A request that passes validation but has no message of role
    [user]: [sendMessage] is never called, no [RUN_STARTED] is emitted,
    the background task ends normally, and (the consumer being there to
    take the chunk) the stream holds exactly one event, the [RUN_ERROR]
    "No user messages to send", and is then closed. *)
Theorem C3_no_user_message_no_submit
    (env : Env) (config : BridgeConfig) (fuel : nat) (body : AGUIRunRequest)
    (threadId : string) (messages : list AGUIMessage) :
  body_thread_id body = Some threadId -> threadId <> "" ->
  body_messages body = Some messages -> messages <> [] ->
  filter (fun m => Role_eqb (role m) user) messages = [] ->
  exists run final,
    handleAGUIRun env config fuel (Some body) = Streamed run (Normal tt) final /\
    sent final = [] /\
    Forall (fun e => event_type e <> RUN_STARTED) (delivered final) /\
    (accepts env 0 = true ->
     map told (delivered final)
     = [(RUN_ERROR, ErrorPayload "No user messages to send" None)] /\
     writer final = Closed).
Proof.
  intros Ht Hne Hm Hmne Hf.
  destruct (handle_no_user env config fuel body _ _ Ht Hne Hm Hmne Hf)
    as (run & final & Hh & Hs & _ & Hacc).
  exists run, final. split; [exact Hh|]. split; [exact Hs|].
  destruct (accepts env 0).
  - destruct Hacc as (Hc & ev & -> & Hev). split.
    + constructor; [|constructor]. unfold told in Hev. intros E.
      rewrite E in Hev. discriminate.
    + intros _. simpl. rewrite Hev. auto.
  - destruct Hacc as (_ & ->). split; [constructor | discriminate].
Qed.

Lemma C3_witness :
  exists run final,
    handleAGUIRun hello_env default_config 0 (Some assistant_only_request)
    = Streamed run (Normal tt) final /\
    sent final = [] /\
    Forall (fun e => event_type e <> RUN_STARTED) (delivered final) /\
    (accepts hello_env 0 = true ->
     map told (delivered final)
     = [(RUN_ERROR, ErrorPayload "No user messages to send" None)] /\
     writer final = Closed).
Proof.
  apply (C3_no_user_message_no_submit
           hello_env default_config 0 assistant_only_request
           "t1" [mkMessage assistant "hi"]);
    try reflexivity; discriminate.
Defined.

(** C4. The request [{thread_id: "t1", messages: [{role: "user",
    content: "hi"}]}]; the submit succeeds, the first poll answers
    [working], the second [completed] with one artifact of one text part
    "hello"; the consumer stays and the attempt budget allows a second
    poll (the default is 120).  The stream is then exactly RUN_STARTED,
    STATE_DELTA(working), STATE_DELTA(completed), TEXT_MESSAGE_START,
    TEXT_MESSAGE_CONTENT("hello"), TEXT_MESSAGE_END, RUN_FINISHED. *)
Theorem C4_hello_scenario
    (env : Env) (config : BridgeConfig) (fuel : nat)
    (submitted working completed : BinduTask) (artifact : BinduArtifact) :
  writeLimit env = None ->
  (forall p, sendMessage env p = inr submitted) ->
  (forall taskId, getTask env 0 taskId = inr working) ->
  status_state working = "working" ->
  (forall taskId, getTask env 1 taskId = inr completed) ->
  status_state completed = "completed" ->
  artifacts completed = Some [artifact] ->
  parts artifact = [mkPart KindText (Some "hello")] ->
  JS.lt (JS.of_nat 1) (maxPollAttempts config) = true ->
  2 <= fuel ->
  exists run final,
    handleAGUIRun env config fuel (Some hi_request)
    = Streamed run (Normal tt) final /\
    map told (delivered final)
    = [(RUN_STARTED, NoPayload);
       (STATE_DELTA, DeltaPayload "working");
       (STATE_DELTA, DeltaPayload "completed");
       (TEXT_MESSAGE_START, MessageStartPayload (randomUUID env 2) "assistant");
       (TEXT_MESSAGE_CONTENT, MessageContentPayload (randomUUID env 2) "hello");
       (TEXT_MESSAGE_END, MessageEndPayload (randomUUID env 2));
       (RUN_FINISHED, NoPayload)].
Proof.
  intros Hsink Hsend Hg0 Hs0 Hg1 Hs1 Harts Hparts Hmax Hfuel.
  assert (Hmax0 : JS.lt (JS.of_nat 0) (maxPollAttempts config) = true)
    by (apply JS_lt_of_nat_mono with (b := 1); auto).
  pose proof (JS_lt_not_ge _ _ Hmax) as Hge.
  destruct fuel as [|[|fuel]]; try lia.
  unfold handleAGUIRun, hi_request.
  cbn -[JS.lt JS.ge JS.of_nat background].
  unfold background, tryBlock.
  cbn -[JS.lt JS.ge JS.of_nat pollLoop]. cbn [pollLoop].
  follow_run ltac:(first
    [ rewrite Hsend | rewrite Hg0 | rewrite Hg1 | rewrite Hs0 | rewrite Hs1
    | rewrite Harts | rewrite Hparts | rewrite Hmax0 | rewrite Hmax
    | rewrite Hge | rewrite Hsink ]).
  eexists _, _. split; reflexivity.
Qed.

Lemma C4_witness :
  exists run final,
    handleAGUIRun hello_env default_config 2 (Some hi_request)
    = Streamed run (Normal tt) final /\
    map told (delivered final)
    = [(RUN_STARTED, NoPayload);
       (STATE_DELTA, DeltaPayload "working");
       (STATE_DELTA, DeltaPayload "completed");
       (TEXT_MESSAGE_START, MessageStartPayload "uuid-2" "assistant");
       (TEXT_MESSAGE_CONTENT, MessageContentPayload "uuid-2" "hello");
       (TEXT_MESSAGE_END, MessageEndPayload "uuid-2");
       (RUN_FINISHED, NoPayload)].
Proof.
  apply (C4_hello_scenario
           hello_env default_config 2
           (mkTask "run-1" "t1" "submitted" "2024-12-23T15:29:59Z" None)
           working_task hello_task
           (mkArtifact "artifact-1" [mkPart KindText (Some "hello")]));
    reflexivity.
Defined.

(** C5. For every run, at every point of it: a poll that observes a
    terminal state is the last status query made; a terminal state is
    announced by no delta but the last; the states announced by the
    STATE_DELTA events are, in order, polled states that differ from the
    last-observed state (initially "submitted"); so no delta repeats the
    state before it. *)
Theorem C5_polling_stops_and_deltas_are_changes
    (env : Env) (config : BridgeConfig) (fuel : nat) (body : AGUIRunRequest)
    (run : Run) (bg : Completion unit) (final : World) :
  handleAGUIRun env config fuel (Some body) = Streamed run bg final ->
  stops_at_terminal env (run_taskId run) 0 (List.length (queried final)) /\
  terminal_only_last (deltas (delivered final)) /\
  prefix (deltas (delivered final))
         (changes "submitted"
            (polled_from env (run_taskId run) 0 (List.length (queried final)))) /\
  no_repeat "submitted" (deltas (delivered final)).
Proof.
  intros H.
  destruct (handleAGUIRun_streamed _ _ _ _ _ _ _ H)
    as (threadId & messages & w2 & _ & _ & _ & _ & _ & _ & _ & _ & _ & _
        & Hbg & Hd & _ & _ & Hq).
  assert (Ho : obs w2 = (0, [])) by (unfold obs; rewrite Hd, Hq; reflexivity).
  pose proof (background_advances env run messages fuel w2 Ho) as Hadv.
  rewrite Hbg in Hadv. cbn [snd] in Hadv.
  destruct Hadv as (k & ds & Hn & Hs & Hp & Hstop & Hlast).
  unfold obs in Hn, Hs. cbn [fst snd] in Hn, Hs, Hp, Hstop.
  cbn [Nat.add app] in Hn, Hs. rewrite Hn, Hs.
  repeat split; auto.
  eapply no_repeat_prefix; [exact Hp | apply no_repeat_changes].
Qed.

Lemma C5_witness :
  stops_at_terminal hello_env (run_taskId hello_run) 0
                    (List.length (queried hello_final)) /\
  terminal_only_last (deltas (delivered hello_final)) /\
  prefix (deltas (delivered hello_final))
         (changes "submitted"
            (polled_from hello_env (run_taskId hello_run) 0
                         (List.length (queried hello_final)))) /\
  no_repeat "submitted" (deltas (delivered hello_final)).
Proof.
  refine (C5_polling_stops_and_deltas_are_changes
            hello_env default_config 2 hi_request
            hello_run (Normal tt) hello_final _).
  vm_compute. reflexivity.
Defined.

(** C6, as the code has it.  The poll interval of a run is the request's
    [config.polling_interval_ms] when supplied, else the process default.
    The maximum number of poll attempts is
    [ceil(timeout_ms / pollIntervalMs)], the quotient being the binary64
    one, when the request supplies a [timeout_ms] that is truthy (neither
    zero nor [NaN]); for whole numbers of milliseconds below 2^53 that is
    the ceiling of the exact quotient.  With no [timeout_ms], or a falsy
    one, the maximum number of attempts is the process default. *)
Theorem C6_polling_configuration
    (env : Env) (config : BridgeConfig) (fuel : nat) (body : AGUIRunRequest)
    (run : Run) (bg : Completion unit) (final : World) :
  handleAGUIRun env config fuel (Some body) = Streamed run bg final ->
  (forall p, config_field (body_config body) polling_interval_ms = Some p ->
             run_pollIntervalMs run = p) /\
  (config_field (body_config body) polling_interval_ms = None ->
   run_pollIntervalMs run = pollIntervalMs config) /\
  (forall t, config_field (body_config body) timeout_ms = Some t ->
             JS.truthy t = true ->
             run_maxPollAttempts run
             = JS.ceil (JS.div t (run_pollIntervalMs run))) /\
  (forall t p : positive,
     config_field (body_config body) timeout_ms
     = Some (JS.Finite false (Npos t) 1) ->
     run_pollIntervalMs run = JS.Finite false (Npos p) 1 ->
     (Npos t < 2 ^ 53)%N -> (Npos p < 2 ^ 53)%N ->
     run_maxPollAttempts run
     = JS.Finite false ((Npos t + Npos p - 1) / Npos p) 1) /\
  (forall t, config_field (body_config body) timeout_ms = Some t ->
             (t = JS.NaN \/ exists s d, t = JS.Finite s 0 d) ->
             run_maxPollAttempts run = maxPollAttempts config) /\
  (config_field (body_config body) timeout_ms = None ->
   run_maxPollAttempts run = maxPollAttempts config).
Proof.
  intros H.
  destruct (handleAGUIRun_streamed _ _ _ _ _ _ _ H)
    as (threadId & messages & w2 & _ & _ & _ & _ & _ & _ & _ & _ & Hp & Hm & _).
  rewrite Hm, Hp. unfold resolve_maxPollAttempts.
  split; [|split; [|split; [|split; [|split]]]].
  - unfold resolve_pollIntervalMs. intros p ->. reflexivity.
  - unfold resolve_pollIntervalMs. intros ->. reflexivity.
  - intros t -> ->. reflexivity.
  - intros t p -> -> Ht Hp'.
    change (JS.truthy (JS.Finite false (N.pos t) 1)) with true. cbv iota.
    apply ceil_div_integers; assumption.
  - intros t -> Hz. apply JS_truthy_false in Hz. rewrite Hz. reflexivity.
  - intros ->. reflexivity.
Qed.

(** At [timeout_ms: 3] with [polling_interval_ms: 0.6] the budget is 5:
    the exact quotient of 3 by the binary64 value of 0.6 is a little
    above 5 and is rounded to 5.  At [timeout_ms: 1000] with
    [polling_interval_ms: 300] the budget is 4. *)
Lemma C6_witness :
  (run_pollIntervalMs fractional_run = six_tenths /\
   run_maxPollAttempts fractional_run = JS.Finite false 5 1) /\
  (run_pollIntervalMs whole_run = JS.Finite false 300 1 /\
   run_maxPollAttempts whole_run = JS.Finite false 4 1).
Proof.
  assert (Hf : handleAGUIRun hello_env default_config 2
                 (Some fractional_config_request)
               = Streamed fractional_run (Normal tt) fractional_final)
    by (vm_compute; reflexivity).
  assert (Hw : handleAGUIRun hello_env default_config 2
                 (Some whole_config_request)
               = Streamed whole_run (Normal tt) whole_final)
    by (vm_compute; reflexivity).
  split; split.
  - apply (proj1 (C6_polling_configuration _ _ _ _ _ _ _ Hf)). reflexivity.
  - rewrite (proj1 (proj2 (proj2 (C6_polling_configuration _ _ _ _ _ _ _ Hf)))
               (JS.Finite false 3 1) eq_refl eq_refl).
    vm_compute. reflexivity.
  - apply (proj1 (C6_polling_configuration _ _ _ _ _ _ _ Hw)). reflexivity.
  - rewrite (proj1 (proj2 (proj2 (proj2
               (C6_polling_configuration _ _ _ _ _ _ _ Hw))))
               1000%positive 300%positive eq_refl eq_refl eq_refl eq_refl).
    vm_compute. reflexivity.
Defined.

(** C6 as stated fails: the request supplies [timeout_ms: 0], and the
    run's maximum number of attempts is the default 120, not
    [ceil(0 / 500) = 0]. *)
Lemma C6_counterexample :
  exists run bg final,
    handleAGUIRun hello_env default_config 2 (Some zero_timeout_request)
    = Streamed run bg final /\
    config_field (body_config zero_timeout_request) timeout_ms
    = Some (JS.Finite false 0 1) /\
    run_maxPollAttempts run = JS.Finite false 120 1 /\
    JS.ceil (JS.div (JS.Finite false 0 1) (run_pollIntervalMs run))
    = JS.Finite false 0 1 /\
    run_maxPollAttempts run
    <> JS.ceil (JS.div (JS.Finite false 0 1) (run_pollIntervalMs run)).
Proof.
  eexists _, _, _. split; [vm_compute; reflexivity|].
  repeat split; try reflexivity. vm_compute. discriminate.
Qed.

(** C7. For every run and every event on its stream, the event's
    [thread_id] is the run's resolved [threadId] (the request's
    [thread_id]) and its [run_id] is the run's resolved [taskId]
    ([body.run_id || crypto.randomUUID()]).  This holds whatever the
    remote agent and the consumer do, and at every point of the run. *)
Theorem C7_events_carry_run_identifiers
    (env : Env) (config : BridgeConfig) (fuel : nat)
    (body : AGUIRunRequest) (run : Run) (bg : Completion unit)
    (final : World) :
  handleAGUIRun env config fuel (Some body) = Streamed run bg final ->
  body_thread_id body = Some (run_threadId run) /\
  run_taskId run = fst (resolve_taskId env body fresh) /\
  Forall (fun e => thread_id (base_of e) = run_threadId run /\
                   run_id (base_of e) = run_taskId run)
         (delivered final).
Proof.
  intros H.
  destruct (handleAGUIRun_streamed _ _ _ _ _ _ _ H)
    as (threadId & messages & w2 & Ht & _ & _ & _ & Hrt & Hid & _ & _ & _ & _
        & Hbg & Hd & _).
  split; [congruence|]. split; [exact Hid|].
  pose proof (inv_final _ _ w2 (stamped_background env run messages fuel)) as Hf.
  rewrite Hbg in Hf. apply Hf.
  unfold all_stamped. rewrite Hd. constructor.
Qed.

Lemma C7_witness :
  Forall (fun e => thread_id (base_of e) = run_threadId hello_run /\
                   run_id (base_of e) = run_taskId hello_run)
         (delivered hello_final).
Proof.
  refine (proj2 (proj2 (C7_events_carry_run_identifiers
                          hello_env default_config 2 hi_request
                          hello_run (Normal tt) hello_final _))).
  vm_compute. reflexivity.
Defined.

(** C8, as the code has it.  The sink's [close] is [writer.close()]: it
    closes a writable stream and it rejects, with the writer's error, on
    a stream that was closed before or that a failed write has errored.
    The handler calls it inside [try]/[catch] in its [finally] block, so
    the rejection stops there: the background task never ends by
    throwing. *)
Theorem C8_close_rejection_is_swallowed (env : Env) (w : World) :
  (writer w = Writable ->
   fst (close env w) = Normal tt /\ writer (snd (close env w)) = Closed) /\
  (writer w <> Writable -> close env w = (Throw (closeError env), w)) /\
  (forall messages run fuel e,
     fst (background env messages run fuel w) <> Throw e).
Proof.
  unfold close, writer_close. repeat split.
  - rewrite H. reflexivity.
  - rewrite H. reflexivity.
  - intros H. destruct (writer w); congruence.
  - intros messages run fuel e. apply background_never_throws.
Qed.

Lemma C8_witness :
  (fst (close hello_env fresh) = Normal tt /\
   writer (snd (close hello_env fresh)) = Closed) /\
  close hello_env (snd (close hello_env fresh))
  = (Throw (closeError hello_env), snd (close hello_env fresh)).
Proof.
  split.
  - apply (proj1 (C8_close_rejection_is_swallowed hello_env fresh)).
    reflexivity.
  - apply (proj1 (proj2 (C8_close_rejection_is_swallowed
                           hello_env (snd (close hello_env fresh))))).
    discriminate.
Defined.

(** C8 as stated fails: [close] raises when it is called after a prior
    [close], and when it is called after a write has failed. *)
Lemma C8_counterexample :
  fst ((close hello_env ;; close hello_env) fresh)
  = Throw (closeError hello_env) /\
  fst ((try_catch (ev <- runStarted gone_env (mkBuilder "t1" "run-1") ;;
                   emit gone_env ev)
                  (fun _ => ret tt) ;;
        close gone_env) fresh)
  = Throw (closeError gone_env).
Proof. split; vm_compute; reflexivity. Qed.

(** C9. A request whose [run_id] is present but is the empty string is
    handled exactly as the same request without [run_id]: the handler's
    outcome is the same, the run's [taskId] is a fresh UUID (the first one
    drawn), and that UUID is the [run_id] of every event. *)
Theorem C9_empty_run_id_is_absent
    (env : Env) (config : BridgeConfig) (fuel : nat)
    (thread : option string) (messages : option (list AGUIMessage))
    (cfg : option RunConfig) :
  handleAGUIRun env config fuel (Some (mkRequest thread (Some "") messages cfg))
  = handleAGUIRun env config fuel (Some (mkRequest thread None messages cfg))
  /\
  forall run bg final,
    handleAGUIRun env config fuel
      (Some (mkRequest thread (Some "") messages cfg)) = Streamed run bg final ->
    run_taskId run = randomUUID env 0 /\
    Forall (fun e => run_id (base_of e) = randomUUID env 0) (delivered final).
Proof.
  split; [reflexivity|].
  intros run bg final H.
  destruct (handleAGUIRun_streamed _ _ _ _ _ _ _ H)
    as (threadId & msgs & w2 & _ & _ & _ & _ & _ & Hid & _ & _ & _ & _
        & Hbg & Hd & _).
  assert (Hu : run_taskId run = randomUUID env 0) by (rewrite Hid; reflexivity).
  split; [exact Hu|].
  pose proof (inv_final _ _ w2 (stamped_background env run msgs fuel)) as Hall.
  rewrite Hbg in Hall. unfold all_stamped in Hall. rewrite Hd in Hall.
  specialize (Hall (Forall_nil _)).
  eapply Forall_impl; [|exact Hall].
  intros e [_ He]. congruence.
Qed.

Lemma C9_witness :
  run_taskId hello_run = randomUUID hello_env 0 /\
  Forall (fun e => run_id (base_of e) = randomUUID hello_env 0)
         (delivered hello_final).
Proof.
  refine (proj2 (C9_empty_run_id_is_absent
                   hello_env default_config 2 (Some "t1")
                   (Some [mkMessage user "hi"]) None)
                hello_run (Normal tt) hello_final _).
  vm_compute. reflexivity.
Defined.

(** C10. Expanding a completed task's artifacts, with the consumer
    there: the events added to the stream are exactly one
    start/content/end triple for each part of kind [text] with a
    non-empty text, in artifact order, each triple under its own fresh
    message id; a [text] part without text or with the empty text, and
    every [file] or [data] part, adds nothing.  A task whose parts are
    all of that sort, and a task without artifacts, leaves the world as
    it was. *)
Theorem C10_only_text_parts_become_messages
    (env : Env) (events : AGUIEventBuilder) (task : BinduTask) (w : World) :
  (writeLimit env = None -> writer w = Writable ->
   exists w' new,
     emitArtifactsAsMessages env events task w = (Normal tt, w') /\
     delivered w' = delivered w ++ new /\
     map told new = expected_messages env (uuids w) (all_parts task)) /\
  (Forall textless (all_parts task) ->
   emitArtifactsAsMessages env events task w = (Normal tt, w)) /\
  (artifacts task = None \/ artifacts task = Some [] ->
   emitArtifactsAsMessages env events task w = (Normal tt, w)).
Proof.
  split; [|split].
  - intros Hs Hw.
    destruct (emitArtifacts_expected env events Hs task w Hw)
      as (w' & new & E & _ & Hd & Hx).
    exists w', new. auto.
  - apply emitArtifacts_textless.
  - intros [H | H]; unfold emitArtifactsAsMessages; rewrite H; reflexivity.
Qed.

Lemma C10_witness :
  (exists w' new,
     emitArtifactsAsMessages hello_env (mkBuilder "t1" "run-1") mixed_task fresh
     = (Normal tt, w') /\
     delivered w' = delivered fresh ++ new /\
     map told new
     = [(TEXT_MESSAGE_START, MessageStartPayload "uuid-0" "assistant");
        (TEXT_MESSAGE_CONTENT, MessageContentPayload "uuid-0" "a");
        (TEXT_MESSAGE_END, MessageEndPayload "uuid-0");
        (TEXT_MESSAGE_START, MessageStartPayload "uuid-1" "assistant");
        (TEXT_MESSAGE_CONTENT, MessageContentPayload "uuid-1" "b");
        (TEXT_MESSAGE_END, MessageEndPayload "uuid-1")]) /\
  emitArtifactsAsMessages hello_env (mkBuilder "t1" "run-1") working_task fresh
  = (Normal tt, fresh).
Proof.
  split.
  - apply (proj1 (C10_only_text_parts_become_messages
                    hello_env (mkBuilder "t1" "run-1") mixed_task fresh));
      reflexivity.
  - apply (proj2 (proj2 (C10_only_text_parts_become_messages
                    hello_env (mkBuilder "t1" "run-1") working_task fresh))).
    left. reflexivity.
Defined.

(* ================================================================= *)
(** * Further properties of the run handler *)

(** ** What the parts of the background task touch *)

Section Footprint.

Variable env : Env.
Variable run : Run.
Variable I : World -> Prop.

Hypothesis I_sleep : forall ms, inv I (sleep ms).
Hypothesis I_uuid : inv I (crypto_randomUUID env).
Hypothesis I_getTask : inv I (binduClient_getTask env (run_taskId run)).

(** The loop emits events of every type but [RUN_STARTED]; it submits
    nothing and does not close the stream. *)
Hypothesis I_emit :
  forall t pl, t <> RUN_STARTED ->
    inv I (ev <- built env (events run) t pl ;; emit env ev).

Lemma emitArtifacts_footprint (task : BinduTask) :
  inv I (emitArtifactsAsMessages env (events run) task).
Proof.
  unfold emitArtifactsAsMessages.
  destruct (artifacts task) as [[|a arts]|]; try apply inv_ret.
  apply inv_for_of. intros artifact. apply inv_for_of. intros part.
  unfold emitPart. destruct (text_bearing part); [|apply inv_ret].
  apply inv_bind; [apply I_uuid|]. intros msgId.
  repeat (apply inv_bind; [apply I_emit; discriminate|]; intros _).
  apply I_emit; discriminate.
Qed.

Lemma onTerminal_footprint (s : BinduTaskState) (task : BinduTask) :
  inv I (onTerminal env run s task).
Proof.
  unfold onTerminal.
  destruct (String.eqb s "completed").
  { apply inv_bind; [apply emitArtifacts_footprint|]. intros _.
    apply I_emit; discriminate. }
  destruct (String.eqb s "failed"); [apply I_emit; discriminate|].
  destruct (String.eqb s "canceled"); [apply I_emit; discriminate|].
  apply inv_ret.
Qed.

(** What follows a successful poll in one turn of the loop, but for the
    next turn. *)
Lemma pollLoop_footprint (fuel : nat) :
  forall lastState pollCount,
    inv I (pollLoop env run fuel lastState pollCount).
Proof.
  induction fuel as [|fuel IH]; intros lastState pollCount; cbn [pollLoop];
    destruct (JS.lt (JS.of_nat pollCount) (run_maxPollAttempts run));
    try apply inv_ret.
  - intros w H. exact H.
  - apply inv_bind; [apply I_sleep|]. intros _.
    apply inv_bind.
    + apply inv_catch.
      * apply inv_bind; [apply I_getTask|]. intros t. apply inv_ret.
      * intros e. apply inv_bind; [apply I_emit; discriminate|].
        intros _. apply inv_ret.
    + intros [currentTask|]; [|apply inv_ret].
      apply inv_bind.
      * destruct (negb (status_state currentTask =? lastState)%string);
          [|apply inv_ret].
        apply inv_bind; [apply I_emit; discriminate|]. intros _.
        apply inv_ret.
      * intros lastState'.
        destruct (includes TERMINAL_STATES (status_state currentTask)).
        -- apply inv_bind; [apply onTerminal_footprint|]. intros _.
           apply inv_ret.
        -- apply IH.
Qed.

(** After the loop: the timeout report, the [catch] block and the
    [finally] block. *)
Hypothesis I_close : inv I (close env).

Lemma after_loop_footprint (left : BinduTaskState * nat) :
  inv I (let '(lastState, pollCount) := left in
         if JS.ge (JS.of_nat pollCount) (run_maxPollAttempts run)
            && negb (includes TERMINAL_STATES lastState)
         then (ev <- runError env (events run) "Polling timeout" None ;;
               emit env ev)
         else ret tt).
Proof.
  destruct left as [lastState pollCount].
  destruct (JS.ge (JS.of_nat pollCount) (run_maxPollAttempts run)
            && negb (includes TERMINAL_STATES lastState));
    [apply I_emit; discriminate | apply inv_ret].
Qed.

Lemma catch_footprint (error : Thrown) :
  inv I (try_catch
           (ev <- runError env (events run) (message_or error "Unknown error")
                           None ;;
            emit env ev)
           (fun _ => ret tt)).
Proof.
  apply inv_catch; [apply I_emit; discriminate|]. intros _. apply inv_ret.
Qed.

Lemma finally_footprint : inv I (try_catch (close env) (fun _ => ret tt)).
Proof. apply inv_catch; [apply I_close|]. intros _. apply inv_ret. Qed.

(** The whole background task, given what its [try] block does. *)
Lemma background_from_tryBlock (messages : list AGUIMessage) (fuel : nat)
    (P : World -> Prop) :
  hoare P (tryBlock env messages run fuel) (fun _ => I) (fun _ => I) I ->
  forall w, P w -> I (snd (background env messages run fuel w)).
Proof.
  intros Ht w Hw.
  assert (H : hoare P (background env messages run fuel)
                    (fun _ => I) (fun _ => I) I).
  { unfold background. eapply hoare_finally.
    - eapply hoare_catch; [exact Ht|]. intros e. apply catch_footprint.
    - intros ?. apply finally_footprint.
    - intros ?. apply finally_footprint. }
  specialize (H w Hw).
  destruct (background env messages run fuel w) as [[[]|e|] w']; exact H.
Qed.

End Footprint.

(** ** Calls to the remote agent and the timer *)

Section Calls.

Variable env : Env.
Variable run : Run.

(** Emitting, drawing a UUID and closing make no call. *)
Lemma emit_built_calls {B}
    (v : list SendMessageParams -> list string -> list JS.number ->
         list Call -> B)
    (P : B -> Prop) (t : EventType) (pl : Payload) :
  inv (fun w => P (v (sent w) (queried w) (slept w) (journal w)))
      (ev <- built env (events run) t pl ;; emit env ev).
Proof. apply hoare_emit_built; intros w H; intros; exact H. Qed.

Lemma uuid_calls {B}
    (v : list SendMessageParams -> list string -> list JS.number ->
         list Call -> B)
    (P : B -> Prop) :
  inv (fun w => P (v
  (sent w) (queried w) (slept w) (journal w))) (crypto_randomUUID env).
Proof. intros w H. exact H. Qed.

Lemma close_calls {B}
    (v : list SendMessageParams -> list string -> list JS.number ->
         list Call -> B)
    (P : B -> Prop) :
  inv (fun w => P (v (sent w) (queried w) (slept w) (journal w))) (close env).
Proof.
  intros w H. unfold close, writer_close. destruct (writer w); exact H.
Qed.

Lemma sleep_keeps_sent (P : list SendMessageParams -> Prop) (ms : JS.number) :
  inv (fun w => P (sent w)) (sleep ms).
Proof. intros w H. exact H. Qed.

Lemma getTask_keeps_sent (P : list SendMessageParams -> Prop)
    (taskId : string) :
  inv (fun w => P (sent w)) (binduClient_getTask env taskId).
Proof.
  intros w H. unfold binduClient_getTask.
  destruct (getTask env (List.length (queried w)) taskId); exact H.
Qed.

Lemma background_submits_once (messages : list AGUIMessage) (fuel : nat)
    (w : World) :
  sent w = [] ->
  sent (snd (background env messages run fuel w))
  = match user_texts messages with
    | [] => []
    | _ => [submission messages run]
    end.
Proof.
  set (expected := match user_texts messages with
                   | [] => []
                   | _ => [submission messages run]
                   end).
  assert (Hnil : user_texts messages = [] -> expected = [])
    by (intros E; subst expected; rewrite E; reflexivity).
  assert (Hcons : user_texts messages <> [] ->
                  expected = [submission messages run])
    by (intros E; subst expected; destruct (user_texts messages); congruence).
  clearbody expected.
  set (Q := fun s : list SendMessageParams => s = expected).
  assert (Iemit : forall t pl,
             inv (fun w' => Q (sent w'))
                 (ev <- built env (events run) t pl ;; emit env ev)).
  { intros t pl. apply (emit_built_calls (fun s _ _ _ => s) Q). }
  intros Hw.
  apply (background_from_tryBlock env run (fun w' => Q (sent w'))
           (fun t pl _ => Iemit t pl)
           (close_calls (fun s _ _ _ => s) Q)
           messages fuel (fun w' => sent w' = [])); [|exact Hw].
  unfold tryBlock. fold (user_texts messages). fold (submission messages run).
  assert (Hlen : (List.length
                    (filter (fun m => Role_eqb (role m) user) messages) =? 0)%nat
                 = match user_texts messages with [] => true | _ => false end).
  { unfold user_texts.
    destruct (filter (fun m => Role_eqb (role m) user) messages); reflexivity. }
  rewrite Hlen.
  destruct (user_texts messages) as [|p ps] eqn:Hu.
  - eapply hoare_conseq; [apply (Iemit RUN_ERROR)|..]; auto.
    intros w' Hw'. unfold Q. rewrite Hw', Hnil; auto.
  - eapply hoare_bind with (N1 := fun _ w' => Q (sent w')).
    + intros w' Hw'. unfold binduClient_sendMessage, Q.
      rewrite Hcons by discriminate.
      destruct (sendMessage env (submission messages run));
        cbn [sent]; rewrite Hw'; reflexivity.
    + intros ?. apply inv_bind; [apply Iemit|]. intros ?.
      apply inv_bind.
      * apply pollLoop_footprint.
        -- intros ms. apply (sleep_keeps_sent Q).
        -- apply (uuid_calls (fun s _ _ _ => s) Q).
        -- apply (getTask_keeps_sent Q).
        -- intros t pl _. apply Iemit.
      * intros left. apply after_loop_footprint. intros t pl _. apply Iemit.
Qed.

Lemma turns_S (n : nat) :
  turns run (S n)
  = turns run n ++ [SleepCall (run_pollIntervalMs run)]
      ++ [GetTaskCall (run_taskId run)].
Proof.
  unfold turns. cbn [repeat]. rewrite repeat_cons, concat_app.
  cbn [List.concat app]. reflexivity.
Qed.

(** One turn of the loop makes one sleep and one poll, in that order, and
    only while the attempt count is below the budget. *)
Lemma pollLoop_polled_times (fuel : nat) :
  forall lastState pollCount,
    hoare (fun w => polled_times run pollCount (polls w))
          (pollLoop env run fuel lastState pollCount)
          (fun _ w' => exists n, polled_times run n (polls w'))
          (fun _ w' => exists n, polled_times run n (polls w'))
          (fun w' => exists n, polled_times run n (polls w')).
Proof.
  assert (Iemit : forall (P : _ -> Prop) t pl,
             inv (fun w' => P (polls w'))
                 (ev <- built env (events run) t pl ;; emit env ev)).
  { intros P t pl.
    apply (emit_built_calls (fun s q sl j => (s, q, sl, j)) P). }
  assert (Iuuid : forall (P : _ -> Prop),
             inv (fun w' => P (polls w')) (crypto_randomUUID env)).
  { intros P. apply (uuid_calls (fun s q sl j => (s, q, sl, j)) P). }
  assert (Hweak : forall A (c : M A) n,
             inv (fun w' => polled_times run n (polls w')) c ->
             hoare (fun w' => polled_times run n (polls w')) c
                   (fun _ w' => polled_times run n (polls w'))
                   (fun _ w' => exists n, polled_times run n (polls w'))
                   (fun w' => exists n, polled_times run n (polls w'))).
  { intros A c n Hc. eapply hoare_conseq; [exact Hc|..]; cbn beta; eauto. }
  induction fuel as [|fuel IH]; intros lastState pollCount; cbn [pollLoop];
    destruct (JS.lt (JS.of_nat pollCount) (run_maxPollAttempts run)) eqn:Hlt.
  - intros w H. exists pollCount. exact H.
  - apply hoare_ret. intros w H. exists pollCount. exact H.
  - eapply hoare_bind
      with (N1 := fun _ w' =>
                    queried w' = repeat (run_taskId run) pollCount /\
                    slept w' = repeat (run_pollIntervalMs run) (S pollCount) /\
                    journal w'
                    = map SendCall (sent w') ++ turns run pollCount
                        ++ [SleepCall (run_pollIntervalMs run)] /\
                    forall i, i < S pollCount ->
                      JS.lt (JS.of_nat i) (run_maxPollAttempts run) = true).
    { intros w (Hq & Hs & Hj & Hb). unfold sleep. cbn [polls fst snd] in *.
      cbn [queried slept journal sent]. split; [exact Hq|]. split; [|split].
      - rewrite Hs. symmetry. apply repeat_cons.
      - rewrite Hj, <- app_assoc. reflexivity.
      - intros i Hi. destruct (Nat.eq_dec i pollCount) as [->|Hne];
          [exact Hlt | apply Hb; lia]. }
    intros ?.
    eapply hoare_bind
      with (N1 := fun _ w' => polled_times run (S pollCount) (polls w')).
    { eapply hoare_catch
        with (T1 := fun _ w' => polled_times run (S pollCount) (polls w')).
      - intros w (Hq & Hs & Hj & Hb). unfold bind, binduClient_getTask, ret.
        assert (Hp : polled_times run (S pollCount)
                       (sent w, queried w ++ [run_taskId run], slept w,
                        journal w ++ [GetTaskCall (run_taskId run)])).
        { split; [|split; [|split]]; cbn [fst snd]; auto.
          - rewrite Hq. symmetry. apply repeat_cons.
          - rewrite Hj, turns_S, <- !app_assoc. reflexivity. }
        destruct (getTask env (List.length (queried w)) (run_taskId run));
          exact Hp.
      - intros e. eapply hoare_bind; [apply Hweak, Iemit|].
        intros ?. apply hoare_ret. auto. }
    intros [currentTask|]; cbn beta iota.
    2:{ apply hoare_ret. intros w H. exists (S pollCount). exact H. }
    eapply hoare_bind
      with (N1 := fun _ w' => polled_times run (S pollCount) (polls w')).
    { destruct (negb (status_state currentTask =? lastState)%string).
      - eapply hoare_bind; [apply Hweak, Iemit|].
        intros ?. apply hoare_ret. auto.
      - apply hoare_ret. auto. }
    intros lastState'.
    destruct (includes TERMINAL_STATES (status_state currentTask)).
    + eapply hoare_bind.
      * apply Hweak. apply onTerminal_footprint.
        -- apply (Iuuid (polled_times run (S pollCount))).
        -- intros t pl _. apply (Iemit (polled_times run (S pollCount))).
      * intros ?. apply hoare_ret. intros w H. exists (S pollCount). exact H.
    + apply IH.
  - apply hoare_ret. intros w H. exists pollCount. exact H.
Qed.

Lemma background_polled_times (messages : list AGUIMessage) (fuel : nat)
    (w : World) :
  sent w = [] -> queried w = [] -> slept w = [] -> journal w = [] ->
  exists n, polled_times run n (polls (snd (background env messages run fuel w))).
Proof.
  intros Hsent Hq Hs Hj.
  set (Q := fun c => exists n, polled_times run n c).
  assert (Iemit : forall (P : _ -> Prop) t pl,
             inv (fun w' => P (polls w'))
                 (ev <- built env (events run) t pl ;; emit env ev)).
  { intros P t pl.
    apply (emit_built_calls (fun s q sl j => (s, q, sl, j)) P). }
  apply (background_from_tryBlock env run (fun w' => Q (polls w'))
           (fun t pl _ => Iemit Q t pl)
           (close_calls (fun s q sl j => (s, q, sl, j)) Q)
           messages fuel
           (fun w' => polled_times run 0 (polls w'))).
  - unfold tryBlock.
    destruct (List.length (filter (fun m => Role_eqb (role m) user) messages)
              =? 0)%nat.
    + eapply hoare_conseq; [apply (Iemit Q RUN_ERROR)|..]; auto.
      intros w' H. exists 0. exact H.
    + eapply hoare_bind
        with (N1 := fun _ w' => polled_times run 0 (polls w')).
      { intros w' (H1 & H2 & H3 & H4). unfold binduClient_sendMessage.
        cbn [polls fst snd] in *.
        assert (Hp : polled_times run 0
                       (sent w' ++ [mkSend
                          (map (fun m => mkTextPart (content m))
                             (filter (fun m => Role_eqb (role m) user) messages))
                          (run_messageId run) (run_threadId run)
                          (run_taskId run)],
                        queried w', slept w',
                        journal w' ++ [SendCall (mkSend
                          (map (fun m => mkTextPart (content m))
                             (filter (fun m => Role_eqb (role m) user) messages))
                          (run_messageId run) (run_threadId run)
                          (run_taskId run))])).
        { split; [|split; [|split]]; cbn [fst snd]; auto.
          rewrite H3, map_app. unfold turns. cbn [repeat List.concat map].
          rewrite !app_nil_r. reflexivity. }
        destruct (sendMessage env _); [exists 0|]; exact Hp. }
      intros ?.
      eapply hoare_bind
        with (N1 := fun _ w' => polled_times run 0 (polls w')).
      { eapply hoare_conseq;
          [apply (Iemit (polled_times run 0))|..]; cbn beta; auto;
          intros; exists 0; assumption. }
      intros ?.
      eapply hoare_bind; [apply pollLoop_polled_times|].
      intros left. apply after_loop_footprint. intros t pl _. apply Iemit.
  - unfold polls. rewrite Hsent, Hq, Hs, Hj. repeat split.
    intros i Hi. inversion Hi.
Qed.

End Calls.

(** ** Where a run starts *)

(** The world in which the background task starts: nothing written, no
    call made, the clock not read; one or two UUIDs drawn. *)
Lemma handleAGUIRun_start (env : Env) (config : BridgeConfig) (fuel : nat)
    (body : AGUIRunRequest) (run : Run) (bg : Completion unit)
    (final : World) :
  handleAGUIRun env config fuel (Some body) = Streamed run bg final ->
  exists messages u,
    body_messages body = Some messages /\ messages <> [] /\
    background env messages run fuel (mkWorld [] Writable u 0 [] [] [] [])
    = (bg, final).
Proof.
  unfold handleAGUIRun.
  destruct (negb (JS.truthy_string (nullish (body_thread_id body) "")));
    [discriminate|].
  destruct (body_messages body) as [[|m messages]|]; try discriminate.
  unfold resolve_taskId, uuid_next, fresh.
  destruct (body_run_id body) as [r|]; [destruct (JS.truthy_string r)|];
    cbn [delivered writer uuids ticks sent queried slept];
    match goal with
    | |- context [background env ?ms ?r fuel ?w] =>
        destruct (background env ms r fuel w) as [bg' final'] eqn:E
    end;
    intros H; injection H as <- <- <-;
    eexists _, _; (split; [reflexivity|]); (split; [discriminate|]); exact E.
Qed.

(** ** The stream is not left open *)

Lemma background_closes (env : Env) (messages : list AGUIMessage) (run : Run)
    (fuel : nat) (w final : World) :
  background env messages run fuel w = (Normal tt, final) ->
  writer final = Closed \/ writer final = Errored.
Proof.
  intros E.
  assert (H : hoare (fun _ => True) (background env messages run fuel)
                    (fun _ w' => writer w' = Closed \/ writer w' = Errored)
                    (fun _ _ => True) (fun _ => True)).
  { unfold background.
    assert (Hf : forall (P : World -> Prop),
               hoare P (try_catch (close env) (fun _ => ret tt))
                     (fun _ w' => writer w' = Closed \/ writer w' = Errored)
                     (fun _ _ => True) (fun _ => True)).
    { intros P w' _. unfold try_catch, close, writer_close, ret.
      destruct (writer w') eqn:Ew; cbn [writer]; auto. }
    eapply hoare_finally with (N1 := fun _ _ => True) (T1 := fun _ _ => True).
    - apply hoare_any.
    - intros ?. apply Hf.
    - intros ?. apply hoare_any. }
  specialize (H w I). rewrite E in H. exact H.
Qed.

(** ** Timestamps *)

Lemma StronglySorted_snoc (l : list Z) (x : Z) :
  StronglySorted Z.le l -> Forall (fun y => (y <= x)%Z) l ->
  StronglySorted Z.le (l ++ [x]).
Proof.
  induction 1 as [|a l Hs IH Ha]; intros Hx; cbn [app].
  - constructor; constructor.
  - inversion Hx as [|? ? Hax Hlx]; subst. constructor; [apply IH; exact Hlx|].
    apply Forall_app. split; [exact Ha|]. constructor; [exact Hax|constructor].
Qed.

Section Clock.

Variable env : Env.
Variable run : Run.
Hypothesis clock_monotone :
  forall a b, a <= b -> (now env a <= now env b)%Z.

Lemma clocked_emit_built (t : EventType) (pl : Payload) :
  inv (clocked env) (ev <- built env (events run) t pl ;; emit env ev).
Proof.
  assert (Hstep : forall w (l : list Z),
             Forall (fun x => (x <= now env (ticks w))%Z) l ->
             Forall (fun x => (x <= now env (S (ticks w)))%Z) l).
  { intros w l. apply Forall_impl. intros x Hx.
    pose proof (clock_monotone (ticks w) (S (ticks w)) (Nat.le_succ_diag_r _)).
    lia. }
  apply hoare_emit_built; unfold clocked, timestamps;
    cbn [delivered ticks]; intros w [Hs Hb].
  - intros _ _. rewrite map_app. cbn [map event_at base_of timestamp]. split.
    + apply StronglySorted_snoc; assumption.
    + apply Forall_app. split; [apply Hstep; exact Hb|].
      constructor; [|constructor].
      apply clock_monotone. apply Nat.le_succ_diag_r.
  - intros _ _. split; [exact Hs | apply Hstep; exact Hb].
  - intros _. split; [exact Hs | apply Hstep; exact Hb].
Qed.

Lemma background_clocked (messages : list AGUIMessage) (fuel : nat)
    (w : World) :
  clocked env w -> clocked env (snd (background env messages run fuel w)).
Proof.
  assert (Hsend : forall p, inv (clocked env) (binduClient_sendMessage env p)).
  { intros p w' H. unfold binduClient_sendMessage.
    destruct (sendMessage env p); exact H. }
  assert (Hget : inv (clocked env) (binduClient_getTask env (run_taskId run))).
  { intros w' H. unfold binduClient_getTask.
    destruct (getTask env (List.length (queried w')) (run_taskId run)); exact H. }
  assert (Hclose : inv (clocked env) (close env)).
  { intros w' H. unfold close, writer_close. destruct (writer w'); exact H. }
  apply (background_from_tryBlock env run (clocked env)
           (fun t pl _ => clocked_emit_built t pl) Hclose).
  unfold tryBlock.
  destruct (List.length (filter (fun m => Role_eqb (role m) user) messages)
            =? 0)%nat.
  - apply clocked_emit_built.
  - apply inv_bind; [apply Hsend|]. intros ?.
    apply inv_bind; [apply clocked_emit_built|]. intros ?.
    apply inv_bind.
    + apply pollLoop_footprint.
      * intros ms w' H. exact H.
      * intros w' H. exact H.
      * exact Hget.
      * intros t pl _. apply clocked_emit_built.
    + intros left. apply after_loop_footprint.
      intros t pl _. apply clocked_emit_built.
Qed.

End Clock.

(** ** [RUN_STARTED] *)

Section Started.

Variable env : Env.
Variable run : Run.
Variable messages : list AGUIMessage.

Lemma started_emit_other (t : EventType) (pl : Payload) :
  t <> RUN_STARTED ->
  inv (started_after_submit env run messages) (ev <- built env (events run) t pl ;; emit env ev).
Proof.
  intros Ht. apply hoare_emit_built; unfold started_after_submit;
    cbn [delivered]; intros w [Hf Hh]; auto.
  intros _ _. destruct (delivered w) as [|x l] eqn:Ed; cbn [app tl] in *.
  - split; [constructor|]. intros e rest E Hs. injection E as <- _.
    unfold event_type, event_at in Hs. cbn in Hs. congruence.
  - split.
    + apply Forall_app. split; [exact Hf|]. constructor; [|constructor].
      unfold event_type, event_at. cbn. exact Ht.
    + intros e rest E Hs. injection E as <- _. apply (Hh x l eq_refl Hs).
Qed.

Lemma background_started (fuel : nat) (w : World) :
  delivered w = [] ->
  started_after_submit env run messages
    (snd (background env messages run fuel w)).
Proof.
  intros Hw.
  assert (Hclose : inv (started_after_submit env run messages) (close env)).
  { intros w' H. unfold close, writer_close. destruct (writer w'); exact H. }
  apply (background_from_tryBlock env run
           (started_after_submit env run messages)
           started_emit_other Hclose messages fuel
           (fun w' => delivered w' = [])); [|exact Hw].
  assert (Hnil : forall w', delivered w' = [] ->
                            started_after_submit env run messages w').
  { intros w' E. unfold started_after_submit, started_first. rewrite E.
    split; [constructor|]. intros e rest H. discriminate. }
  unfold tryBlock. fold (user_texts messages). fold (submission messages run).
  destruct (List.length (filter (fun m => Role_eqb (role m) user) messages)
            =? 0)%nat.
  - eapply hoare_conseq;
      [apply (started_emit_other RUN_ERROR); discriminate|..]; auto.
  - eapply hoare_bind
      with (N1 := fun _ w' =>
                    delivered w' = [] /\
                    exists t, sendMessage env (submission messages run) = inr t).
    { intros w' E. unfold binduClient_sendMessage.
      destruct (sendMessage env (submission messages run)) as [e|t] eqn:Es.
      - apply Hnil. exact E.
      - split; [exact E | eauto]. }
    intros ?.
    eapply hoare_bind
      with (N1 := fun _ => started_after_submit env run messages).
    { apply hoare_emit_built; intros w' [E Hs];
        unfold started_after_submit, started_first, ticked;
        cbn [delivered]; rewrite E; cbn [app tl].
      - intros _ _. split; [constructor|]. intros e rest _ _. exact Hs.
      - intros _ _. split; [constructor|]. discriminate.
      - intros _. split; [constructor|]. discriminate. }
    intros ?. apply inv_bind.
    + apply pollLoop_footprint.
      * intros ms w' H. exact H.
      * intros w' H. exact H.
      * intros w' H. unfold binduClient_getTask.
        destruct (getTask env (List.length (queried w')) (run_taskId run));
          exact H.
      * apply started_emit_other.
    + intros left. apply after_loop_footprint. apply started_emit_other.
Qed.

End Started.

(** ** How a run ends, the consumer being there *)

Lemma first_is_started_app (l l' : list AGUIEvent) :
  first_is_started l -> first_is_started (l ++ l').
Proof. intros (e & rest & -> & He). exists e, (rest ++ l'). auto. Qed.

Section Outcome.

Variable env : Env.
Variable run : Run.
Hypothesis consumer_stays : writeLimit env = None.

(** An emission that cannot fail. *)
Lemma sure_emit (t : EventType) (pl : Payload)
    (P : World -> Prop) (N : unit -> World -> Prop) :
  (forall w, P w -> writer w = Writable) ->
  (forall w, P w ->
     N tt (mkWorld (delivered w ++ [event_at env (events run) w t pl]) Writable
                   (uuids w) (S (ticks w))
                   (sent w) (queried w) (slept w) (journal w))) ->
  hoare P (ev <- built env (events run) t pl ;; emit env ev)
        N (fun _ _ => False) (fun _ => False).
Proof.
  intros Hw HN. apply hoare_emit_built.
  - intros w H _ _. apply HN; exact H.
  - intros w H _. unfold accepts. rewrite consumer_stays. discriminate.
  - intros w H Hne. apply Hne, Hw, H.
Qed.

Lemma sure_emit_other (t : EventType) (pl : Payload) (q : nat) :
  t <> RUN_FINISHED -> t <> RUN_ERROR ->
  hoare (polling q) (ev <- built env (events run) t pl ;; emit env ev)
        (fun _ => polling q) (fun _ _ => False) (fun _ => False).
Proof.
  intros Hf He. apply sure_emit.
  - intros w [[Hw _] _]. exact Hw.
  - intros w ([Hw Hn] & Hq & Hs). unfold polling, open_without_terminal.
    cbn [delivered writer queried]. repeat split; auto.
    + apply Forall_app. split; [exact Hn|]. constructor; [|constructor].
      unfold is_terminal_event, event_type, event_at. cbn.
      destruct t; congruence.
    + apply first_is_started_app. exact Hs.
Qed.

Lemma sure_emit_terminal (t : EventType) (pl : Payload) (q : nat) :
  t = RUN_FINISHED \/ t = RUN_ERROR ->
  hoare (polling q) (ev <- built env (events run) t pl ;; emit env ev)
        (fun _ => reported (t, pl) q) (fun _ _ => False) (fun _ => False).
Proof.
  intros Ht. apply sure_emit.
  - intros w [[Hw _] _]. exact Hw.
  - intros w ([Hw Hn] & Hq & Hs). unfold reported.
    cbn [delivered writer queried]. repeat split; auto.
    + eexists _, _. split; [reflexivity|]. split; [reflexivity | exact Hn].
    + apply first_is_started_app. exact Hs.
Qed.

Lemma sure_emitArtifacts (task : BinduTask) (q : nat) :
  hoare (polling q) (emitArtifactsAsMessages env (events run) task)
        (fun _ => polling q) (fun _ _ => False) (fun _ => False).
Proof.
  intros w ([Hw Hn] & Hq & Hs).
  destruct (emitArtifacts_expected env (events run) consumer_stays task w Hw)
    as (w' & new & E & Hw' & Hd & Hx).
  pose proof (emitArtifacts_footprint env run
                (fun w0 => List.length (queried w0) = q)
                (uuid_calls env (fun _ qs _ _ => qs)
                            (fun qs => List.length qs = q))
                (fun t pl _ =>
                   emit_built_calls env run (fun _ qs _ _ => qs)
                                    (fun qs => List.length qs = q) t pl)
                task w Hq) as Hq'.
  rewrite E in Hq' |- *. cbn beta iota in Hq'.
  repeat split; auto.
  - rewrite Hd. apply Forall_app. split; [exact Hn|].
    eapply expected_messages_no_terminal. exact Hx.
  - rewrite Hd. apply first_is_started_app. exact Hs.
Qed.

Lemma sure_onTerminal (s : BinduTaskState) (task : BinduTask) (q : nat) :
  includes TERMINAL_STATES s = true ->
  hoare (polling q) (onTerminal env run s task)
        (fun _ => reported (terminal_report s) q)
        (fun _ _ => False) (fun _ => False).
Proof.
  intros Hs. apply includes_terminal_cases in Hs.
  unfold onTerminal, terminal_report.
  destruct Hs as [-> | [-> | ->]]; cbn [String.eqb Ascii.eqb Bool.eqb].
  - eapply hoare_bind; [apply sure_emitArtifacts|]. intros ?.
    apply (sure_emit_terminal RUN_FINISHED NoPayload). auto.
  - apply (sure_emit_terminal RUN_ERROR). auto.
  - apply (sure_emit_terminal RUN_ERROR). auto.
Qed.

(** The poll, for a run that has made [q] polls. *)
Lemma sure_getTask (q : nat) (P : World -> Prop) :
  (forall w, P w -> List.length (queried w) = q) ->
  forall N T,
    (forall w t, P w -> getTask env q (run_taskId run) = inr t ->
       N t (mkWorld (delivered w) (writer w) (uuids w) (ticks w) (sent w)
                    (queried w ++ [run_taskId run]) (slept w)
                    (journal w ++ [GetTaskCall (run_taskId run)]))) ->
    (forall w e, P w -> getTask env q (run_taskId run) = inl e ->
       T e (mkWorld (delivered w) (writer w) (uuids w) (ticks w) (sent w)
                    (queried w ++ [run_taskId run]) (slept w)
                    (journal w ++ [GetTaskCall (run_taskId run)]))) ->
    hoare P (binduClient_getTask env (run_taskId run)) N T (fun _ => False).
Proof.
  intros Hq N T HN HT w Hw. unfold binduClient_getTask.
  rewrite (Hq w Hw).
  destruct (getTask env q (run_taskId run)) as [e|t] eqn:E; auto.
Qed.

Lemma polling_polled (q : nat) (w : World) :
  polling q w ->
  polling (S q) (mkWorld (delivered w) (writer w) (uuids w) (ticks w) (sent w)
                         (queried w ++ [run_taskId run]) (slept w)
                    (journal w ++ [GetTaskCall (run_taskId run)])).
Proof.
  intros (Ho & Hq & Hs). unfold polling, open_without_terminal in *.
  cbn [delivered writer queried]. rewrite length_app, Hq. cbn [List.length].
  repeat split; try tauto. lia.
Qed.

(** One turn of the loop whose poll answers with a state that is not
    terminal: the loop goes on with that state. *)
Lemma pollLoop_turn (fuel : nat) (lastState : BinduTaskState)
    (pollCount q : nat) (t : BinduTask) N :
  JS.lt (JS.of_nat pollCount) (run_maxPollAttempts run) = true ->
  getTask env q (run_taskId run) = inr t ->
  includes TERMINAL_STATES (status_state t) = false ->
  hoare (polling (S q)) (pollLoop env run fuel (status_state t) (S pollCount))
        N (fun _ _ => False) (fun _ => False) ->
  hoare (polling q) (pollLoop env run (S fuel) lastState pollCount)
        N (fun _ _ => False) (fun _ => False).
Proof.
  intros Hlt Hg Hnt Hnext. cbn [pollLoop]. rewrite Hlt.
  eapply hoare_bind with (N1 := fun _ => polling q).
  { intros w Hw. exact Hw. }
  intros ?.
  eapply hoare_bind
    with (N1 := fun got w => got = Some t /\ polling (S q) w).
  { eapply hoare_catch with (T1 := fun _ _ => False).
    - eapply hoare_bind with (N1 := fun t' w => t' = t /\ polling (S q) w).
      + apply (sure_getTask q).
        * intros w (_ & Hq & _). exact Hq.
        * intros w t' Hw Hg'. split; [congruence | apply polling_polled, Hw].
        * intros w e Hw Hg'. congruence.
      + intros t'. apply hoare_ret. intros w [-> Hw]. auto.
    - intros e w []. }
  intros got w [-> Hw]. revert w Hw.
  change (hoare (polling (S q))
            (lastState' <-
               (if negb (status_state t =? lastState)%string
                then (ev <- stateDelta env (events run) (status_state t) ;;
                      emit env ev) ;;
                     ret (status_state t)
                else ret lastState) ;;
             if includes TERMINAL_STATES (status_state t)
             then onTerminal env run (status_state t) t ;;
                  ret (lastState', pollCount)
             else pollLoop env run fuel lastState' (S pollCount))
            N (fun _ _ => False) (fun _ => False)).
  rewrite Hnt.
  eapply hoare_bind
    with (N1 := fun ls' w => ls' = status_state t /\ polling (S q) w).
  { destruct (String.eqb_spec (status_state t) lastState) as [He|Hne];
      cbn [negb].
    - apply hoare_ret. auto.
    - eapply hoare_bind; [apply sure_emit_other; discriminate|].
      intros ?. apply hoare_ret. auto. }
  intros ls' w [-> Hw]. apply Hnext. exact Hw.
Qed.

(** [j] turns whose polls all answer with a state that is not terminal. *)
Lemma pollLoop_through (j : nat) :
  forall fuel lastState pollCount q N,
    (forall i, i < j ->
       JS.lt (JS.of_nat (pollCount + i)) (run_maxPollAttempts run) = true) ->
    (forall i, i < j ->
       exists t, getTask env (q + i) (run_taskId run) = inr t /\
                 includes TERMINAL_STATES (status_state t) = false) ->
    includes TERMINAL_STATES lastState = false ->
    (forall lastState',
       includes TERMINAL_STATES lastState' = false ->
       hoare (polling (q + j))
             (pollLoop env run fuel lastState' (pollCount + j))
             N (fun _ _ => False) (fun _ => False)) ->
    hoare (polling q) (pollLoop env run (j + fuel) lastState pollCount)
          N (fun _ _ => False) (fun _ => False).
Proof.
  induction j as [|j IH]; intros fuel lastState pollCount q N Hb Hp Hls Hk.
  - specialize (Hk lastState Hls). rewrite !Nat.add_0_r in Hk. exact Hk.
  - destruct (Hp 0 ltac:(lia)) as (t & Hg & Hnt).
    rewrite Nat.add_0_r in Hg.
    cbn [Nat.add]. eapply pollLoop_turn; eauto.
    { specialize (Hb 0 ltac:(lia)). rewrite Nat.add_0_r in Hb. exact Hb. }
    apply IH; auto.
    + intros i Hi. specialize (Hb (S i) ltac:(lia)).
      rewrite Nat.add_succ_r in Hb. exact Hb.
    + intros i Hi. specialize (Hp (S i) ltac:(lia)).
      rewrite Nat.add_succ_r in Hp. exact Hp.
    + intros ls' Hls'. specialize (Hk ls' Hls').
      rewrite !Nat.add_succ_r in Hk. exact Hk.
Qed.

(** The loop is left by its condition. *)
Lemma pollLoop_exhausted (fuel : nat) (lastState : BinduTaskState)
    (pollCount q : nat) :
  JS.lt (JS.of_nat pollCount) (run_maxPollAttempts run) = false ->
  hoare (polling q) (pollLoop env run fuel lastState pollCount)
        (fun left w => left = (lastState, pollCount) /\ polling q w)
        (fun _ _ => False) (fun _ => False).
Proof.
  intros Hlt. destruct fuel; cbn [pollLoop]; rewrite Hlt; apply hoare_ret;
    auto.
Qed.

(** The loop is left because the poll fails. *)
Lemma pollLoop_poll_fails (fuel : nat) (lastState : BinduTaskState)
    (pollCount q : nat) (e : Thrown) :
  JS.lt (JS.of_nat pollCount) (run_maxPollAttempts run) = true ->
  getTask env q (run_taskId run) = inl e ->
  hoare (polling q) (pollLoop env run (S fuel) lastState pollCount)
        (fun left w =>
           snd left = pollCount /\
           reported (RUN_ERROR,
                     ErrorPayload (message_or e "Failed to get task status")
                                  None)
                    (S q) w)
        (fun _ _ => False) (fun _ => False).
Proof.
  intros Hlt Hg. cbn [pollLoop]. rewrite Hlt.
  eapply hoare_bind with (N1 := fun _ => polling q).
  { intros w Hw. exact Hw. }
  intros ?.
  eapply hoare_bind
    with (N1 := fun got w =>
                  got = None /\
                  reported (RUN_ERROR,
                            ErrorPayload
                              (message_or e "Failed to get task status") None)
                           (S q) w).
  { eapply hoare_catch with (T1 := fun e' w => e' = e /\ polling (S q) w).
    - eapply hoare_bind with (N1 := fun _ _ => False).
      + apply (sure_getTask q).
        * intros w (_ & Hq & _). exact Hq.
        * intros w t' Hw Hg'. congruence.
        * intros w e' Hw Hg'. split; [congruence | apply polling_polled, Hw].
      + intros t' w [].
    - intros e'.
      eapply hoare_bind
        with (N1 := fun _ w =>
                      reported (RUN_ERROR,
                                ErrorPayload
                                  (message_or e "Failed to get task status")
                                  None)
                               (S q) w).
      + intros w [-> Hw]. revert w Hw.
        apply (sure_emit_terminal RUN_ERROR). auto.
      + intros ?. apply hoare_ret. auto. }
  intros got w [-> Hw]. cbn. auto.
Qed.

(** The loop is left because the poll answers with a terminal state. *)
Lemma pollLoop_terminal (fuel : nat) (lastState : BinduTaskState)
    (pollCount q : nat) (t : BinduTask) :
  JS.lt (JS.of_nat pollCount) (run_maxPollAttempts run) = true ->
  getTask env q (run_taskId run) = inr t ->
  includes TERMINAL_STATES (status_state t) = true ->
  hoare (polling q) (pollLoop env run (S fuel) lastState pollCount)
        (fun left w =>
           snd left = pollCount /\
           reported (terminal_report (status_state t)) (S q) w)
        (fun _ _ => False) (fun _ => False).
Proof.
  intros Hlt Hg Hterm. cbn [pollLoop]. rewrite Hlt.
  eapply hoare_bind with (N1 := fun _ => polling q).
  { intros w Hw. exact Hw. }
  intros ?.
  eapply hoare_bind
    with (N1 := fun got w => got = Some t /\ polling (S q) w).
  { eapply hoare_catch with (T1 := fun _ _ => False).
    - eapply hoare_bind with (N1 := fun t' w => t' = t /\ polling (S q) w).
      + apply (sure_getTask q).
        * intros w (_ & Hq & _). exact Hq.
        * intros w t' Hw Hg'. split; [congruence | apply polling_polled, Hw].
        * intros w e Hw Hg'. congruence.
      + intros t'. apply hoare_ret. intros w [-> Hw]. auto.
    - intros e w []. }
  intros got w [-> Hw]. revert w Hw.
  change (hoare (polling (S q))
            (lastState' <-
               (if negb (status_state t =? lastState)%string
                then (ev <- stateDelta env (events run) (status_state t) ;;
                      emit env ev) ;;
                     ret (status_state t)
                else ret lastState) ;;
             if includes TERMINAL_STATES (status_state t)
             then onTerminal env run (status_state t) t ;;
                  ret (lastState', pollCount)
             else pollLoop env run fuel lastState' (S pollCount))
            (fun left w =>
               snd left = pollCount /\
               reported (terminal_report (status_state t)) (S q) w)
            (fun _ _ => False) (fun _ => False)).
  rewrite Hterm.
  eapply hoare_bind with (N1 := fun _ => polling (S q)).
  { destruct (negb (status_state t =? lastState)%string).
    - eapply hoare_bind; [apply sure_emit_other; discriminate|].
      intros ?. apply hoare_ret. auto.
    - apply hoare_ret. auto. }
  intros ls'.
  eapply hoare_bind; [apply sure_onTerminal; exact Hterm|].
  intros ?. apply hoare_ret. auto.
Qed.

(** From the loop to the end of the background task: the submit having
    succeeded, the run ends as the loop and the statement after it leave
    it, and the stream is closed. *)
Lemma background_reports (x : EventType * Payload) (q fuel : nat)
    (messages : list AGUIMessage) (u : nat) (t0 : BinduTask)
    (R : BinduTaskState * nat -> World -> Prop) :
  user_texts messages <> [] ->
  sendMessage env (submission messages run) = inr t0 ->
  hoare (polling 0) (pollLoop env run fuel "submitted" 0)
        R (fun _ _ => False) (fun _ => False) ->
  (forall left,
     hoare (R left) (after_loop env run left)
           (fun _ => reported x q) (fun _ _ => False) (fun _ => False)) ->
  exists final,
    background env messages run fuel (mkWorld [] Writable u 0 [] [] [] [])
    = (Normal tt, final) /\
    writer final = Closed /\ ends_with x (delivered final) /\
    List.length (queried final) = q /\ first_is_started (delivered final).
Proof.
  intros Hu Hsend Hloop Hafter.
  set (start := fun w => delivered w = [] /\ writer w = Writable /\
                         queried w = []).
  assert (Htry : hoare start (tryBlock env messages run fuel)
                       (fun _ => reported x q)
                       (fun _ _ => False) (fun _ => False)).
  { unfold tryBlock. fold (user_texts messages).
    fold (submission messages run).
    assert (Hlen : (List.length
                      (filter (fun m => Role_eqb (role m) user) messages)
                    =? 0)%nat = false).
    { unfold user_texts in Hu.
      destruct (filter (fun m => Role_eqb (role m) user) messages);
        [contradiction | reflexivity]. }
    rewrite Hlen.
    eapply hoare_bind with (N1 := fun _ => start).
    { intros w Hw. unfold binduClient_sendMessage. rewrite Hsend. exact Hw. }
    intros ?.
    eapply hoare_bind with (N1 := fun _ => polling 0).
    { apply sure_emit.
      - intros w (_ & Hw & _). exact Hw.
      - intros w (Hd & Hw & Hq). unfold polling, open_without_terminal.
        cbn [delivered writer queried]. rewrite Hd, Hq. cbn [app].
        repeat split; auto.
        + constructor; [reflexivity | constructor].
        + eexists _, _. split; reflexivity. }
    intros ?.
    eapply hoare_bind; [exact Hloop|].
    intros left. exact (Hafter left). }
  assert (H : hoare start (background env messages run fuel)
                    (fun _ w => writer w = Closed /\
                                ends_with x (delivered w) /\
                                List.length (queried w) = q /\
                                first_is_started (delivered w))
                    (fun _ _ => False) (fun _ => False)).
  { unfold background.
    eapply hoare_finally
      with (N1 := fun _ => reported x q) (T1 := fun _ _ => False).
    - eapply hoare_catch; [exact Htry|]. intros e w [].
    - intros ? w (Hw & He & Hq & Hs).
      unfold try_catch, close, writer_close, ret. rewrite Hw.
      cbn [writer delivered queried]. auto.
    - intros e w []. }
  specialize (H (mkWorld [] Writable u 0 [] [] [] [])
                (conj eq_refl (conj eq_refl eq_refl))).
  destruct (background env messages run fuel (mkWorld [] Writable u 0 [] [] [] []))
    as [[[]|e|] final]; try contradiction.
  exists final. auto.
Qed.

(** After a [break] the statement after the loop does nothing. *)
Lemma after_loop_broke (x : EventType * Payload) (q pollCount : nat)
    (left : BinduTaskState * nat) :
  JS.lt (JS.of_nat pollCount) (run_maxPollAttempts run) = true ->
  hoare (fun w => snd left = pollCount /\ reported x q w)
        (after_loop env run left)
        (fun _ => reported x q) (fun _ _ => False) (fun _ => False).
Proof.
  intros Hlt. destruct left as [lastState pc]. unfold after_loop.
  intros w [Hpc Hw]. cbn [snd] in Hpc. subst pc.
  rewrite (JS_lt_not_ge _ _ Hlt). cbn. exact Hw.
Qed.

(** After the loop was left by its condition the timeout is reported. *)
Lemma after_loop_exhausted (q pollCount : nat) (lastState : BinduTaskState)
    (left : BinduTaskState * nat) :
  JS.lt (JS.of_nat pollCount) (run_maxPollAttempts run) = false ->
  JS.is_nan (run_maxPollAttempts run) = false ->
  includes TERMINAL_STATES lastState = false ->
  hoare (fun w => left = (lastState, pollCount) /\ polling q w)
        (after_loop env run left)
        (fun _ => reported (RUN_ERROR, ErrorPayload "Polling timeout" None) q)
        (fun _ _ => False) (fun _ => False).
Proof.
  intros Hlt Hnan Hls w [-> Hw]. unfold after_loop.
  rewrite (JS_not_lt_ge (JS.of_nat pollCount) _ eq_refl Hnan Hlt), Hls.
  cbn [andb negb]. revert w Hw.
  change (hoare (polling q)
            (ev <- runError env (events run) "Polling timeout" None ;;
             emit env ev)
            (fun _ => reported (RUN_ERROR, ErrorPayload "Polling timeout" None) q)
            (fun _ _ => False) (fun _ => False)).
  apply (sure_emit_terminal RUN_ERROR). auto.
Qed.

End Outcome.

Section SubmitFails.

Variable env : Env.
Variable run : Run.
Hypothesis consumer_stays : writeLimit env = None.

Lemma background_submit_fails (messages : list AGUIMessage) (fuel u : nat)
    (e : Thrown) :
  user_texts messages <> [] ->
  sendMessage env (submission messages run) = inl e ->
  exists final,
    background env messages run fuel (mkWorld [] Writable u 0 [] [] [] [])
    = (Normal tt, final) /\
    map told (delivered final)
    = [(RUN_ERROR, ErrorPayload (message_or e "Unknown error") None)] /\
    queried final = [] /\ writer final = Closed.
Proof.
  intros Hu Hsend.
  assert (Hlen : (List.length
                    (filter (fun m => Role_eqb (role m) user) messages)
                  =? 0)%nat = false).
  { unfold user_texts in Hu.
    destruct (filter (fun m => Role_eqb (role m) user) messages);
      [contradiction | reflexivity]. }
  unfold submission, user_texts in Hsend.
  unfold background, tryBlock. rewrite Hlen.
  cbv [bind binduClient_sendMessage try_catch try_finally].
  rewrite Hsend.
  cbv [runError base Date_now bind ret emit close writer_write writer_close
       accepts delivered writer uuids ticks sent queried slept].
  rewrite consumer_stays. cbn [List.length].
  eexists. split; [reflexivity|]. repeat split.
Qed.

End SubmitFails.

(** ** The text of a frame *)

Lemma printable_app (s1 s2 : string) :
  printable (s1 ++ s2)%string = printable s1 && printable s2.
Proof.
  induction s1 as [|c s1 IH]; cbn [String.append printable]; [reflexivity|].
  rewrite IH, andb_assoc. reflexivity.
Qed.

Lemma occurrences_app (c : ascii) (s1 s2 : string) :
  occurrences c (s1 ++ s2)%string = occurrences c s1 + occurrences c s2.
Proof.
  induction s1 as [|x s1 IH]; cbn [String.append occurrences]; [reflexivity|].
  rewrite IH. lia.
Qed.

Lemma printable_no_control (c : ascii) (s : string) :
  (N_of_ascii c <? 32)%N = true -> printable s = true -> occurrences c s = 0.
Proof.
  intros Hc. induction s as [|x s IH]; cbn [printable occurrences];
    [reflexivity|].
  intros H. apply andb_prop in H. destruct H as [Hx Hs].
  rewrite (IH Hs).
  destruct (Ascii.eqb_spec x c) as [->|_]; [|reflexivity].
  apply N.leb_le in Hx. apply N.ltb_lt in Hc. lia.
Qed.

Lemma printable_escape (c : ascii) : printable (JSON.escape c) = true.
Proof.
  destruct c as [[] [] [] [] [] [] [] []]; vm_compute; reflexivity.
Qed.

Lemma printable_escape_all (s : string) :
  printable (JSON.escape_all s) = true.
Proof.
  induction s as [|c s IH]; cbn [JSON.escape_all]; [reflexivity|].
  rewrite printable_app, printable_escape, IH. reflexivity.
Qed.

Lemma printable_quote (s : string) : printable (JSON.quote s) = true.
Proof.
  unfold JSON.quote. cbn [printable]. rewrite printable_app.
  rewrite printable_escape_all. reflexivity.
Qed.

Lemma printable_uint (d : Decimal.uint) :
  printable (NilEmpty.string_of_uint d) = true.
Proof. induction d; cbn [NilEmpty.string_of_uint printable]; auto. Qed.

Lemma printable_integer (z : Z) : printable (JSON.integer z) = true.
Proof.
  unfold JSON.integer, NilZero.string_of_int.
  destruct (Z.to_int z) as [d|d]; unfold NilZero.string_of_uint;
    destruct d; cbn [printable]; try reflexivity;
    cbn [NilEmpty.string_of_uint printable]; apply printable_uint.
Qed.

Lemma printable_member (key value : string) :
  printable value = true -> printable (JSON.member key value) = true.
Proof.
  intros H. unfold JSON.member.
  rewrite !printable_app, printable_quote, H. reflexivity.
Qed.

Lemma printable_payload (p : Payload) :
  printable (JSON.payload_members p) = true.
Proof.
  destruct p as [|m [c|]|s|i r|i c|i]; cbn [JSON.payload_members];
    repeat first
      [ reflexivity
      | rewrite printable_app
      | rewrite printable_member
      | rewrite printable_quote
      | rewrite printable_integer
      | progress cbn [printable andb] ].
Qed.

Lemma printable_stringify (e : AGUIEvent) :
  printable (JSON.stringify e) = true.
Proof.
  unfold JSON.stringify.
  repeat first
    [ reflexivity
    | rewrite printable_payload
    | rewrite printable_app
    | rewrite printable_member
    | rewrite printable_quote
    | rewrite printable_integer
    | progress cbn [printable andb] ].
Qed.

Lemma printable_EventType_value (t : EventType) :
  printable (EventType_value t) = true.
Proof. destruct t; reflexivity. Qed.

(** ** [parseInt] and the configuration *)

Lemma digit_value_head (c : ascii) (k : N) (rest : string) :
  digit_value c = Some k ->
  parseInt (String c rest)
  = match leading_digits rest (Some k) with
    | Some n => JS.Finite false n 1
    | None => JS.NaN
    end.
Proof.
  destruct c as [[] [] [] [] [] [] [] []]; vm_compute digit_value;
    intros H; try discriminate H; injection H as <-; reflexivity.
Qed.

Lemma leading_digits_some (s : string) (a : N) :
  exists n, leading_digits s (Some a) = Some n.
Proof.
  revert a. induction s as [|c s IH]; intros a; cbn [leading_digits].
  - eauto.
  - destruct (digit_value c); [apply IH | eauto].
Qed.

Lemma leading_digits_stop (s : string) (acc : option N) :
  no_digit_ahead s = true -> leading_digits s acc = acc.
Proof.
  destruct s as [|c s]; cbn [no_digit_ahead leading_digits];
    [reflexivity|].
  destruct (digit_value c); [discriminate | reflexivity].
Qed.

Lemma leading_digits_uint (d : Decimal.uint) (suffix : string) (a : N) :
  no_digit_ahead suffix = true ->
  leading_digits (NilEmpty.string_of_uint d ++ suffix)%string (Some a)
  = Some (N.of_nat (Nat.of_uint_acc d (N.to_nat a))).
Proof.
  intros Hs. revert a.
  induction d as [|d IH|d IH|d IH|d IH|d IH|d IH|d IH|d IH|d IH|d IH];
    intros a;
    cbn [NilEmpty.string_of_uint String.append Nat.of_uint_acc];
    [rewrite (leading_digits_stop _ _ Hs), N2Nat.id; reflexivity | ..].
  all: cbn [leading_digits];
    match goal with
    | |- context [digit_value ?c] =>
        let v := eval vm_compute in (digit_value c) in
        change (digit_value c) with v
    end;
    cbv iota; rewrite IH, Nat.tail_mul_spec; do 3 f_equal; lia.
Qed.

(** [parseInt] reads a decimal numeral back, whatever follows it. *)
Lemma parseInt_decimal (n : nat) (suffix : string) :
  no_digit_ahead suffix = true ->
  parseInt (decimal n ++ suffix)%string = JS.of_nat n.
Proof.
  intros Hs. unfold decimal, JS.of_nat.
  rewrite <- (DecimalNat.Unsigned.of_to n) at 2.
  unfold Nat.of_uint, NilZero.string_of_uint.
  destruct (Nat.to_uint n) as [|d|d|d|d|d|d|d|d|d|d];
    cbn [NilEmpty.string_of_uint String.append Nat.of_uint_acc];
    [rewrite (digit_value_head "0" 0 suffix eq_refl),
       (leading_digits_stop _ _ Hs); reflexivity | ..].
  all: erewrite digit_value_head by reflexivity;
    rewrite (leading_digits_uint _ _ _ Hs); reflexivity.
Qed.

Lemma decimal_not_empty (n : nat) (suffix : string) :
  JS.truthy_string (decimal n ++ suffix)%string = true.
Proof.
  unfold decimal, NilZero.string_of_uint.
  destruct (Nat.to_uint n); reflexivity.
Qed.

Lemma getEnvNumberOrDefault_number
    (process_env : string -> option string) (key : string)
    (defaultValue : JS.number) :
  JS.is_nan defaultValue = false ->
  JS.is_nan (getEnvNumberOrDefault process_env key defaultValue) = false.
Proof.
  intros Hd. unfold getEnvNumberOrDefault.
  destruct (process_env key) as [value|]; [|exact Hd].
  destruct (negb (JS.truthy_string value)); [exact Hd|].
  destruct (JS.is_nan (parseInt value)) eqn:E; [exact Hd | exact E].
Qed.

(** ** When the attempt budget is not a number *)

Lemma round_double_number (s : bool) (a b : positive) :
  JS.is_nan (JS.ceil (JS.round_double s a b)) = false.
Proof.
  unfold JS.round_double.
  match goal with |- context [if ?c then _ else _] => destruct c end.
  - reflexivity.
  - cbv beta iota delta [JS.ceil JS.is_nan]. destruct s; reflexivity.
Qed.

Lemma ceil_div_is_nan (t p : JS.number) :
  JS.truthy t = true ->
  JS.is_nan (JS.ceil (JS.div t p)) = true ->
  JS.is_nan p = true \/ is_infinite t = true /\ is_infinite p = true.
Proof.
  intros Et H.
  destruct t as [|s|s [|n] d]; destruct p as [|s'|s' [|n'] d'];
    try discriminate Et; auto;
    cbv beta iota delta [JS.div] in H;
    try rewrite round_double_number in H;
    try discriminate H.
  all: destruct (xorb s s'); discriminate H.
Qed.

Lemma budget_is_nan (config : BridgeConfig) (body : AGUIRunRequest) :
  JS.is_nan (maxPollAttempts config) = false ->
  JS.is_nan (resolve_maxPollAttempts config body
               (resolve_pollIntervalMs config body)) = true <->
  exists t,
    config_field (body_config body) timeout_ms = Some t /\
    JS.truthy t = true /\
    (JS.is_nan (resolve_pollIntervalMs config body) = true \/
     is_infinite t = true /\
     is_infinite (resolve_pollIntervalMs config body) = true).
Proof.
  intros Hc. unfold resolve_maxPollAttempts.
  destruct (config_field (body_config body) timeout_ms) as [t|].
  - destruct (JS.truthy t) eqn:Et.
    + split.
      * intros H. exists t. split; [reflexivity|]. split; [exact Et|].
        apply ceil_div_is_nan; assumption.
      * intros (t' & Ht & _ & H). injection Ht as <-.
        destruct H as [H | [H1 H2]].
        -- destruct (resolve_pollIntervalMs config body); try discriminate.
           destruct t; reflexivity.
        -- destruct t; try discriminate.
           destruct (resolve_pollIntervalMs config body); try discriminate.
           reflexivity.
    + rewrite Hc. split; [discriminate|].
      intros (t' & Ht & Ht' & _). injection Ht as <-. congruence.
  - rewrite Hc. split; [discriminate|].
    intros (t' & Ht & _). discriminate.
Qed.

Lemma config_numbers (process_env : string -> option string) :
  JS.is_nan (port (config process_env)) = false /\
  JS.is_nan (pollIntervalMs (config process_env)) = false /\
  JS.is_nan (requestTimeoutMs (config process_env)) = false /\
  JS.is_nan (maxPollAttempts (config process_env)) = false.
Proof.
  unfold config.
  cbn [port pollIntervalMs requestTimeoutMs maxPollAttempts].
  repeat split; apply getEnvNumberOrDefault_number; reflexivity.
Qed.

(** ** The listing of runs *)

Lemma completed_states_are_terminal (s : string) :
  includes ["completed"; "failed"; "canceled"] s = includes TERMINAL_STATES s.
Proof.
  unfold includes, TERMINAL_STATES. cbn [existsb].
  destruct (String.eqb s "completed"), (String.eqb s "failed"),
    (String.eqb s "canceled"); reflexivity.
Qed.

Lemma listRuns_listed (query : string -> option string)
    (listTasks : JS.number -> Thrown + list BinduTask) (runs : list RunInfo) :
  listRuns query listTasks = RunsListed runs ->
  exists limit tasks,
    listTasks limit = inr tasks /\
    runs = map run_of_task
             (match query "thread_id" with
              | Some t =>
                  if JS.truthy_string t
                  then filter (fun task => String.eqb (contextId task) t) tasks
                  else tasks
              | None => tasks
              end).
Proof.
  unfold listRuns.
  match goal with
  | |- context [listTasks ?l] =>
      destruct (listTasks l) as [e|tasks] eqn:E; [discriminate|];
      intros H; injection H as <-; exists l, tasks
  end.
  split; [exact E | reflexivity].
Qed.

Lemma JS_lt_of_nat_finite (i : nat) (s : bool) (n : N) (d : positive) :
  JS.lt (JS.of_nat i) (JS.Finite s n d) = true ->
  s = false /\ (N.of_nat i * Npos d < n)%N.
Proof.
  unfold JS.lt, JS.of_nat. cbn [JS.compare].
  destruct (Z.compare_spec (JS.signed false (N.of_nat i) * Z.pos d)
                           (JS.signed s n * 1)) as [H|H|H];
    try discriminate.
  intros _. unfold JS.signed in H. destruct s; [lia|]. split; [reflexivity|].
  lia.
Qed.

(* ================================================================= *)
(** * Further properties: the statements *)

(** X1. A run submits to the remote agent at most once: when the request
    has a message of role [user], exactly one [message/send] is made,
    carrying the contents of the [user] messages in order (other roles
    are left out), the run's message id, thread id and task id; when it
    has none, no submit is made.  This holds whatever the remote agent
    and the consumer do. *)
Theorem X1_one_submit_with_user_texts
    (env : Env) (config : BridgeConfig) (fuel : nat) (body : AGUIRunRequest)
    (run : Run) (bg : Completion unit) (final : World)
    (messages : list AGUIMessage) :
  handleAGUIRun env config fuel (Some body) = Streamed run bg final ->
  body_messages body = Some messages ->
  sent final
  = match user_texts messages with
    | [] => []
    | _ => [mkSend (user_texts messages) (run_messageId run)
                   (run_threadId run) (run_taskId run)]
    end.
Proof.
  intros H Hm.
  destruct (handleAGUIRun_start _ _ _ _ _ _ _ H) as (ms & u & Hm' & _ & Hbg).
  assert (ms = messages) by congruence. subst ms.
  pose proof (background_submits_once env run messages fuel
                (mkWorld [] Writable u 0 [] [] [] []) eq_refl) as Hs.
  rewrite Hbg in Hs. exact Hs.
Qed.

Lemma X1_witness :
  sent hello_final
  = [mkSend [mkTextPart "hi"] "uuid-1" "t1" "uuid-0"].
Proof.
  refine (X1_one_submit_with_user_texts
            hello_env default_config 2 hi_request hello_run (Normal tt)
            hello_final [mkMessage user "hi"] _ _);
    vm_compute; reflexivity.
Defined.

(** X2. The calls a run makes upon the remote agent and the timer are,
    in order: its submits, then a sleep of the run's poll interval and a
    poll for the run's task, turn after turn.  So every poll is for the
    run's task and comes right after one sleep of the poll interval.
    Each poll is made while the attempt count is below the budget; with
    a finite budget the number of polls is at most the budget rounded up
    to a whole number, so it never exceeds a whole-number budget. *)
Theorem X2_polls_within_budget
    (env : Env) (config : BridgeConfig) (fuel : nat) (body : AGUIRunRequest)
    (run : Run) (bg : Completion unit) (final : World) :
  handleAGUIRun env config fuel (Some body) = Streamed run bg final ->
  exists n,
    journal final
    = map SendCall (sent final)
        ++ List.concat (repeat [SleepCall (run_pollIntervalMs run);
                                GetTaskCall (run_taskId run)] n) /\
    queried final = repeat (run_taskId run) n /\
    slept final = repeat (run_pollIntervalMs run) n /\
    (forall i, i < n ->
       JS.lt (JS.of_nat i) (run_maxPollAttempts run) = true) /\
    (forall s num den, run_maxPollAttempts run = JS.Finite s num den ->
       n = 0 \/
       s = false /\ (N.of_nat n <= (num + Npos den - 1) / Npos den)%N) /\
    (forall s num, run_maxPollAttempts run = JS.Finite s num 1 ->
       n <= N.to_nat num).
Proof.
  intros H.
  destruct (handleAGUIRun_start _ _ _ _ _ _ _ H) as (ms & u & _ & _ & Hbg).
  destruct (background_polled_times env run ms fuel
              (mkWorld [] Writable u 0 [] [] [] [])
              eq_refl eq_refl eq_refl eq_refl)
    as (n & Hq & Hs & Hj & Hb).
  rewrite Hbg in Hq, Hs, Hj. cbn [snd polls fst] in Hq, Hs, Hj.
  assert (Hbound : forall s num den,
             run_maxPollAttempts run = JS.Finite s num den ->
             n = 0 \/
             s = false /\ (N.of_nat n <= (num + Npos den - 1) / Npos den)%N).
  { intros s num den Hmax. destruct n as [|m]; [left; reflexivity|]. right.
    specialize (Hb m (Nat.lt_succ_diag_r m)). rewrite Hmax in Hb.
    apply JS_lt_of_nat_finite in Hb. destruct Hb as [-> Hlt].
    split; [reflexivity|].
    apply N.div_le_lower_bound; lia. }
  exists n. repeat split; auto.
  intros s num Hmax. destruct (Hbound s num 1%positive Hmax) as [->|[_ Hle]];
    [lia|].
  replace (num + 1 - 1)%N with num in Hle by lia.
  rewrite N.div_1_r in Hle. lia.
Qed.

Lemma X2_witness :
  exists n,
    journal timeout_final
    = map SendCall (sent timeout_final)
        ++ List.concat (repeat [SleepCall (run_pollIntervalMs timeout_run);
                                GetTaskCall (run_taskId timeout_run)] n) /\
    queried timeout_final = repeat (run_taskId timeout_run) n /\
    slept timeout_final = repeat (run_pollIntervalMs timeout_run) n /\
    (forall i, i < n ->
       JS.lt (JS.of_nat i) (run_maxPollAttempts timeout_run) = true) /\
    (forall s num den,
       run_maxPollAttempts timeout_run = JS.Finite s num den ->
       n = 0 \/
       s = false /\ (N.of_nat n <= (num + Npos den - 1) / Npos den)%N) /\
    (forall s num, run_maxPollAttempts timeout_run = JS.Finite s num 1 ->
       n <= N.to_nat num).
Proof.
  refine (X2_polls_within_budget
            working_env two_attempts_config 2 hi_request timeout_run
            (Normal tt) timeout_final _).
  vm_compute. reflexivity.
Defined.

(** X3. A background task that has run to its end never leaves the
    stream open: the writer is closed, or it is errored by a write that
    failed.  This holds whatever the remote agent and the consumer do. *)
Theorem X3_stream_not_left_open
    (env : Env) (config : BridgeConfig) (fuel : nat) (body : AGUIRunRequest)
    (run : Run) (final : World) :
  handleAGUIRun env config fuel (Some body) = Streamed run (Normal tt) final ->
  writer final = Closed \/ writer final = Errored.
Proof.
  intros H.
  destruct (handleAGUIRun_start _ _ _ _ _ _ _ H) as (ms & u & _ & _ & Hbg).
  exact (background_closes env ms run fuel _ final Hbg).
Qed.

Lemma X3_witness :
  writer hello_final = Closed \/ writer hello_final = Errored.
Proof.
  refine (X3_stream_not_left_open
            hello_env default_config 2 hi_request hello_run hello_final _).
  vm_compute. reflexivity.
Defined.

(** X4. When the clock does not run backwards, the timestamps of the
    events on a stream are in non-decreasing order. *)
Theorem X4_timestamps_in_order
    (env : Env) (config : BridgeConfig) (fuel : nat) (body : AGUIRunRequest)
    (run : Run) (bg : Completion unit) (final : World) :
  (forall a b, a <= b -> (now env a <= now env b)%Z) ->
  handleAGUIRun env config fuel (Some body) = Streamed run bg final ->
  StronglySorted Z.le (timestamps (delivered final)).
Proof.
  intros Hclock H.
  destruct (handleAGUIRun_start _ _ _ _ _ _ _ H) as (ms & u & _ & _ & Hbg).
  pose proof (background_clocked env run Hclock ms fuel
                (mkWorld [] Writable u 0 [] [] [] [])) as Hc.
  rewrite Hbg in Hc. apply Hc.
  split; constructor.
Qed.

Lemma X4_witness :
  StronglySorted Z.le (timestamps (delivered hello_final)).
Proof.
  refine (X4_timestamps_in_order
            hello_env default_config 2 hi_request hello_run (Normal tt)
            hello_final _ _).
  - intros a b Hab. cbn [now hello_env]. lia.
  - vm_compute. reflexivity.
Defined.

(** X5. [RUN_STARTED] is never emitted anywhere but at the head of the
    stream, and a stream begins with it only if the submit to the remote
    agent has succeeded.  This holds whatever the remote agent and the
    consumer do. *)
Theorem X5_run_started_only_first_after_submit
    (env : Env) (config : BridgeConfig) (fuel : nat) (body : AGUIRunRequest)
    (run : Run) (bg : Completion unit) (final : World)
    (messages : list AGUIMessage) :
  handleAGUIRun env config fuel (Some body) = Streamed run bg final ->
  body_messages body = Some messages ->
  Forall (fun e => event_type e <> RUN_STARTED) (tl (delivered final)) /\
  (forall e rest, delivered final = e :: rest -> event_type e = RUN_STARTED ->
     exists t, sendMessage env (submission messages run) = inr t).
Proof.
  intros H Hm.
  destruct (handleAGUIRun_start _ _ _ _ _ _ _ H) as (ms & u & Hm' & _ & Hbg).
  assert (ms = messages) by congruence. subst ms.
  pose proof (background_started env run messages fuel
                (mkWorld [] Writable u 0 [] [] [] []) eq_refl) as Hs.
  rewrite Hbg in Hs. exact Hs.
Qed.

Lemma X5_witness :
  Forall (fun e => event_type e <> RUN_STARTED) (tl (delivered hello_final)) /\
  (forall e rest,
     delivered hello_final = e :: rest -> event_type e = RUN_STARTED ->
     exists t,
       sendMessage hello_env (submission [mkMessage user "hi"] hello_run)
       = inr t).
Proof.
  refine (X5_run_started_only_first_after_submit
            hello_env default_config 2 hi_request hello_run (Normal tt)
            hello_final [mkMessage user "hi"] _ _);
    vm_compute; reflexivity.
Defined.

(** X6. When the submit to the remote agent fails (the consumer being
    there), the run ends normally with a stream that holds exactly one
    event, a [RUN_ERROR] carrying the failure's message ("Unknown error"
    when what was thrown is not an [Error]); no [RUN_STARTED] is emitted,
    no poll is made, and the stream is closed. *)
Theorem X6_submit_failure_reported
    (env : Env) (config : BridgeConfig) (fuel : nat) (body : AGUIRunRequest)
    (run : Run) (bg : Completion unit) (final : World)
    (messages : list AGUIMessage) (e : Thrown) :
  writeLimit env = None ->
  handleAGUIRun env config fuel (Some body) = Streamed run bg final ->
  body_messages body = Some messages ->
  user_texts messages <> [] ->
  sendMessage env (submission messages run) = inl e ->
  bg = Normal tt /\
  map told (delivered final)
  = [(RUN_ERROR, ErrorPayload (message_or e "Unknown error") None)] /\
  queried final = [] /\ writer final = Closed.
Proof.
  intros Hsink H Hm Hu Hsend.
  destruct (handleAGUIRun_start _ _ _ _ _ _ _ H) as (ms & u & Hm' & _ & Hbg).
  assert (ms = messages) by congruence. subst ms.
  destruct (background_submit_fails env run Hsink messages fuel u e Hu Hsend)
    as (final' & E & Ht & Hq & Hw).
  rewrite Hbg in E. injection E as -> ->. auto.
Qed.

Lemma X6_witness :
  Normal tt = Normal tt /\
  map told (delivered refused_final)
  = [(RUN_ERROR,
      ErrorPayload "HTTP error: 503 Service Unavailable" None)] /\
  queried refused_final = [] /\ writer refused_final = Closed.
Proof.
  refine (X6_submit_failure_reported
            refusing_env default_config 0 hi_request refused_run (Normal tt)
            refused_final [mkMessage user "hi"]
            (ErrorObject "HTTP error: 503 Service Unavailable") _ _ _ _ _);
    try (vm_compute; reflexivity).
  discriminate.
Defined.

(** X7. Polling exhaustion.  The submit has succeeded, the consumer is
    there, the first [n] polls all answer with a state that is not
    terminal, and [n] is the first attempt count that the budget (a
    number, not [NaN]) does not allow.  Then, given fuel for [n] turns,
    the run ends normally after exactly [n] polls; the stream begins with
    [RUN_STARTED], ends with the [RUN_ERROR] "Polling timeout", holds no
    other terminal event (so no [RUN_FINISHED]), and is closed. *)
Theorem X7_polling_timeout
    (env : Env) (config : BridgeConfig) (fuel : nat) (body : AGUIRunRequest)
    (run : Run) (bg : Completion unit) (final : World)
    (messages : list AGUIMessage) (t0 : BinduTask) (n : nat) :
  writeLimit env = None ->
  handleAGUIRun env config fuel (Some body) = Streamed run bg final ->
  body_messages body = Some messages ->
  user_texts messages <> [] ->
  sendMessage env (submission messages run) = inr t0 ->
  still_running env (run_taskId run) n ->
  (forall i, i < n -> JS.lt (JS.of_nat i) (run_maxPollAttempts run) = true) ->
  JS.lt (JS.of_nat n) (run_maxPollAttempts run) = false ->
  JS.is_nan (run_maxPollAttempts run) = false ->
  n <= fuel ->
  bg = Normal tt /\
  List.length (queried final) = n /\
  first_is_started (delivered final) /\
  ends_with (RUN_ERROR, ErrorPayload "Polling timeout" None) (delivered final) /\
  writer final = Closed.
Proof.
  intros Hsink H Hm Hu Hsend Hrun Hb Hn Hnan Hfuel.
  destruct (handleAGUIRun_start _ _ _ _ _ _ _ H) as (ms & u & Hm' & _ & Hbg).
  assert (ms = messages) by congruence. subst ms.
  replace fuel with (n + (fuel - n)) in Hbg by lia.
  destruct (background_reports env run Hsink
              (RUN_ERROR, ErrorPayload "Polling timeout" None) n
              (n + (fuel - n)) messages u t0
              (fun left w =>
                 exists ls, includes TERMINAL_STATES ls = false /\
                            left = (ls, n) /\ polling n w)
              Hu Hsend) as (final' & E & Hw & He & Hq & Hs).
  - apply (pollLoop_through env run Hsink n (fuel - n) "submitted" 0 0);
      auto.
    intros ls' Hls'. cbn [Nat.add].
    eapply hoare_conseq;
      [apply (pollLoop_exhausted env run (fuel - n) ls' n n Hn)|..];
      cbn beta; eauto.
  - intros left w (ls & Hls & Hl & Hw). revert w Hw.
    intros w Hw.
    exact (after_loop_exhausted env run Hsink n n ls left Hn Hnan Hls w
             (conj Hl Hw)).
  - rewrite Hbg in E. injection E as -> ->. auto.
Qed.

Lemma X7_witness :
  Normal tt = Normal tt /\
  List.length (queried timeout_final) = 2 /\
  first_is_started (delivered timeout_final) /\
  ends_with (RUN_ERROR, ErrorPayload "Polling timeout" None)
            (delivered timeout_final) /\
  writer timeout_final = Closed.
Proof.
  refine (X7_polling_timeout
            working_env two_attempts_config 2 hi_request timeout_run
            (Normal tt) timeout_final [mkMessage user "hi"]
            (mkTask "run-1" "t1" "submitted" "2024-12-23T15:29:59Z" None) 2
            _ _ _ _ _ _ _ _ _ _);
    try (vm_compute; reflexivity).
  - discriminate.
  - intros i _. exists working_task. split; reflexivity.
  - intros i Hi. destruct i as [|[|i]]; [reflexivity | reflexivity | lia].
Defined.

(** X8. A failed poll is not retried.  The submit has succeeded, the
    consumer is there, the first [k] polls answer with a state that is
    not terminal and poll [k] fails, all within the budget.  Then, given
    fuel for [k + 1] turns, the run ends normally after exactly [k + 1]
    polls, and the stream ends with a [RUN_ERROR] carrying the failure's
    message ("Failed to get task status" when what was thrown is not an
    [Error]), its only terminal event, and is closed. *)
Theorem X8_poll_failure_ends_run
    (env : Env) (config : BridgeConfig) (fuel : nat) (body : AGUIRunRequest)
    (run : Run) (bg : Completion unit) (final : World)
    (messages : list AGUIMessage) (t0 : BinduTask) (k : nat) (e : Thrown) :
  writeLimit env = None ->
  handleAGUIRun env config fuel (Some body) = Streamed run bg final ->
  body_messages body = Some messages ->
  user_texts messages <> [] ->
  sendMessage env (submission messages run) = inr t0 ->
  still_running env (run_taskId run) k ->
  getTask env k (run_taskId run) = inl e ->
  within_budget run k ->
  k < fuel ->
  bg = Normal tt /\
  List.length (queried final) = S k /\
  first_is_started (delivered final) /\
  ends_with (RUN_ERROR,
             ErrorPayload (message_or e "Failed to get task status") None)
            (delivered final) /\
  writer final = Closed.
Proof.
  intros Hsink H Hm Hu Hsend Hrun Hfail Hb Hfuel.
  destruct (handleAGUIRun_start _ _ _ _ _ _ _ H) as (ms & u & Hm' & _ & Hbg).
  assert (ms = messages) by congruence. subst ms.
  replace fuel with (k + S (fuel - S k)) in Hbg by lia.
  set (x := (RUN_ERROR,
             ErrorPayload (message_or e "Failed to get task status") None)).
  destruct (background_reports env run Hsink x (S k)
              (k + S (fuel - S k)) messages u t0
              (fun left w => snd left = k /\ reported x (S k) w)
              Hu Hsend) as (final' & E & Hw & He & Hq & Hs).
  - apply (pollLoop_through env run Hsink k (S (fuel - S k)) "submitted" 0 0);
      auto.
    + intros i Hi. apply Hb. cbn [Nat.add]. lia.
    + intros ls' _. cbn [Nat.add].
      apply (pollLoop_poll_fails env run Hsink (fuel - S k) ls' k k e);
        [apply Hb; lia | exact Hfail].
  - intros left. apply (after_loop_broke env run x (S k) k left).
    apply Hb. lia.
  - rewrite Hbg in E. injection E as -> ->. auto.
Qed.

Lemma X8_witness :
  Normal tt = Normal tt /\
  List.length (queried unreachable_final) = 2 /\
  first_is_started (delivered unreachable_final) /\
  ends_with (RUN_ERROR, ErrorPayload "Request timeout" None)
            (delivered unreachable_final) /\
  writer unreachable_final = Closed.
Proof.
  refine (X8_poll_failure_ends_run
            unreachable_env default_config 2 hi_request unreachable_run
            (Normal tt) unreachable_final [mkMessage user "hi"]
            (mkTask "run-1" "t1" "submitted" "2024-12-23T15:29:59Z" None) 1
            (ErrorObject "Request timeout") _ _ _ _ _ _ _ _ _);
    try (vm_compute; reflexivity).
  - discriminate.
  - intros i Hi. exists working_task. destruct i; [split; reflexivity | lia].
  - intros i Hi. destruct i as [|[|i]]; [reflexivity | reflexivity | lia].
Defined.

(** X9. How a terminal state is reported.  The submit has succeeded, the
    consumer is there, the first [k] polls answer with a state that is
    not terminal and poll [k] answers with a terminal state, all within
    the budget.  Then, given fuel for [k + 1] turns, the run ends
    normally after exactly [k + 1] polls with a closed stream whose only
    terminal event is its last: [RUN_FINISHED] for "completed", the
    [RUN_ERROR] "Task failed" without a code for "failed", the
    [RUN_ERROR] "Task canceled" with code -32000 for "canceled". *)
Theorem X9_terminal_state_reported
    (env : Env) (config : BridgeConfig) (fuel : nat) (body : AGUIRunRequest)
    (run : Run) (bg : Completion unit) (final : World)
    (messages : list AGUIMessage) (t0 t : BinduTask) (k : nat) :
  writeLimit env = None ->
  handleAGUIRun env config fuel (Some body) = Streamed run bg final ->
  body_messages body = Some messages ->
  user_texts messages <> [] ->
  sendMessage env (submission messages run) = inr t0 ->
  still_running env (run_taskId run) k ->
  getTask env k (run_taskId run) = inr t ->
  includes TERMINAL_STATES (status_state t) = true ->
  within_budget run k ->
  k < fuel ->
  bg = Normal tt /\
  List.length (queried final) = S k /\
  first_is_started (delivered final) /\
  writer final = Closed /\
  (status_state t = "completed" ->
   ends_with (RUN_FINISHED, NoPayload) (delivered final)) /\
  (status_state t = "failed" ->
   ends_with (RUN_ERROR, ErrorPayload "Task failed" None) (delivered final)) /\
  (status_state t = "canceled" ->
   ends_with (RUN_ERROR, ErrorPayload "Task canceled" (Some (-32000)%Z))
             (delivered final)).
Proof.
  intros Hsink H Hm Hu Hsend Hrun Hg Hterm Hb Hfuel.
  destruct (handleAGUIRun_start _ _ _ _ _ _ _ H) as (ms & u & Hm' & _ & Hbg).
  assert (ms = messages) by congruence. subst ms.
  replace fuel with (k + S (fuel - S k)) in Hbg by lia.
  set (x := terminal_report (status_state t)).
  destruct (background_reports env run Hsink x (S k)
              (k + S (fuel - S k)) messages u t0
              (fun left w => snd left = k /\ reported x (S k) w)
              Hu Hsend) as (final' & E & Hw & He & Hq & Hs).
  - apply (pollLoop_through env run Hsink k (S (fuel - S k)) "submitted" 0 0);
      auto.
    + intros i Hi. apply Hb. cbn [Nat.add]. lia.
    + intros ls' _. cbn [Nat.add].
      apply (pollLoop_terminal env run Hsink (fuel - S k) ls' k k t);
        [apply Hb; lia | exact Hg | exact Hterm].
  - intros left. apply (after_loop_broke env run x (S k) k left).
    apply Hb. lia.
  - rewrite Hbg in E. injection E as -> ->.
    repeat split; auto; intros Hst; subst x; rewrite Hst in He; exact He.
Qed.

Lemma X9_witness :
  Normal tt = Normal tt /\
  List.length (queried hello_final) = 2 /\
  first_is_started (delivered hello_final) /\
  writer hello_final = Closed /\
  (status_state hello_task = "completed" ->
   ends_with (RUN_FINISHED, NoPayload) (delivered hello_final)) /\
  (status_state hello_task = "failed" ->
   ends_with (RUN_ERROR, ErrorPayload "Task failed" None)
             (delivered hello_final)) /\
  (status_state hello_task = "canceled" ->
   ends_with (RUN_ERROR, ErrorPayload "Task canceled" (Some (-32000)%Z))
             (delivered hello_final)).
Proof.
  refine (X9_terminal_state_reported
            hello_env default_config 2 hi_request hello_run (Normal tt)
            hello_final [mkMessage user "hi"]
            (mkTask "run-1" "t1" "submitted" "2024-12-23T15:29:59Z" None)
            hello_task 1 _ _ _ _ _ _ _ _ _ _);
    try (vm_compute; reflexivity).
  - discriminate.
  - intros i Hi. exists working_task. destruct i; [split; reflexivity | lia].
  - intros i Hi. destruct i as [|[|i]]; [reflexivity | reflexivity | lia].
Defined.


(** X10. The SSE frame of an event is framed by line feeds alone: whatever
    strings the event carries (thread id, error message, message text,
    with line breaks or other control characters in them), its JSON holds
    no code unit below 0x20, so the frame holds exactly three line feeds
    (the end of the [event:] line and the two that end the frame) and no
    carriage return; a stream of [n] events holds [3 * n] line feeds. *)
Theorem X10_frame_has_three_line_feeds (e : AGUIEvent) :
  (forall c, (N_of_ascii c <? 32)%N = true ->
             occurrences c (JSON.stringify e) = 0) /\
  occurrences LF (formatSSEEvent e) = 3 /\
  occurrences CR (formatSSEEvent e) = 0 /\
  forall l, occurrences LF (wire l) = 3 * List.length l.
Proof.
  assert (Hframe : forall e' c, (N_of_ascii c <? 32)%N = true ->
             occurrences c (formatSSEEvent e')
             = if Ascii.eqb LF c then 3 else 0).
  { intros e' c Hc.
    assert (Hs : forall s, printable s = true -> occurrences c s = 0)
      by (intros s; apply printable_no_control; exact Hc).
    change (formatSSEEvent e')
      with ("event: " ++ EventType_value (event_type e')
              ++ (String LF "" ++ ("data: " ++ JSON.stringify e'
                    ++ String LF (String LF ""))))%string.
    rewrite !occurrences_app.
    rewrite (Hs "event: "%string eq_refl), (Hs "data: "%string eq_refl).
    rewrite (Hs _ (printable_EventType_value _)).
    rewrite (Hs _ (printable_stringify e')).
    cbn [occurrences]. destruct (Ascii.eqb LF c); reflexivity. }
  split; [|split; [|split]].
  - intros c Hc. apply printable_no_control; [exact Hc|].
    apply printable_stringify.
  - rewrite (Hframe e LF eq_refl). reflexivity.
  - rewrite (Hframe e CR eq_refl). reflexivity.
  - induction l as [|e' l IH]; cbn [wire fold_right List.length];
      [reflexivity|].
    fold (wire l). rewrite occurrences_app, IH, (Hframe e' LF eq_refl).
    cbn [Ascii.eqb]. cbn. lia.
Qed.

Lemma X10_witness :
  occurrences LF (JSON.stringify two_line_error) = 0 /\
  occurrences LF (formatSSEEvent two_line_error) = 3.
Proof.
  split.
  - apply (proj1 (X10_frame_has_three_line_feeds two_line_error)).
    vm_compute. reflexivity.
  - apply (proj1 (proj2 (X10_frame_has_three_line_feeds two_line_error))).
Defined.

(** X11. A number given in the environment is read back.  When a
    variable holds the decimal numeral of [n] (up to 2^53), followed by
    nothing or by text that does not go on with a digit ("250ms"), the
    configuration number is [n], whatever the default; ["0"] gives 0 and
    not the default. *)
Theorem X11_env_number_is_read
    (process_env : string -> option string) (key : string)
    (defaultValue : JS.number) (n : nat) (suffix : string) :
  (N.of_nat n <= max_safe_integer)%N ->
  no_digit_ahead suffix = true ->
  process_env key = Some (decimal n ++ suffix)%string ->
  getEnvNumberOrDefault process_env key defaultValue = JS.of_nat n.
Proof.
  intros _ Hs He. unfold getEnvNumberOrDefault. rewrite He.
  rewrite decimal_not_empty, (parseInt_decimal _ _ Hs). reflexivity.
Qed.

Lemma X11_witness :
  getEnvNumberOrDefault sample_process_env "POLL_INTERVAL_MS"
                        (JS.Finite false 500 1)
  = JS.of_nat 250.
Proof.
  apply (X11_env_number_is_read sample_process_env "POLL_INTERVAL_MS"
           (JS.Finite false 500 1) 250 "ms").
  - vm_compute. discriminate.
  - reflexivity.
  - reflexivity.
Defined.

(** X12. Whatever the environment holds, the numbers of the process
    configuration are numbers: a variable that is not set, is empty or
    does not begin with a numeral leaves the default in place, so none
    of the four is [NaN]. *)
Theorem X12_config_numbers_are_not_nan
    (process_env : string -> option string) :
  JS.is_nan (port (config process_env)) = false /\
  JS.is_nan (pollIntervalMs (config process_env)) = false /\
  JS.is_nan (requestTimeoutMs (config process_env)) = false /\
  JS.is_nan (maxPollAttempts (config process_env)) = false.
Proof. exact (config_numbers process_env). Qed.

(** X13. Which requests make the attempt budget [NaN].  With a process
    default that is a number, the budget of a run is [NaN] exactly when
    the request supplies a truthy [timeout_ms] and either the run's poll
    interval is [NaN] or both the timeout and the poll interval are
    infinite. *)
Theorem X13_nan_budget_characterised
    (env : Env) (config : BridgeConfig) (fuel : nat) (body : AGUIRunRequest)
    (run : Run) (bg : Completion unit) (final : World) :
  JS.is_nan (maxPollAttempts config) = false ->
  handleAGUIRun env config fuel (Some body) = Streamed run bg final ->
  JS.is_nan (run_maxPollAttempts run) = true <->
  exists t,
    config_field (body_config body) timeout_ms = Some t /\
    JS.truthy t = true /\
    (JS.is_nan (run_pollIntervalMs run) = true \/
     is_infinite t = true /\ is_infinite (run_pollIntervalMs run) = true).
Proof.
  intros Hc H.
  destruct (handleAGUIRun_streamed _ _ _ _ _ _ _ H)
    as (threadId & messages & w2 & _ & _ & _ & _ & _ & _ & _ & _ & Hp & Hm & _).
  rewrite Hm, Hp. apply budget_is_nan. exact Hc.
Qed.

Lemma X13_witness : JS.is_nan (run_maxPollAttempts infinite_run) = true.
Proof.
  refine (proj2 (X13_nan_budget_characterised
                   hello_env default_config 2 infinite_config_request
                   infinite_run (Normal tt) infinite_final eq_refl _) _).
  - vm_compute. reflexivity.
  - exists (JS.Infinity false). repeat split. right. split; reflexivity.
Defined.

(** X14. With the process configuration read from any environment, a
    request that supplies no infinite [timeout_ms] and no [NaN] poll
    interval has a budget that is a number; so, with the consumer there,
    its run, once completed, has sent exactly one terminal event, as the
    last event, and has closed the stream. *)
Theorem X14_one_terminal_event_under_process_config
    (env : Env) (process_env : string -> option string) (fuel : nat)
    (body : AGUIRunRequest) (run : Run) (final : World) :
  writeLimit env = None ->
  (forall t, config_field (body_config body) timeout_ms = Some t ->
             is_infinite t = false) ->
  (forall p, config_field (body_config body) polling_interval_ms = Some p ->
             JS.is_nan p = false) ->
  handleAGUIRun env (config process_env) fuel (Some body)
  = Streamed run (Normal tt) final ->
  JS.is_nan (run_maxPollAttempts run) = false /\
  writer final = Closed /\ one_terminal_last (delivered final).
Proof.
  intros Hsink Ht Hp H.
  destruct (config_numbers process_env) as (_ & Hi & _ & Hm).
  assert (Hnan : JS.is_nan (run_maxPollAttempts run) = false).
  { destruct (JS.is_nan (run_maxPollAttempts run)) eqn:E; [|reflexivity].
    exfalso.
    destruct (handleAGUIRun_streamed _ _ _ _ _ _ _ H)
      as (threadId & messages & w2 & _ & _ & _ & _ & _ & _ & _ & _
          & Hpi & Hmx & _).
    rewrite Hmx in E. apply (budget_is_nan _ _ Hm) in E.
    destruct E as (t & Et & _ & [E | [E _]]).
    - unfold resolve_pollIntervalMs in E.
      destruct (config_field (body_config body) polling_interval_ms)
        as [p|] eqn:Ep; cbn [nullish] in E.
      + rewrite (Hp p eq_refl) in E. discriminate.
      + rewrite Hi in E. discriminate.
    - rewrite (Ht t Et) in E. discriminate. }
  split; [exact Hnan|].
  destruct (handleAGUIRun_streamed _ _ _ _ _ _ _ H)
    as (threadId & messages & w2 & _ & _ & _ & _ & _ & _ & _ & _ & _ & _
        & Hbg & Hd & Hw & _).
  apply (background_ok env run Hsink messages fuel w2 Hnan); [|exact Hbg].
  split; [exact Hw|]. rewrite Hd. constructor.
Qed.

Lemma X14_witness :
  JS.is_nan (run_maxPollAttempts sample_run) = false /\
  writer sample_final = Closed /\ one_terminal_last (delivered sample_final).
Proof.
  refine (X14_one_terminal_event_under_process_config
            hello_env sample_process_env 2 hi_request sample_run sample_final
            eq_refl _ _ _).
  - intros t Ht. discriminate Ht.
  - intros p Hp. discriminate Hp.
  - vm_compute. reflexivity.
Defined.

(** X15. The client fails with a [BinduRPCError] and nothing else.
    Whatever [fetch] and the reading of the body do, a call that fails
    is rejected with a [BinduRPCError]; its code is -32000 unless the
    remote's [error] member (or an RPC error raised inside) supplies
    another.  A [catch] of the handler therefore always finds an [Error]
    with that message, never the fallback text.  A response that is not
    [ok] fails with the status line, its body unread; a response with an
    [error] member fails even when it has a [result]. *)
Theorem X15_call_fails_with_rpc_error
    (T : Type) (fetch : RpcRequest -> Fetched T) (request : RpcRequest)
    (e : Raised) :
  call fetch request = inl e ->
  exists code message,
    e = RaisedRPC code message /\
    (forall fallback, message_or (thrown_of e) fallback = message) /\
    (code = minus_32000 \/
     fetch request = FetchRejects (RaisedRPC code message) \/
     exists response,
       fetch request = FetchResolves response /\
       http_ok response = true /\
       (http_json response = BodyRejects (RaisedRPC code message) \/
        exists data err,
          http_json response = BodyParsed data /\
          response_error data = Some err /\
          code = error_code err /\ message = error_message err)).
Proof.
  unfold call, call_try.
  destruct (fetch request) as [[c m|n m|]|response] eqn:Ef.
  - intros H. injection H as <-. exists c, m. auto.
  - destruct (String.eqb n "AbortError"); intros H; injection H as <-;
      eexists _, _; auto.
  - intros H. injection H as <-. eexists _, _. auto.
  - destruct (http_ok response) eqn:Eok; cbn [negb].
    + destruct (http_json response) as [[c m|n m|]|data] eqn:Ej.
      * intros H. injection H as <-. exists c, m.
        split; [reflexivity|]. split; [reflexivity|].
        right. right. exists response. auto.
      * destruct (String.eqb n "AbortError"); intros H; injection H as <-;
          eexists _, _; auto.
      * intros H. injection H as <-. eexists _, _. auto.
      * destruct (response_error data) as [err|] eqn:Ee; [|discriminate].
        intros H. injection H as <-. eexists _, _.
        split; [reflexivity|]. split; [reflexivity|].
        right. right. exists response. split; [reflexivity|].
        split; [exact Eok|]. right. exists data, err. auto.
    + intros H. injection H as <-. eexists _, _. auto.
Qed.

Lemma X15_witness :
  exists code message,
    RaisedRPC minus_32000 "HTTP error: 503 Service Unavailable"
    = RaisedRPC code message /\
    (forall fallback,
       message_or
         (thrown_of
            (RaisedRPC minus_32000 "HTTP error: 503 Service Unavailable"))
         fallback = message) /\
    (code = minus_32000 \/
     unavailable_fetch (TasksGet "run-1")
     = FetchRejects (RaisedRPC code message) \/
     exists response,
       unavailable_fetch (TasksGet "run-1") = FetchResolves response /\
       http_ok response = true /\
       (http_json response = BodyRejects (RaisedRPC code message) \/
        exists data err,
          http_json response = BodyParsed data /\
          response_error data = Some err /\
          code = error_code err /\ message = error_message err)).
Proof.
  apply (X15_call_fails_with_rpc_error
           BinduTask unavailable_fetch (TasksGet "run-1")
           (RaisedRPC minus_32000 "HTTP error: 503 Service Unavailable")).
  vm_compute. reflexivity.
Defined.

(** X16. A call succeeds exactly when the response is [ok], its body is
    read, and the body has no [error] member; the value is then the
    body's [result] (missing when the body has none). *)
Theorem X16_call_succeeds_exactly
    (T : Type) (fetch : RpcRequest -> Fetched T) (request : RpcRequest)
    (result : option T) :
  call fetch request = inr result <->
  exists response data,
    fetch request = FetchResolves response /\
    http_ok response = true /\
    http_json response = BodyParsed data /\
    response_error data = None /\
    response_result data = result.
Proof.
  unfold call, call_try. split.
  - destruct (fetch request) as [[c m|n m|]|response];
      try discriminate;
      try (destruct (String.eqb n "AbortError"); discriminate).
    destruct (http_ok response) eqn:Eok; cbn [negb]; [|discriminate].
    destruct (http_json response) as [[c m|n m|]|data] eqn:Ej;
      try discriminate;
      try (destruct (String.eqb n "AbortError"); discriminate).
    destruct (response_error data) eqn:Ee; [discriminate|].
    intros H. injection H as <-. exists response, data. auto.
  - intros (response & data & -> & Hok & Hj & He & <-).
    rewrite Hok, Hj, He. reflexivity.
Qed.

Lemma X16_witness :
  call answering_fetch (TasksGet "run-1") = inr (Some hello_task).
Proof.
  apply (proj2 (X16_call_succeeds_exactly
                  BinduTask answering_fetch (TasksGet "run-1")
                  (Some hello_task))).
  eexists _, _. repeat split.
Defined.

(** X17. The runs of a thread.  When [thread_id] is given and not empty,
    every run listed is of that thread, no task of that thread that the
    remote agent returned is left out, and the runs keep the order of
    the tasks.  Without [thread_id], or with an empty one, every task
    returned is listed. *)
Theorem X17_runs_are_filtered_by_thread
    (query : string -> option string)
    (listTasks : JS.number -> Thrown + list BinduTask) (runs : list RunInfo) :
  listRuns query listTasks = RunsListed runs ->
  exists limit tasks,
    listTasks limit = inr tasks /\
    (forall t, query "thread_id" = Some t -> t <> "" ->
       Forall (fun r => info_thread_id r = t) runs /\
       (forall task, In task tasks -> contextId task = t ->
                     In (run_of_task task) runs) /\
       exists kept,
         map info_run_id runs = map id kept /\
         kept = filter (fun task => String.eqb (contextId task) t) tasks) /\
    (query "thread_id" = None \/ query "thread_id" = Some "" ->
     map info_run_id runs = map id tasks /\
     map info_thread_id runs = map contextId tasks).
Proof.
  intros H. destruct (listRuns_listed _ _ _ H) as (limit & tasks & Hl & ->).
  exists limit, tasks. split; [exact Hl|]. split.
  - intros t -> Ht. destruct t as [|c t]; [congruence|].
    cbn [JS.truthy_string]. split; [|split].
    + apply Forall_forall. intros r Hr. apply in_map_iff in Hr.
      destruct Hr as (task & <- & Hin). apply filter_In in Hin.
      destruct Hin as [_ Heq]. apply String.eqb_eq in Heq. exact Heq.
    + intros task Hin Hc. apply in_map, filter_In. split; [exact Hin|].
      apply String.eqb_eq. exact Hc.
    + eexists. split; [|reflexivity]. rewrite map_map. reflexivity.
  - intros [-> | ->]; cbn [JS.truthy_string]; rewrite !map_map;
      split; reflexivity.
Qed.

Lemma X17_witness :
  exists limit tasks,
    sample_listTasks limit = inr tasks /\
    (forall t, t1_query "thread_id" = Some t -> t <> "" ->
       Forall (fun r => info_thread_id r = t)
              (map run_of_task
                   (filter (fun task => String.eqb (contextId task) "t1")
                           sample_tasks)) /\
       (forall task, In task tasks -> contextId task = t ->
                     In (run_of_task task)
                        (map run_of_task
                           (filter (fun task => String.eqb (contextId task) "t1")
                                   sample_tasks))) /\
       exists kept,
         map info_run_id
             (map run_of_task
                  (filter (fun task => String.eqb (contextId task) "t1")
                          sample_tasks))
         = map id kept /\
         kept = filter (fun task => String.eqb (contextId task) t) tasks) /\
    (t1_query "thread_id" = None \/ t1_query "thread_id" = Some "" ->
     map info_run_id
         (map run_of_task
              (filter (fun task => String.eqb (contextId task) "t1")
                      sample_tasks))
     = map id tasks /\
     map info_thread_id
         (map run_of_task
              (filter (fun task => String.eqb (contextId task) "t1")
                      sample_tasks))
     = map contextId tasks).
Proof.
  apply (X17_runs_are_filtered_by_thread t1_query sample_listTasks).
  reflexivity.
Defined.

(** X18. A listed run has a completion time exactly when its state is
    one of [TERMINAL_STATES], the states at which the run handler stops
    polling; the time is then the run's one timestamp, which is also its
    creation time. *)
Theorem X18_completed_at_marks_terminal_states
    (query : string -> option string)
    (listTasks : JS.number -> Thrown + list BinduTask) (runs : list RunInfo) :
  listRuns query listTasks = RunsListed runs ->
  Forall (fun r =>
            info_completed_at r
            = if includes TERMINAL_STATES (info_state r)
              then Some (info_created_at r) else None) runs.
Proof.
  intros H. destruct (listRuns_listed _ _ _ H) as (limit & tasks & _ & ->).
  apply Forall_forall. intros r Hr. apply in_map_iff in Hr.
  destruct Hr as (task & <- & _). unfold run_of_task.
  cbn [info_completed_at info_state info_created_at].
  rewrite completed_states_are_terminal. reflexivity.
Qed.

Lemma X18_witness :
  Forall (fun r =>
            info_completed_at r
            = if includes TERMINAL_STATES (info_state r)
              then Some (info_created_at r) else None)
         (map run_of_task
              (filter (fun task => String.eqb (contextId task) "t1")
                      sample_tasks)).
Proof.
  apply (X18_completed_at_marks_terminal_states t1_query sample_listTasks).
  reflexivity.
Defined.
